(** * chevin.py: fleet data aggregation and roster reconciliation

    A shallow embedding of the algorithmic core of [GeotabReportGenerator]
    (src/chevin.py): the geofence test, the latest-reading reduction of the
    telemetry window cache, the duration and timestamp formatters, the roster
    parser, the managed-group closure and the device reconciliation pass.

    Conventions of the embedding.
    - A Python [str] is a [string] (a sequence of bytes; for ASCII text the
      byte order is the code point order Python compares by).
    - A Python [float] is a rational [Q]: comparisons are exact, as they are
      on binary64; arithmetic is kept exact where binary64 rounds.
    - A Python [dict] read by key only is a [gmap]; one that is iterated is
      the list of its items in insertion order.
    - A [try ... except Exception] block is a computation in [result] whose
      [Raise] branch is mapped to the handler's value. *)

From Stdlib Require Import ZArith QArith Qminmax String Ascii List Lia Bool.
From Stdlib Require Import DecimalString DecimalPos Permutation.
From stdpp Require Import gmap strings list relations.

Close Scope Q_scope.
Local Open Scope string_scope.
Local Open Scope nat_scope.

(** ** Python primitives *)

Module Py.

(** The exceptions the embedded code can raise. *)
Inductive exn : Type :=
| ValueError
| OverflowError
| TypeError
| AttributeError
| UnboundLocalError.

Inductive result (A : Type) : Type :=
| Ok (a : A)
| Raise (e : exn).
Arguments Ok {A} a.
Arguments Raise {A} e.

Definition bind {A B : Type} (m : result A) (k : A -> result B) : result B :=
  match m with
  | Ok a => k a
  | Raise e => Raise e
  end.

(** Truthiness of a string: [if s:]. *)
Definition truthy (s : string) : bool :=
  match s with
  | EmptyString => false
  | String _ _ => true
  end.

(** [c in s] for a one-character [c]. *)
Fixpoint contains (c : ascii) (s : string) : bool :=
  match s with
  | EmptyString => false
  | String a s' => if Ascii.eqb a c then true else contains c s'
  end.

(** [s.find(c)] for a one-character [c]; [None] stands for -1. *)
Fixpoint find (c : ascii) (s : string) : option nat :=
  match s with
  | EmptyString => None
  | String a s' =>
      if Ascii.eqb a c then Some 0%nat
      else match find c s' with
           | Some i => Some (S i)
           | None => None
           end
  end.

(** [s[:n]] and [s[n:]] for [0 <= n]. *)
Fixpoint take (n : nat) (s : string) : string :=
  match n, s with
  | S n', String a s' => String a (take n' s')
  | _, _ => EmptyString
  end.

Fixpoint drop (n : nat) (s : string) : string :=
  match n, s with
  | S n', String _ s' => drop n' s'
  | _, _ => s
  end.

(** [s.rfind(c, 0, stop)]: the last index below [stop] that holds [c]. *)
Fixpoint rfind_from (c : ascii) (s : string) (i : nat) : option nat :=
  match s with
  | EmptyString => None
  | String a s' =>
      match rfind_from c s' (S i) with
      | Some j => Some j
      | None => if Ascii.eqb a c then Some i else None
      end
  end.

Definition rfind (c : ascii) (s : string) (stop : nat) : option nat :=
  rfind_from c (take stop s) 0.

(** [s.split(c)] for a one-character separator: never empty. *)
Fixpoint split (c : ascii) (s : string) : list string :=
  match s with
  | EmptyString => [EmptyString]
  | String a s' =>
      if Ascii.eqb a c then EmptyString :: split c s'
      else match split c s' with
           | t :: ts => String a t :: ts
           | [] => [String a EmptyString]
           end
  end.

(** [s.replace(c, '')] for a one-character [c]. *)
Fixpoint remove (c : ascii) (s : string) : string :=
  match s with
  | EmptyString => EmptyString
  | String a s' => if Ascii.eqb a c then remove c s' else String a (remove c s')
  end.

(** [str.isspace] on one ASCII character: TAB, LF, VT, FF, CR, the four
    separators FS, GS, RS, US and the space. *)
Definition is_space (a : ascii) : bool :=
  let n := nat_of_ascii a in
  ((9 <=? n) && (n <=? 13)) || ((28 <=? n) && (n <=? 32)).

Fixpoint lstrip_by (f : ascii -> bool) (s : string) : string :=
  match s with
  | EmptyString => EmptyString
  | String a s' => if f a then lstrip_by f s' else s
  end.

Fixpoint rstrip_by (f : ascii -> bool) (s : string) : string :=
  match s with
  | EmptyString => EmptyString
  | String a s' =>
      match rstrip_by f s' with
      | EmptyString => if f a then EmptyString else String a EmptyString
      | t => String a t
      end
  end.

Definition strip_by (f : ascii -> bool) (s : string) : string :=
  rstrip_by f (lstrip_by f s).

(** [s.strip()] and [s.strip(chars)]. *)
Definition strip : string -> string := strip_by is_space.
Definition strip_chars (chars : string) : string -> string :=
  strip_by (fun a => contains a chars).

(** The blanks [int] and [float] skip around a number: TAB, LF, VT, FF, CR
    and the space, but none of the four separators, which [strip] removes
    and on which the conversions raise. *)
Definition is_blank (a : ascii) : bool :=
  let n := nat_of_ascii a in
  ((9 <=? n) && (n <=? 13)) || (n =? 32).

Definition is_digit (a : ascii) : bool :=
  let n := nat_of_ascii a in (48 <=? n) && (n <=? 57).

Fixpoint all_chars (f : ascii -> bool) (s : string) : bool :=
  match s with
  | EmptyString => true
  | String a s' => f a && all_chars f s'
  end.

(** [s.isdigit()] on an ASCII text: at least one character, all of them
    digits. *)
Definition isdigit (s : string) : bool := truthy s && all_chars is_digit s.

(** [s.isascii()].  A text is held as the bytes of its UTF-8 encoding: on
    an ASCII text these are its characters, one each, and [strip],
    [isdigit], [int], [float], [len] and indexing are those of Python.
    Beyond ASCII they are not: Python strips U+00A0, takes U+0663 for a
    digit and measures in code points. *)
Definition is_ascii (a : ascii) : bool := nat_of_ascii a <? 128.
Definition isascii (s : string) : bool := all_chars is_ascii s.

(** [s.startswith(t)] and [s.endswith(t)]. *)
Definition startswith (t s : string) : bool := String.prefix t s.
Definition endswith (t s : string) : bool :=
  (String.length t <=? String.length s) &&
  String.eqb (drop (String.length s - String.length t) s) t.

(** [sep.join(l)]. *)
Definition join (sep : string) (l : list string) : string := String.concat sep l.

(** *** Numbers *)

(** A Python [float]: a finite value, kept exact, an infinity or a NaN. *)
Inductive pyfloat : Type :=
| FFinite (q : Q)
| FInf (negative : bool)
| FNan.

Definition digit_val (a : ascii) : N := N.of_nat (nat_of_ascii a - 48).

(** Reads a run of digits off the front of [s], single underscores
    between digits allowed once a digit was read: the value so far, the
    number of digits read and the text left over. *)
Fixpoint scan_digits (s : string) (started : bool) (acc : N) (cnt : nat)
    : N * nat * string :=
  match s with
  | EmptyString => (acc, cnt, s)
  | String a s' =>
      if is_digit a then scan_digits s' true (acc * 10 + digit_val a)%N (S cnt)
      else if started && Ascii.eqb a "_" then
        match s' with
        | String b _ => if is_digit b then scan_digits s' false acc cnt else (acc, cnt, s)
        | EmptyString => (acc, cnt, s)
        end
      else (acc, cnt, s)
  end.

(** An optional sign in front of [s]: whether it is a minus, and the rest. *)
Definition scan_sign (s : string) : bool * string :=
  match s with
  | String a s' =>
      if Ascii.eqb a "-" then (true, s')
      else if Ascii.eqb a "+" then (false, s')
      else (false, s)
  | EmptyString => (false, s)
  end.

(** [int(s)] for an ASCII [str]: blanks around, a sign, decimal digits. *)
Definition py_int (s : string) : result Z :=
  let (neg, body) := scan_sign (strip_by is_blank s) in
  match scan_digits body false 0%N 0 with
  | (v, S _, EmptyString) => Ok (if neg then (- Z.of_N v)%Z else Z.of_N v)
  | _ => Raise ValueError
  end.

Definition lower (a : ascii) : ascii :=
  let n := nat_of_ascii a in
  if (65 <=? n) && (n <=? 90) then ascii_of_nat (n + 32) else a.

Fixpoint lower_all (s : string) : string :=
  match s with
  | EmptyString => EmptyString
  | String a s' => String (lower a) (lower_all s')
  end.

(** An optional exponent [e[+-]digits] in front of [s]. *)
Definition scan_exponent (s : string) : option (Z * string) :=
  match s with
  | String a s' =>
      if Ascii.eqb (lower a) "e" then
        let (neg, body) := scan_sign s' in
        match scan_digits body false 0%N 0 with
        | (v, S _, rest) => Some (if neg then (- Z.of_N v)%Z else Z.of_N v, rest)
        | _ => None
        end
      else Some (0%Z, s)
  | EmptyString => Some (0%Z, s)
  end.

(** The magnitude of a decimal literal: [digits[.[digits]][exponent]] or
    [.digits[exponent]], all of [s]. *)
Definition scan_decimal (s : string) : option Q :=
  let '(ip, icnt, rest) := scan_digits s false 0%N 0 in
  let '(fp, fcnt, rest') :=
    match rest with
    | String a r => if Ascii.eqb a "." then scan_digits r false 0%N 0 else (0%N, 0, rest)
    | EmptyString => (0%N, 0, rest)
    end in
  match icnt + fcnt with
  | 0 => None
  | S _ =>
      match scan_exponent rest' with
      | Some (e, EmptyString) =>
          Some (inject_Z (Z.of_N ip * 10 ^ Z.of_nat fcnt + Z.of_N fp)
                * Qpower (inject_Z 10) (e - Z.of_nat fcnt))%Q
      | _ => None
      end
  end.

(** [float(s)] for an ASCII [str]. *)
Definition py_float (s : string) : result pyfloat :=
  let (neg, body) := scan_sign (strip_by is_blank s) in
  let word := lower_all body in
  if String.eqb word "inf" || String.eqb word "infinity" then Ok (FInf neg)
  else if String.eqb word "nan" then Ok FNan
  else match scan_decimal body with
       | Some q => Ok (FFinite (if neg then - q else q)%Q)
       | None => Raise ValueError
       end.

Definition fmul (f : pyfloat) (k : Q) : pyfloat :=
  match f with
  | FFinite q => FFinite (q * k)%Q
  | other => other
  end.

Definition fdiv (f : pyfloat) (k : Q) : pyfloat :=
  match f with
  | FFinite q => FFinite (q / k)%Q
  | other => other
  end.

(** [int(f)] for a [float]: truncation towards zero. *)
Definition int_of_float (f : pyfloat) : result Z :=
  match f with
  | FFinite q => Ok (Z.quot (Qnum q) (Zpos (Qden q)))
  | FInf _ => Raise OverflowError
  | FNan => Raise ValueError
  end.

(** [str(z)] for an [int]. *)
Definition str_of_int (z : Z) : string := NilZero.string_of_int (Z.to_int z).

(** The format [{z:02d}]: at least two characters, the sign among them. *)
Definition format_02d (z : Z) : string :=
  let s := str_of_int z in
  if String.length s <? 2 then "0" ++ s else s.

End Py.

Notation "'let!' x ':=' m 'in' k" := (Py.bind m (fun x => k))
  (at level 10, x name, m at level 100, k at level 200).

(** ** Geofence index *)

Module Geofence.
Import Py.

(** A boundary vertex [{'x': longitude, 'y': latitude}]. *)
Record point : Type := mkPoint { x : Q; y : Q }.

Definition Qltb (a b : Q) : bool := negb (Qle_bool b a).

(** The variables the loop of [point_in_polygon] carries from one edge to
    the next: the edge's first end point, the parity so far and [xinters],
    which Python leaves unbound until its first assignment. *)
Record pip_state : Type := mkState {
  p1x : Q;
  p1y : Q;
  inside : bool;
  xinters : option Q
}.

(** One iteration of the loop body, for the edge that ends in [p2]. *)
Definition pip_step (px py : Q) (st : pip_state) (p2 : point) : result pip_state :=
  let p2x := x p2 in
  let p2y := y p2 in
  if Qltb (Qmin (p1y st) p2y) py then
    if Qle_bool py (Qmax (p1y st) p2y) then
      if Qle_bool px (Qmax (p1x st) p2x) then
        let xi :=
          if negb (Qeq_bool (p1y st) p2y)
          then Some ((py - p1y st) * (p2x - p1x st) / (p2y - p1y st) + p1x st)%Q
          else xinters st in
        let! hit := (if Qeq_bool (p1x st) p2x then Ok true
                     else match xi with
                          | Some v => Ok (Qle_bool px v)
                          | None => Raise UnboundLocalError
                          end) in
        Ok (mkState p2x p2y (if hit then negb (inside st) else inside st) xi)
      else Ok (mkState p2x p2y (inside st) (xinters st))
    else Ok (mkState p2x p2y (inside st) (xinters st))
  else Ok (mkState p2x p2y (inside st) (xinters st)).

(** [for i in range(1, n + 1)] with [polygon_points[i % n]]. *)
Fixpoint pip_loop (px py : Q) (pts : list point) (d : point) (n : nat)
    (idxs : list nat) (st : pip_state) : result pip_state :=
  match idxs with
  | [] => Ok st
  | i :: idxs' =>
      let! st' := pip_step px py st (nth (i mod n) pts d) in
      pip_loop px py pts d n idxs' st'
  end.

Definition point_in_polygon (point_lat point_lon : Q) (polygon_points : list point)
    : result bool :=
  match polygon_points with
  | [] => Ok false
  | p0 :: _ =>
      if (length polygon_points <? 3)%nat then Ok false
      else
        let n := length polygon_points in
        let! st := pip_loop point_lon point_lat polygon_points p0 n (seq 1 n)
                     (mkState (x p0) (y p0) false None) in
        Ok (inside st)
  end.

(** A zone record: [zone.get('points')] and [zone.get('name', '')]. *)
Record zone : Type := mkZone {
  points : option (list point);
  name : option string
}.

(** [not v] for a coordinate that may be missing. *)
Definition falsy_coord (v : option Q) : bool :=
  match v with
  | None => true
  | Some q => Qeq_bool q 0
  end.

Fixpoint matching_zones (lat lon : Q) (zones : list (string * zone))
    : result (list string) :=
  match zones with
  | [] => Ok []
  | (_, z) :: zs =>
      match points z with
      | None | Some [] => matching_zones lat lon zs
      | Some pts =>
          let! hit := point_in_polygon lat lon pts in
          let! rest := matching_zones lat lon zs in
          if hit then
            match name z with
            | Some nm => if truthy nm then Ok (nm :: rest) else Ok rest
            | None => Ok rest
            end
          else Ok rest
      end
  end.

(** [zones_cache] is the zone table in the order [items()] yields it. *)
Definition get_zones_for_location (zones_cache : list (string * zone))
    (latitude longitude : option Q) : result string :=
  if falsy_coord latitude || falsy_coord longitude then Ok ""
  else
    match latitude, longitude with
    | Some lat, Some lon =>
        let! names := matching_zones lat lon zones_cache in
        Ok (join ", " names)
    | _, _ => Raise TypeError
    end.

(** The square of the spec's geofence test, and a zone around a point of
    the prime meridian. *)
Definition square : list point :=
  [mkPoint 0 0; mkPoint 0 10; mkPoint 10 10; mkPoint 10 0].

Definition meridian_zone : zone :=
  mkZone (Some [mkPoint (-10) (-10); mkPoint (-10) 10; mkPoint 10 10; mkPoint 10 (-10)])
         (Some "Depot").

(** The three vertices around the [i]-th corner of a polygon, in the order
    the loop visits them. *)
Definition corner (pts : list point) (d : point) (i : nat) : point * point * point :=
  let n := length pts in
  (nth (i mod n) pts d, nth ((i + 1) mod n) pts d, nth ((i + 2) mod n) pts d).

End Geofence.

(** ** Telemetry window cache: latest reading per device *)

Module Telemetry.
Import Py.

(** The ['device'] entry of a record: missing, an object that may hold an
    ['id'], or a bare id string. *)
Inductive device_ref : Type :=
| DeviceAbsent
| DeviceObj (id : option string)
| DeviceBare (s : string).

(** A [StatusData] reading. *)
Record status_data : Type := mkStatus {
  sd_device : device_ref;
  sd_dateTime : option string;
  sd_data : Q
}.

(** [data.get('device', {}).get('id', '')]: a [str] has no [get]. *)
Definition device_id_of (data : status_data) : result string :=
  match sd_device data with
  | DeviceAbsent => Ok ""
  | DeviceObj None => Ok ""
  | DeviceObj (Some i) => Ok i
  | DeviceBare _ => Raise AttributeError
  end.

(** [data.get('dateTime', '')]. *)
Definition date_of (data : status_data) : string :=
  match sd_dateTime data with
  | Some t => t
  | None => ""
  end.

(** The body of [for data in odometer_data]. *)
Definition latest_step (cache : gmap string status_data) (data : status_data)
    : result (gmap string status_data) :=
  let! device_id := device_id_of data in
  if truthy device_id then
    match cache !! device_id with
    | None => Ok (<[device_id := data]> cache)
    | Some kept =>
        if String.ltb (date_of kept) (date_of data)
        then Ok (<[device_id := data]> cache)
        else Ok cache
    end
  else Ok cache.

Fixpoint latest_readings (batch : list status_data) (cache : gmap string status_data)
    : result (gmap string status_data) :=
  match batch with
  | [] => Ok cache
  | data :: rest =>
      let! cache' := latest_step cache data in
      latest_readings rest cache'
  end.

(** The two reductions of [cache_batch_data], on the caches [__init__]
    left empty: odometer first, engine hours second. *)
Definition cache_batch_data (odometer_data engine_hours_data : list status_data)
    : result (gmap string status_data * gmap string status_data) :=
  let! odometer_data_cache := latest_readings odometer_data ∅ in
  let! engine_hours_data_cache := latest_readings engine_hours_data ∅ in
  Ok (odometer_data_cache, engine_hours_data_cache).

(** The readings of a batch that belong to device [d]. *)
Definition reading_of (d : string) (batch : list status_data) (r : status_data) : Prop :=
  In r batch /\ device_id_of r = Ok d.

(** [r] is a reading of [d] in the batch and no reading of [d] in the
    batch has a greater timestamp. *)
Definition latest_of (d : string) (batch : list status_data) (r : status_data) : Prop :=
  reading_of d batch r /\
  forall r', reading_of d batch r' -> String.leb (date_of r') (date_of r) = true.


(** A reading of device X at time [t]. *)
Definition reading_X (t : string) (v : Q) : status_data :=
  mkStatus (DeviceObj (Some "X")) (Some t) v.

End Telemetry.

(** ** Report formatting: durations and timestamps *)

Module Format.
Import Py.

(** What [format_duration] is called with: [None], a millisecond count, a
    text, or an object with [hour], [minute] and [second] (a
    [datetime.time]). *)
Inductive duration_input : Type :=
| DNone
| DInt (ms : Z)
| DStr (s : string)
| DTime (hour minute second : nat).

(** [not duration_input]: [None], [0] and [''] are falsy, a time is not. *)
Definition duration_falsy (d : duration_input) : bool :=
  match d with
  | DNone => true
  | DInt z => (z =? 0)%Z
  | DStr s => negb (truthy s)
  | DTime _ _ _ => false
  end.

(** [str(duration_input)] for the inputs that reach it. *)
Definition duration_str_of (d : duration_input) : string :=
  match d with
  | DInt z => str_of_int z
  | DStr s => s
  | _ => ""
  end.

(** Whether the input, when it is a text, is an ASCII one. *)
Definition ascii_input (d : duration_input) : bool :=
  match d with
  | DStr s => isascii s
  | _ => true
  end.

(** The double and the single quote, which the second [strip] removes. *)
Definition quote_chars : string :=
  String (ascii_of_nat 34) (String (ascii_of_nat 39) EmptyString).

(** The f-string [{hours:02d}:{minutes:02d}:{seconds:02d}] of a number of seconds;
    [//] and [%] round towards minus infinity, as [Z.div] and [Z.modulo]
    do for a positive divisor. *)
Definition hh_mm_ss (total_seconds : Z) : string :=
  let hours := (total_seconds / 3600)%Z in
  let minutes := ((total_seconds mod 3600) / 60)%Z in
  let seconds := (total_seconds mod 60)%Z in
  format_02d hours ++ ":" ++ format_02d minutes ++ ":" ++ format_02d seconds.

(** The day count in front of the clock: [(total_seconds, duration_str)]
    after the block [if '.' in duration_str and ':' in duration_str]. *)
Definition split_days (duration_str : string) : result (Z * string) :=
  if contains "." duration_str && contains ":" duration_str then
    let first_colon := default 0 (find ":" duration_str) in
    match rfind "." duration_str first_colon with
    | Some dot_before_colon =>
        let days_part := take dot_before_colon duration_str in
        let time_part := drop (dot_before_colon + 1) duration_str in
        match py_float days_part with
        | Raise ValueError => Ok (0%Z, duration_str)
        | Raise e => Raise e
        | Ok days =>
            match int_of_float (fmul (fmul days 24) 3600) with
            | Raise ValueError => Ok (0%Z, duration_str)
            | Raise e => Raise e
            | Ok secs => Ok (secs, time_part)
            end
        end
    | None => Ok (0%Z, duration_str)
    end
  else Ok (0%Z, duration_str).

(** The clock: what [if ':' in duration_str] adds to [total_seconds]. *)
Definition clock_seconds (duration_str : string) : result Z :=
  if contains ":" duration_str then
    match split ":" duration_str with
    | h :: m :: rest =>
        let! hours := py_int h in
        let! minutes := py_int m in
        match rest with
        | seconds_str :: _ =>
            let! f := py_float seconds_str in
            let! seconds := int_of_float f in
            Ok (hours * 3600 + minutes * 60 + seconds)%Z
        | [] => Ok (hours * 3600 + minutes * 60)%Z
        end
    | _ => Ok 0%Z
    end
  else Ok 0%Z.

(** The body of the [try] block of [format_duration]. *)
Definition format_duration_body (duration_input : duration_input) : result string :=
  if duration_falsy duration_input then Ok ""
  else
    match duration_input with
    | DTime hour minute second =>
        Ok (format_02d (Z.of_nat hour) ++ ":" ++ format_02d (Z.of_nat minute) ++ ":"
            ++ format_02d (Z.of_nat second))
    | _ =>
        let duration_str := strip (duration_str_of duration_input) in
        if isdigit (remove "." duration_str) then
          let! f := py_float duration_str in
          let! total_seconds := int_of_float (fdiv f 1000) in
          Ok (hh_mm_ss total_seconds)
        else
          let duration_str := strip_chars quote_chars duration_str in
          let! days := split_days duration_str in
          let! clock := clock_seconds (snd days) in
          Ok (hh_mm_ss (fst days + clock))
    end.

(** [format_duration]: [except Exception] logs and returns ['']. *)
Definition format_duration (duration_input : duration_input) : string :=
  match format_duration_body duration_input with
  | Ok s => s
  | Raise _ => ""
  end.

(** *** Timestamps

    [datetime.fromisoformat], [pytz] and [strftime] are library code: the
    embedding takes them as parameters, each free to raise. *)
Section Timestamps.
Variable datetime : Type.
Variable fromisoformat : string -> result datetime.
Variable tzinfo_is_none : datetime -> bool.
Variable utc_localize : datetime -> result datetime.
Variable astimezone_eastern : datetime -> result datetime.
Variable strftime : datetime -> string -> result string.

(** What [format_datetime] is called with: [None], a text or a
    [datetime] object. *)
Inductive dt_input : Type :=
| TNone
| TStr (s : string)
| TDatetime (dt : datetime).

Definition dt_falsy (i : dt_input) : bool :=
  match i with
  | TNone => true
  | TStr s => negb (truthy s)
  | TDatetime _ => false
  end.

(** The text handed to [fromisoformat]: a final [Z] becomes [+00:00],
    and a text with a [T], no [+] and no [-] among its last six
    characters gets [+00:00] appended. *)
Definition utc_suffixed (dt_str : string) : string :=
  if endswith "Z" dt_str then take (String.length dt_str - 1) dt_str ++ "+00:00"
  else if negb (endswith "+00:00" dt_str) && contains "T" dt_str
          && negb (contains "+" dt_str)
          && negb (contains "-" (drop (String.length dt_str - 6) dt_str))
  then dt_str ++ "+00:00"
  else dt_str.

(** The body of the [try] block of [format_datetime]. *)
Definition format_datetime_body (i : dt_input) : result (string * string) :=
  if dt_falsy i then Ok ("", "")
  else
    let! dt := match i with
               | TDatetime dt => Ok dt
               | TStr s => fromisoformat (utc_suffixed s)
               | TNone => fromisoformat (utc_suffixed "None")
               end in
    let! dt := (if tzinfo_is_none dt then utc_localize dt else Ok dt) in
    let! dt_eastern := astimezone_eastern dt in
    let! date_str := strftime dt_eastern "%m/%d/%Y" in
    let! time_str := strftime dt_eastern "%I:%M:%S %p" in
    Ok (date_str, time_str).

(** [format_datetime]: [except Exception] logs and returns [('', '')]. *)
Definition format_datetime (i : dt_input) : string * string :=
  match format_datetime_body i with
  | Ok r => r
  | Raise _ => ("", "")
  end.
End Timestamps.

Arguments TNone {datetime}.
Arguments TStr {datetime} s.
Arguments TDatetime {datetime} dt.

(** A stand-in for the library: instants are seconds since the epoch, and
    one text is known to [fromisoformat]. *)
Definition toy_fromisoformat (s : string) : result Z :=
  if String.eqb s "1970-01-01T05:00:00+00:00" then Ok 18000%Z else Raise ValueError.

Definition toy_strftime (t : Z) (fmt : string) : result string :=
  if String.eqb fmt "%m/%d/%Y" then Ok "01/01/1970" else Ok "12:00:00 AM".

End Format.

(** ** Reconciliation engine *)

Module Reconcile.
Import Py.

(** [x in l] for a list of strings. *)
Definition mem (x : string) (l : list string) : bool := existsb (String.eqb x) l.

(** *** Managed scope *)

(** A [Group] record: its name and [group.get('children', [])], each child
    an object read through [child.get('id')]. *)
Record group : Type := mkGroup {
  g_name : option string;
  g_children : list (option string)
}.

(** [groups.get(group_id, {}).get('children', [])]. *)
Definition children_of (groups : gmap string group) (group_id : string)
    : list (option string) :=
  match groups !! group_id with
  | Some g => g_children g
  | None => []
  end.

(** The loop [for child in children], the recursive call being [rec]. *)
Fixpoint visit_children (rec : string -> list string -> option (list string))
    (children : list (option string)) (groups_change : list string)
    : option (list string) :=
  match children with
  | [] => Some groups_change
  | child :: rest =>
      match child with
      | Some child_id =>
          if truthy child_id then
            match rec child_id (groups_change ++ [child_id])%list with
            | Some groups_change' => visit_children rec rest groups_change'
            | None => None
            end
          else visit_children rec rest groups_change
      | None => visit_children rec rest groups_change
      end
  end.

(** [get_groups_change]: the recursion of the source, which tracks no
    visited ids, run to a depth of at most [depth] nested calls.  [None]
    says the depth did not suffice; a call that needs more than any depth is
    the unbounded recursion CPython ends with [RecursionError]. *)
Fixpoint get_groups_change (depth : nat) (groups : gmap string group)
    (group_id : string) (groups_change : list string) : option (list string) :=
  match depth with
  | 0 => None
  | S depth' =>
      visit_children (get_groups_change depth' groups)
        (children_of groups group_id) groups_change
  end.

(** [self.groups_change]: the configured roots of the managed scope. *)
Definition groups_change_roots : list string := ["b2867"; "b27D4"].

(** The loop that builds [changeable_groups] from the roots. *)
Fixpoint changeable_from (depth : nat) (groups : gmap string group)
    (roots : list string) (changeable_groups : list string) : option (list string) :=
  match roots with
  | [] => Some changeable_groups
  | group_id :: rest =>
      match get_groups_change depth groups group_id changeable_groups with
      | Some changeable_groups' => changeable_from depth groups rest changeable_groups'
      | None => None
      end
  end.

(** [c] is a child of [p] that the traversal follows: listed among the
    children of [p] with a non-empty id. *)
Definition child_of (groups : gmap string group) (p c : string) : Prop :=
  In (Some c) (children_of groups p) /\ c <> "".

(** No group that can be reached from [root] lies on a cycle. *)
Definition cycle_free_from (groups : gmap string group) (root : string) : Prop :=
  forall x, rtc (child_of groups) root x -> ~ tc (child_of groups) x x.

(** [y] reaches a group that lies on a cycle. *)
Definition reaches_cycle (groups : gmap string group) (y : string) : Prop :=
  exists x, rtc (child_of groups) y x /\ tc (child_of groups) x x.

(** The children relation of the table has no cycle. *)
Definition acyclic (groups : gmap string group) : Prop :=
  forall x, ~ tc (child_of groups) x x.

(** A group that is its own child; the chain b2867 > b2868 > b2869; the
    family of the spec's closure test. *)
Definition looped : gmap string group :=
  {[ "a" := mkGroup (Some "Loop") [Some "a"] ]}.

Definition chain : gmap string group :=
  <[ "b2867" := mkGroup (Some "Fleet") [Some "b2868"] ]>
  (<[ "b2868" := mkGroup (Some "North") [Some "b2869"] ]>
   {[ "b2869" := mkGroup (Some "Depot 4") [] ]}).

Definition family : gmap string group :=
  <[ "R" := mkGroup None [Some "A"; Some "B"] ]>
  (<[ "A" := mkGroup None [Some "C"] ]>
   (<[ "B" := mkGroup None [] ]>
    {[ "C" := mkGroup None [] ]})).

(** *** Roster parsing *)

(** A parsed roster row. *)
Record roster_update : Type := mkUpdate {
  u_serial : string;
  u_id : string;
  u_vin : string;
  u_name : string;
  u_groups : list string
}.

(** The local roster file as [parse_csv_updates] finds it: not there, there
    but failing to open or decode, or read into its lines by [readlines]. *)
Inductive roster_file : Type :=
| FileMissing
| FileUnreadable
| FileLines (lines : list string).

(** What the parser logs with [logging.warning]. *)
Inductive parse_warning : Type :=
| NoFile
| EmptyFile
| InvalidFormat (line_num : nat) (columns : nat).

Definition CR : ascii := ascii_of_nat 13.
Definition LF : ascii := ascii_of_nat 10.

(** [line.strip().replace(CR, '').replace(LF, '').split(',')]. *)
Definition tokens_of (line : string) : list string :=
  split "," (remove LF (remove CR (strip line))).

(** The group list of the fifth field: split at the bars, blanks stripped,
    empty entries dropped. *)
Definition groups_of_field (field : string) : list string :=
  filter (fun g => truthy g) (map strip (split "|" field)).

(** The body of the loop over the lines: a row of five fields, or the
    number of fields found instead. *)
Definition parse_line (line : string) : roster_update + nat :=
  match tokens_of line with
  | [t0; t1; t2; t3; t4] =>
      inl (mkUpdate (strip t0) (strip t1) (strip t2) (strip t3) (groups_of_field t4))
  | tokens => inr (length tokens)
  end.

(** [for line_num, line in enumerate(lines, line_num)]: the rows parsed and
    the warnings logged, both in file order. *)
Fixpoint parse_lines (line_num : nat) (lines : list string)
    : list roster_update * list parse_warning :=
  match lines with
  | [] => ([], [])
  | line :: rest =>
      let (updates, warnings) := parse_lines (S line_num) rest in
      match parse_line line with
      | inl update => (update :: updates, warnings)
      | inr columns => (updates, InvalidFormat line_num columns :: warnings)
      end
  end.

(** The header test on the stripped first line: longer than 12 characters
    and not a serial number, which starts with G and ends before a comma at
    index 12.  On an ASCII line the length and the index are those of [len]
    and [first_line[12]]. *)
Definition is_header (first_line : string) : bool :=
  (12 <? String.length first_line) &&
  (negb (startswith "G" first_line) ||
   negb (match String.get 12 first_line with
         | Some c => Ascii.eqb c ","
         | None => false
         end)).

(** The lines that are parsed as rows: all but a detected header. *)
Definition data_lines (lines : list string) : list string :=
  match lines with
  | [] => []
  | first :: rest => if is_header (strip first) then rest else lines
  end.

Definition parse_csv_updates (file : roster_file)
    : list roster_update * list parse_warning :=
  match file with
  | FileMissing => ([], [NoFile])
  | FileUnreadable => ([], [])
  | FileLines [] => ([], [EmptyFile])
  | FileLines lines => parse_lines 1 (data_lines lines)
  end.

(** A line is well-formed when it splits into five fields. *)
Definition well_formed (line : string) : Prop := length (tokens_of line) = 5.

(** A roster with a header, two rows and two malformed lines. *)
Definition sample_roster : list string :=
  [ "Serial Number,Id,VIN,Name,Groups" ++ String LF EmptyString;
    "G9AAAAAAAAAA,17,1HGCM82633A004352,Truck 7,b2868|b2869" ++ String LF EmptyString;
    "G9BBBBBBBBBB,18,Truck 8" ++ String LF EmptyString;
    String LF EmptyString;
    "G9CCCCCCCCCC,19,1FTFW1ET5DFC10312,,b2868" ++ String LF EmptyString ].

(** *** Device reconciliation *)

(** An entry of a device's ['groups']: an object with an ['id'], or a bare
    id string. *)
Inductive group_ref : Type :=
| GroupObj (id : string)
| GroupBare (s : string).

(** A [Device] record of the registry. *)
Record device : Type := mkDevice {
  d_serialNumber : string;
  d_engineVehicleIdentificationNumber : option string;
  d_name : string;
  d_vehicleIdentificationNumber : option string;
  d_groups : option (list group_ref)
}.

(** [m.get(key, '')] on a field that may be missing. *)
Definition get_or_empty (field : option string) : string :=
  match field with
  | Some v => v
  | None => ""
  end.

(** [updated_device.get('groups', [])]. *)
Definition groups_or_empty (d : device) : list group_ref :=
  match d_groups d with
  | Some gs => gs
  | None => []
  end.

(** The search for the device whose serial number and engine VIN are the
    row's: the first one found. *)
Definition find_matching_device (devices : list device) (update : roster_update)
    : option device :=
  List.find (fun d =>
          String.eqb (d_serialNumber d) (u_serial update) &&
          String.eqb (get_or_empty (d_engineVehicleIdentificationNumber d)) (u_vin update))
       devices.

(** [[g['id'] for g in groups]]: a bare string cannot be indexed by ['id']. *)
Fixpoint group_ids (gs : list group_ref) : result (list string) :=
  match gs with
  | [] => Ok []
  | GroupObj i :: rest => let! ids := group_ids rest in Ok (i :: ids)
  | GroupBare _ :: _ => Raise TypeError
  end.

(** The loop that keeps the groups outside the managed scope. *)
Fixpoint keep_unmanaged (changeable_groups : list string) (gs : list group_ref)
    : list string :=
  match gs with
  | [] => []
  | GroupObj i :: rest =>
      if negb (mem i changeable_groups) then i :: keep_unmanaged changeable_groups rest
      else keep_unmanaged changeable_groups rest
  | GroupBare _ :: rest => keep_unmanaged changeable_groups rest
  end.

(** The loop over the requested ids: [new_group_ids] and [group_changes]
    as it leaves them. *)
Fixpoint add_requested (changeable_groups current_group_ids : list string)
    (update_group_ids : list string) (new_group_ids group_changes : list string)
    : list string * list string :=
  match update_group_ids with
  | [] => (new_group_ids, group_changes)
  | group_id :: rest =>
      if mem group_id changeable_groups && negb (mem group_id new_group_ids) then
        add_requested changeable_groups current_group_ids rest
          (new_group_ids ++ [group_id])%list
          (if negb (mem group_id current_group_ids)
           then (group_changes ++ [group_id])%list else group_changes)
      else add_requested changeable_groups current_group_ids rest
             new_group_ids group_changes
  end.

(** [update['name'] if update['name'] else update['serial']]. *)
Definition row_name (update : roster_update) : string :=
  if truthy (u_name update) then u_name update else u_serial update.

(** The diff of one matched device against its row: [needs_update] and
    [updated_device]. *)
Definition diff_device (changeable_groups : list string) (matching_device : device)
    (update : roster_update) : result (bool * device) :=
  let new_name := row_name update in
  let name_differs := negb (String.eqb (d_name matching_device) new_name) in
  let vin_differs :=
    negb (String.eqb (get_or_empty (d_vehicleIdentificationNumber matching_device))
            (u_vin update)) in
  let! current_group_ids := group_ids (groups_or_empty matching_device) in
  let kept := keep_unmanaged changeable_groups (groups_or_empty matching_device) in
  let (new_group_ids, group_changes) :=
    add_requested changeable_groups current_group_ids (u_groups update) kept [] in
  let group_added := match group_changes with [] => false | _ :: _ => true end in
  Ok (name_differs || vin_differs || group_added,
      mkDevice (d_serialNumber matching_device)
        (d_engineVehicleIdentificationNumber matching_device)
        (if name_differs then new_name else d_name matching_device)
        (if vin_differs then Some (u_vin update)
         else d_vehicleIdentificationNumber matching_device)
        (Some (map GroupObj new_group_ids))).

(** What the pass does with one row. *)
Inductive verdict : Type :=
| NoMatch
| Failed (e : exn)
| UpToDate (updated_device : device)
| Queued (updated_device matching_device : device).

Definition process_update (changeable_groups : list string) (devices : list device)
    (update : roster_update) : verdict :=
  match find_matching_device devices update with
  | None => NoMatch
  | Some matching_device =>
      match diff_device changeable_groups matching_device update with
      | Raise e => Failed e
      | Ok (true, updated_device) => Queued updated_device matching_device
      | Ok (false, updated_device) => UpToDate updated_device
      end
  end.

(** The entities of [api_calls], in row order. *)
Fixpoint api_calls (changeable_groups : list string) (devices : list device)
    (updates : list roster_update) : list device :=
  match updates with
  | [] => []
  | update :: rest =>
      match process_update changeable_groups devices update with
      | Queued updated_device _ =>
          updated_device :: api_calls changeable_groups devices rest
      | _ => api_calls changeable_groups devices rest
      end
  end.

(** [sync_vehicles_with_geotab]: the entities of the one batched call, the
    closure of the managed scope run to [depth]; [None] when that depth does
    not suffice, where the source ends in its outer [except] and sends
    nothing. *)
Definition sync_vehicles_with_geotab (depth : nat) (devices : list device)
    (groups_dict : gmap string group) (updates : list roster_update)
    : option (list device) :=
  match updates with
  | [] => Some []
  | _ :: _ =>
      match changeable_from depth groups_dict groups_change_roots [] with
      | Some changeable_groups => Some (api_calls changeable_groups devices updates)
      | None => None
      end
  end.

(** The group ids of a device, as a set: the ids its entries name. *)
Definition in_groups (d : device) (g : string) : Prop :=
  In (GroupObj g) (groups_or_empty d).

(** A registry of one truck, in the managed group b2868 and in the group
    b1234 outside the managed scope, and rows for it. *)
Definition truck7 : device :=
  mkDevice "G9AAAAAAAAAA" (Some "1HGCM82633A004352") "Truck 7"
    (Some "1HGCM82633A004352") (Some [GroupObj "b1234"; GroupObj "b2868"]).

Definition row_dropping_scope : roster_update :=
  mkUpdate "G9AAAAAAAAAA" "17" "1HGCM82633A004352" "Truck 7" [].

Definition row_naming_outside : roster_update :=
  mkUpdate "G9AAAAAAAAAA" "17" "1HGCM82633A004352" "Truck 7" ["b1234"; "b2869"].

(** A height for the groups of [family]: every child lies below its parent. *)
Definition family_rank (g : string) : nat :=
  if String.eqb g "R" then 2 else if String.eqb g "A" then 1 else 0.

End Reconcile.

(** ** Further definitions

    The functions below are those the report builders and the sync call
    besides the ones above, and the notions their properties are stated
    with. *)

Module GeofenceSpec.
Import Geofence.

(** An edge whose end points both lie on the far side of one of the three
    guards of the loop body leaves the parity alone. *)
Definition blocked (px py : Q) (a b : point) : Prop :=
  (py <= Qmin (y a) (y b))%Q \/ (Qmax (y a) (y b) < py)%Q \/ (Qmax (x a) (x b) < px)%Q.

End GeofenceSpec.

(** ** Derived queries of the telemetry window cache *)

Module Queries.
Import Py Telemetry.

(** [record.get('device', {}).get('id', '')] on a reference: a [str] has
    no [get]. *)
Definition ref_id (r : device_ref) : result string :=
  match r with
  | DeviceAbsent => Ok ""
  | DeviceObj None => Ok ""
  | DeviceObj (Some i) => Ok i
  | DeviceBare _ => Raise AttributeError
  end.

(** [record.get('device', {}).get('id')]: no default, so possibly [None]. *)
Definition ref_id_opt (r : device_ref) : result (option string) :=
  match r with
  | DeviceAbsent => Ok None
  | DeviceObj o => Ok o
  | DeviceBare _ => Raise AttributeError
  end.

(** The id of a reference where the code accepts both forms: the string
    itself, or the ['id'] of the object, [''] when there is none. *)
Definition loose_id (r : device_ref) : string :=
  match r with
  | DeviceBare s => s
  | DeviceObj (Some i) => i
  | _ => ""
  end.

(** [l.sort(key=key, reverse=reverse)] compares keys that are texts.  The
    sort of Python is stable, also when reversed, and the stable sort of a
    list is unique: an insertion sort that puts an element in front of the
    first one it may precede gives that list. *)
Definition key_before (reverse : bool) (kx ky : string) : bool :=
  if reverse then String.leb ky kx else String.leb kx ky.

Fixpoint insert_stable {A : Type} (key : A -> string) (reverse : bool)
    (x : A) (sorted : list A) : list A :=
  match sorted with
  | [] => [x]
  | y :: rest =>
      if key_before reverse (key x) (key y) then x :: sorted
      else y :: insert_stable key reverse x rest
  end.

Definition py_sort {A : Type} (key : A -> string) (reverse : bool) (l : list A) : list A :=
  fold_right (insert_stable key reverse) [] l.

(** A [Trip] record, as far as the queries read it. *)
Record trip : Type := mkTrip {
  trip_device : device_ref;
  trip_start : option string;
  trip_stop : option string
}.

(** [x.get('stop', '')]. *)
Definition stop_of (t : trip) : string :=
  match trip_stop t with
  | Some v => v
  | None => ""
  end.

(** The comprehension [[trip for trip in self.trips_cache if ... == device_id]]. *)
Fixpoint trips_of (device_id : string) (trips_cache : list trip) : result (list trip) :=
  match trips_cache with
  | [] => Ok []
  | t :: rest =>
      let! i := ref_id (trip_device t) in
      let! others := trips_of device_id rest in
      Ok (if String.eqb i device_id then t :: others else others)
  end.

(** [get_most_recent_trip_from_cache]; [None] is the empty dict. *)
Definition get_most_recent_trip_from_cache (trips_cache : list trip) (device_id : string)
    : result (option trip) :=
  let! device_trips := trips_of device_id trips_cache in
  Ok (hd_error (py_sort stop_of true device_trips)).

(** A [LogRecord]. *)
Record log_record : Type := mkLog {
  log_device : device_ref;
  log_dateTime : option string;
  log_longitude : option Q;
  log_latitude : option Q
}.

Definition log_time (l : log_record) : string :=
  match log_dateTime l with
  | Some v => v
  | None => ""
  end.

(** The comprehension of [generate_exceptions_report]: the log records of
    the device at or after the exception. *)
Fixpoint matching_logs (device_id exception_time : string)
    (log_records_cache : list log_record) : result (list log_record) :=
  match log_records_cache with
  | [] => Ok []
  | l :: rest =>
      let! i := ref_id_opt (log_device l) in
      let! others := matching_logs device_id exception_time rest in
      Ok (if match i with
             | Some v => String.eqb v device_id
             | None => false
             end && String.leb exception_time (log_time l)
          then l :: others else others)
  end.

(** [first_record] of [generate_exceptions_report], when there is one. *)
Definition first_record (log_records_cache : list log_record)
    (device_id exception_time : string) : result (option log_record) :=
  let! logs := matching_logs device_id exception_time log_records_cache in
  Ok (hd_error (py_sort log_time false logs)).

(** A [DeviceStatusInfo] snapshot, as far as the driver lookup reads it. *)
Record status_info : Type := mkStatusInfo {
  st_device : device_ref;
  st_driver : device_ref
}.

Fixpoint get_driver_from_device_status (device_status_info_cache : list status_info)
    (device_id : string) : string :=
  match device_status_info_cache with
  | [] => ""
  | status :: rest =>
      if String.eqb (loose_id (st_device status)) device_id
      then loose_id (st_driver status)
      else get_driver_from_device_status rest device_id
  end.

(** [get_current_engine_hours]: the value of the cached reading, [0]
    without one. *)
Definition get_current_engine_hours (engine_hours_data_cache : gmap string status_data)
    (device_id : string) : Q :=
  match engine_hours_data_cache !! device_id with
  | Some data => sd_data data
  | None => 0
  end.

(** Trips and log records of two devices, two of the trips of b1 ending at
    the same time. *)
Definition sample_trips : list trip :=
  [mkTrip (DeviceObj (Some "b2")) None (Some "2024-05-01T10:50:00Z");
   mkTrip (DeviceObj (Some "b1")) (Some "first") (Some "2024-05-01T10:40:00Z");
   mkTrip (DeviceObj (Some "b1")) None (Some "2024-05-01T10:10:00Z");
   mkTrip (DeviceObj (Some "b1")) (Some "second") (Some "2024-05-01T10:40:00Z")].

Definition sample_logs : list log_record :=
  [mkLog (DeviceObj (Some "b1")) (Some "2024-05-01T10:05:00Z") (Some 1%Q) (Some 1%Q);
   mkLog (DeviceObj (Some "b1")) (Some "2024-05-01T10:30:00Z") (Some 2%Q) (Some 2%Q);
   mkLog (DeviceObj None) (Some "2024-05-01T10:21:00Z") (Some 3%Q) (Some 3%Q);
   mkLog (DeviceObj (Some "b1")) (Some "2024-05-01T10:25:00Z") (Some 4%Q) (Some 4%Q)].

End Queries.

(** ** Decimal digits *)

Module Digits.
Import Py.

(** The number a run of decimal digits denotes after the digits read so
    far denote [acc]. *)
Fixpoint uint_acc (d : Decimal.uint) (acc : N) : N :=
  match d with
  | Decimal.Nil => acc
  | Decimal.D0 d' => uint_acc d' (acc * 10 + 0)
  | Decimal.D1 d' => uint_acc d' (acc * 10 + 1)
  | Decimal.D2 d' => uint_acc d' (acc * 10 + 2)
  | Decimal.D3 d' => uint_acc d' (acc * 10 + 3)
  | Decimal.D4 d' => uint_acc d' (acc * 10 + 4)
  | Decimal.D5 d' => uint_acc d' (acc * 10 + 5)
  | Decimal.D6 d' => uint_acc d' (acc * 10 + 6)
  | Decimal.D7 d' => uint_acc d' (acc * 10 + 7)
  | Decimal.D8 d' => uint_acc d' (acc * 10 + 8)
  | Decimal.D9 d' => uint_acc d' (acc * 10 + 9)
  end%N.

(** The characters of a formatted clock: digits, the colon and the minus. *)
Definition clock_char (a : ascii) : bool :=
  is_digit a || Ascii.eqb a ":" || Ascii.eqb a "-".

(** The characters of a signed number: digits and the minus. *)
Definition number_char (a : ascii) : bool := is_digit a || Ascii.eqb a "-".

(** The value [float] reads off a run of digits that denotes [v]. *)
Definition read_back (v : N) : Q :=
  (inject_Z (Z.of_N v * 10 ^ Z.of_nat 0 + Z.of_N 0) * Qpower (inject_Z 10) (0 - Z.of_nat 0))%Q.

End Digits.

(** ** The roster format the parser reads *)

Module RosterSpec.
Import Py Reconcile.

(** A row written as a line of the roster: five fields between commas, the
    group ids between bars. *)
Definition render_row (u : roster_update) : string :=
  u_serial u ++ "," ++ u_id u ++ "," ++ u_vin u ++ "," ++ u_name u ++ ","
  ++ join "|" (u_groups u).

(** The characters a field may hold: no comma and no line break; a group
    id holds no bar either. *)
Definition field_char (a : ascii) : bool :=
  negb (Ascii.eqb a "," || Ascii.eqb a CR || Ascii.eqb a LF).

Definition group_char (a : ascii) : bool := field_char a && negb (Ascii.eqb a "|").

(** A field without blanks around it; a group id is not empty either. *)
Definition plain_field (s : string) : Prop :=
  all_chars field_char s = true /\ strip s = s.

Definition plain_group (g : string) : Prop :=
  all_chars group_char g = true /\ strip g = g /\ g <> "".

Definition plain_row (u : roster_update) : Prop :=
  plain_field (u_serial u) /\ plain_field (u_id u) /\ plain_field (u_vin u) /\
  plain_field (u_name u) /\ Forall plain_group (u_groups u).

(** Whether the lines read from the roster, if any, are ASCII texts. *)
Definition ascii_file (file : roster_file) : bool :=
  match file with
  | FileLines lines => forallb isascii lines
  | _ => true
  end.

(** [process_chevin_sync]: the download may fail, the parsed rows may be
    none; otherwise the rows go to the sync.  The result is the list of
    entities of the batched call, [None] when the sync does not get there. *)
Definition process_chevin_sync (depth : nat) (download_ok : bool) (file : roster_file)
    (devices : list device) (groups_dict : gmap string group) : option (list device) :=
  if download_ok then
    match fst (parse_csv_updates file) with
    | [] => Some []
    | updates => sync_vehicles_with_geotab depth devices groups_dict updates
    end
  else Some [].

End RosterSpec.

(** * Properties *)

(** ** Geofence index *)

Module GeofenceFacts.
Import Py Geofence.

Lemma Qltb_true (a b : Q) : Qltb a b = true <-> (a < b)%Q.
Proof.
  unfold Qltb. rewrite negb_true_iff. split.
  - intros H. apply Qnot_le_lt. intros Hle.
    apply Qle_bool_iff in Hle. congruence.
  - intros H. destruct (Qle_bool b a) eqn:E; [|reflexivity].
    apply Qle_bool_iff in E. exfalso. exact (Qlt_not_le _ _ H E).
Qed.

(** A horizontal edge never passes the two tests on [y]. *)
Lemma flat_edge_out_of_range (a b v : Q) :
  (a == b)%Q -> (Qmin a b < v)%Q -> (v <= Qmax a b)%Q -> False.
Proof.
  intros Hab Hlo Hhi.
  assert (Hmin : (Qmin a b == a)%Q) by (apply Q.min_l; rewrite Hab; apply Qle_refl).
  assert (Hmax : (Qmax a b == a)%Q) by (apply Q.max_l; rewrite Hab; apply Qle_refl).
  rewrite Hmin in Hlo. rewrite Hmax in Hhi.
  exact (Qlt_not_le _ _ Hlo Hhi).
Qed.

(** The loop body never reads [xinters] before it is assigned. *)
Lemma pip_step_ok (px py : Q) (st : pip_state) (p2 : point) :
  exists st', pip_step px py st p2 = Ok st'.
Proof.
  unfold pip_step.
  destruct (Qltb (Qmin (p1y st) (y p2)) py) eqn:Hlo; [|eauto].
  destruct (Qle_bool py (Qmax (p1y st) (y p2))) eqn:Hhi; [|eauto].
  destruct (Qle_bool px (Qmax (p1x st) (x p2))); [|eauto].
  destruct (Qeq_bool (p1y st) (y p2)) eqn:Heq; simpl.
  - exfalso. apply Qeq_bool_iff in Heq. apply Qltb_true in Hlo.
    apply Qle_bool_iff in Hhi. exact (flat_edge_out_of_range _ _ _ Heq Hlo Hhi).
  - destruct (Qeq_bool (p1x st) (x p2)); simpl; eauto.
Qed.

Lemma pip_loop_ok (px py : Q) (pts : list point) (d : point) (n : nat)
    (idxs : list nat) (st : pip_state) :
  exists st', pip_loop px py pts d n idxs st = Ok st'.
Proof.
  revert st. induction idxs as [|i idxs IH]; intros st; simpl; [eauto|].
  destruct (pip_step_ok px py st (nth (i mod n) pts d)) as [st1 ->]. simpl.
  apply IH.
Qed.

Lemma point_in_polygon_total (lat lon : Q) (pts : list point) :
  exists b, point_in_polygon lat lon pts = Ok b.
Proof.
  unfold point_in_polygon. destruct pts as [|p0 rest]; [eauto|].
  destruct (length (p0 :: rest) <? 3); [eauto|].
  destruct (pip_loop_ok lon lat (p0 :: rest) p0 (length (p0 :: rest))
              (seq 1 (length (p0 :: rest)))
              (mkState (x p0) (y p0) false None)) as [st ->].
  simpl. eauto.
Qed.

(** The tie-break of the loop body: an edge changes the parity only when
    [y] lies above the lower end point (strictly) and not above the upper
    one (inclusively). *)
Lemma pip_step_flip_range (px py : Q) (st st' : pip_state) (p2 : point) :
  pip_step px py st p2 = Ok st' ->
  inside st' = negb (inside st) ->
  (Qmin (p1y st) (y p2) < py)%Q /\ (py <= Qmax (p1y st) (y p2))%Q.
Proof.
  unfold pip_step. intros Hstep Hflip.
  destruct (Qltb (Qmin (p1y st) (y p2)) py) eqn:Hlo;
    [|inversion Hstep; subst; simpl in Hflip; destruct (inside st); discriminate].
  destruct (Qle_bool py (Qmax (p1y st) (y p2))) eqn:Hhi;
    [|inversion Hstep; subst; simpl in Hflip; destruct (inside st); discriminate].
  split; [apply Qltb_true; exact Hlo | apply Qle_bool_iff; exact Hhi].
Qed.

Lemma pip_step_next (px py : Q) (st st' : pip_state) (p2 : point) :
  pip_step px py st p2 = Ok st' -> p1x st' = x p2 /\ p1y st' = y p2.
Proof.
  unfold pip_step. intros H.
  repeat match type of H with
         | context [if ?c then _ else _] => destruct c; simpl in H
         | context [match ?c with Some _ => _ | None => _ end] => destruct c; simpl in H
         end; inversion H; subst; simpl; auto.
Qed.

(** Two edges that share a vertex, one of them horizontal, never both
    change the parity. *)
Lemma flat_neighbour_once (px py : Q) (st st' st'' : pip_state) (b c : point) :
  (p1y st == y b)%Q \/ (y b == y c)%Q ->
  pip_step px py st b = Ok st' ->
  pip_step px py st' c = Ok st'' ->
  inside st' = inside st \/ inside st'' = inside st'.
Proof.
  intros Hflat H1 H2.
  destruct (Bool.bool_dec (inside st') (inside st)) as [|Hne1]; [auto|].
  destruct (Bool.bool_dec (inside st'') (inside st')) as [|Hne2]; [auto|].
  exfalso.
  assert (F1 : inside st' = negb (inside st))
    by (destruct (inside st'), (inside st); simpl; congruence).
  assert (F2 : inside st'' = negb (inside st'))
    by (destruct (inside st''), (inside st'); simpl; congruence).
  destruct (pip_step_flip_range _ _ _ _ _ H1 F1) as [Lo1 Hi1].
  destruct (pip_step_flip_range _ _ _ _ _ H2 F2) as [Lo2 Hi2].
  destruct (pip_step_next _ _ _ _ _ H1) as [_ Ey]. rewrite Ey in Lo2, Hi2.
  destruct Hflat as [Hf|Hf].
  - exact (flat_edge_out_of_range _ _ _ Hf Lo1 Hi1).
  - exact (flat_edge_out_of_range _ _ _ Hf Lo2 Hi2).
Qed.

(** C6. On the square (0,0),(0,10),(10,10),(10,0) the ray-casting test
    puts (5,5) inside and (15,15) outside.  Its tie-break is a strict
    bound below and an inclusive bound above: an edge changes the parity
    only for a [y] with min < y <= max of the edge's end points.  So on the
    square, whatever the point (on a vertex, on an edge or elsewhere), the
    two edges that meet in a vertex never both count it; the vertex
    (10,10) and the edge point (10,5) are counted once and fall inside, the
    vertex (0,0) and the edge point (5,0) are never counted and fall
    outside. *)
Theorem square_geofence :
  point_in_polygon 5 5 square = Ok true /\
  point_in_polygon 15 15 square = Ok false /\
  (forall (px py : Q) (st st' : pip_state) (p2 : point),
      pip_step px py st p2 = Ok st' -> inside st' = negb (inside st) ->
      (Qmin (p1y st) (y p2) < py)%Q /\ (py <= Qmax (p1y st) (y p2))%Q) /\
  (forall (px py : Q) (i : nat) (a b c : point) (st st' st'' : pip_state),
      corner square (mkPoint 0 0) i = (a, b, c) ->
      p1x st = x a -> p1y st = y a ->
      pip_step px py st b = Ok st' ->
      pip_step px py st' c = Ok st'' ->
      inside st' = inside st \/ inside st'' = inside st') /\
  point_in_polygon 10 10 square = Ok true /\
  point_in_polygon 0 0 square = Ok false /\
  point_in_polygon 5 10 square = Ok true /\
  point_in_polygon 0 5 square = Ok false.
Proof.
  split; [vm_compute; reflexivity|]. split; [vm_compute; reflexivity|].
  split; [exact pip_step_flip_range|].
  split; [|repeat split; vm_compute; reflexivity].
  intros px py i a b c st st' st'' Hc Hx Hy H1 H2.
  apply (flat_neighbour_once px py st st' st'' b c); [|exact H1|exact H2].
  rewrite Hy. clear Hx Hy H1 H2. unfold corner in Hc.
  change (length square) with 4 in Hc.
  rewrite <- (Nat.Div0.add_mod_idemp_l i 1 4) in Hc.
  rewrite <- (Nat.Div0.add_mod_idemp_l i 2 4) in Hc.
  assert (Hlt : i mod 4 < 4) by (apply Nat.mod_upper_bound; discriminate).
  destruct (i mod 4) as [|[|[|[|k]]]]; [| | | |lia];
    inversion Hc; subst; simpl; [right|left|right|left]; reflexivity.
Qed.

Lemma square_geofence_witness :
  corner square (mkPoint 0 0) 1 = (mkPoint 0 10, mkPoint 10 10, mkPoint 10 0) /\
  pip_step 10 10 (mkState 0 10 false None) (mkPoint 10 10)
    = Ok (mkState 10 10 false None) /\
  pip_step 10 10 (mkState 10 10 false None) (mkPoint 10 0)
    = Ok (mkState 10 0 true (Some ((10 - 10) * (10 - 10) / (0 - 10) + 10)%Q)) /\
  (inside (mkState 10 10 false None) = inside (mkState 0 10 false None) \/
   inside (mkState 10 0 true (Some ((10 - 10) * (10 - 10) / (0 - 10) + 10)%Q))
     = inside (mkState 10 10 false None)).
Proof.
  split; [reflexivity|]. split; [reflexivity|]. split; [reflexivity|].
  apply (proj1 (proj2 (proj2 (proj2 square_geofence))) 10%Q 10%Q 1
           (mkPoint 0 10) (mkPoint 10 10) (mkPoint 10 0)
           (mkState 0 10 false None)); reflexivity.
Defined.

(** C10. A location whose latitude is 0 or whose longitude is 0 (either
    one alone) gets the empty zone list, whatever the zone table holds:
    the point (longitude 0, latitude 5) lies inside the zone
    [meridian_zone], which the polygon test confirms and which a point
    next to it is matched with, and still no zone is reported for it. *)
Theorem zero_coordinate_no_zone :
  (forall (zones_cache : list (string * zone)) (lat lon : Q),
      (lat == 0)%Q \/ (lon == 0)%Q ->
      get_zones_for_location zones_cache (Some lat) (Some lon) = Ok "") /\
  (points meridian_zone = Some [mkPoint (-10) (-10); mkPoint (-10) 10;
                                mkPoint 10 10; mkPoint 10 (-10)] /\
   point_in_polygon 5 0 [mkPoint (-10) (-10); mkPoint (-10) 10;
                         mkPoint 10 10; mkPoint 10 (-10)] = Ok true /\
   get_zones_for_location [("z1", meridian_zone)] (Some 5%Q) (Some (1 # 100)%Q) = Ok "Depot" /\
   get_zones_for_location [("z1", meridian_zone)] (Some 5%Q) (Some 0%Q) = Ok "" /\
   get_zones_for_location [("z1", meridian_zone)] (Some 0%Q) (Some 5%Q) = Ok "").
Proof.
  split; [|repeat split; vm_compute; reflexivity].
  intros zones_cache lat lon H. unfold get_zones_for_location, falsy_coord.
  destruct H as [H|H]; apply Qeq_bool_iff in H; rewrite H; simpl;
    [reflexivity|rewrite orb_true_r; reflexivity].
Qed.

Lemma zero_coordinate_no_zone_witness :
  ((5 == 0)%Q \/ (0 == 0)%Q) /\
  get_zones_for_location [("z1", meridian_zone)] (Some 5%Q) (Some 0%Q) = Ok "".
Proof.
  split; [right; reflexivity|].
  apply (proj1 zero_coordinate_no_zone). right. reflexivity.
Defined.

End GeofenceFacts.

(** ** Telemetry window cache *)

Module TelemetryFacts.
Import Py Telemetry.

Lemma leb_trans (a b c : string) :
  String.leb a b = true -> String.leb b c = true -> String.leb a c = true.
Proof.
  intros H1 H2. apply Is_true_true.
  change (String.le a c). transitivity b; apply Is_true_true; assumption.
Qed.

Lemma leb_refl (a : string) : String.leb a a = true.
Proof. apply Is_true_true. change (String.le a a). reflexivity. Qed.

Lemma ltb_leb (a b : string) : String.ltb a b = true -> String.leb a b = true.
Proof. unfold String.ltb, String.leb. destruct (String.compare a b); congruence. Qed.

Lemma ltb_false_leb (a b : string) : String.ltb a b = false -> String.leb b a = true.
Proof.
  unfold String.ltb, String.leb. rewrite (String.compare_antisym b a).
  destruct (String.compare a b); simpl; congruence.
Qed.


Lemma truthy_nonempty (s : string) : truthy s = true <-> s <> "".
Proof. destruct s; simpl; split; congruence. Qed.

(** What one reading does to the entry of a device [d]. *)
Lemma latest_step_lookup (cache cache' : gmap string status_data)
    (data : status_data) (d : string) :
  latest_step cache data = Ok cache' -> d <> "" ->
  (device_id_of data = Ok d /\
     ((cache !! d = None /\ cache' !! d = Some data) \/
      (exists kept, cache !! d = Some kept /\
         ((String.ltb (date_of kept) (date_of data) = true /\ cache' !! d = Some data) \/
          (String.ltb (date_of kept) (date_of data) = false /\ cache' !! d = Some kept))))) \/
  (device_id_of data <> Ok d /\ cache' !! d = cache !! d).
Proof.
  unfold latest_step. intros H Hd.
  destruct (device_id_of data) as [i|e] eqn:Hid; simpl in H; [|discriminate].
  destruct (truthy i) eqn:Ht.
  - destruct (decide (i = d)) as [->|Hne].
    + left. split; [reflexivity|].
      destruct (cache !! d) as [kept|] eqn:Hc.
      * right. exists kept. split; [reflexivity|].
        destruct (String.ltb (date_of kept) (date_of data)); inversion H; subst.
        -- left. split; [reflexivity|]. apply lookup_insert_eq.
        -- right. split; [reflexivity|]. exact Hc.
      * left. inversion H; subst. split; [reflexivity|]. apply lookup_insert_eq.
    + right. split; [congruence|].
      destruct (cache !! i) as [kept|].
      * destruct (String.ltb (date_of kept) (date_of data)); inversion H; subst;
          [apply lookup_insert_ne; assumption | reflexivity].
      * inversion H; subst. apply lookup_insert_ne; assumption.
  - right. inversion H; subst. split; [|reflexivity].
    intros E. inversion E; subst. apply truthy_nonempty in Hd. congruence.
Qed.

(** The entry of [d] after a batch: the best of the entry it started from
    and of the readings of [d] in the batch. *)
Lemma latest_readings_inv (batch : list status_data) :
  forall (c0 c : gmap string status_data) (d : string),
    latest_readings batch c0 = Ok c -> d <> "" ->
    (exists r, c !! d = Some r /\
       (c0 !! d = Some r \/ reading_of d batch r) /\
       (forall r', reading_of d batch r' -> String.leb (date_of r') (date_of r) = true) /\
       (forall r0, c0 !! d = Some r0 -> String.leb (date_of r0) (date_of r) = true)) \/
    (c !! d = None /\ c0 !! d = None /\ forall r', ~ reading_of d batch r').
Proof.
  induction batch as [|data rest IH]; intros c0 c d Hrun Hd; simpl in Hrun.
  - inversion Hrun; subst. destruct (c !! d) as [r|] eqn:Hc.
    + left. exists r. repeat split; auto.
      * intros r' [[] _].
      * intros r0 E. inversion E; subst. apply leb_refl.
    + right. repeat split; auto. intros r' [[] _].
  - destruct (latest_step c0 data) as [c1|e] eqn:Hstep; simpl in Hrun; [|discriminate].
    specialize (IH c1 c d Hrun Hd).
    destruct (latest_step_lookup _ _ _ d Hstep Hd) as [[Hid Hcase]|[Hid Hsame]].
    + destruct IH as [(r & Hc & Horig & Hmax & Hge)|(_ & Hnone & _)].
      2:{ destruct Hcase as [[_ E]|(k & _ & [[_ E]|[_ E]])]; congruence. }
      left. exists r. split; [exact Hc|].
      destruct Hcase as [[H0 H1]|(kept & H0 & [[Hlt H1]|[Hlt H1]])].
      * repeat split.
        -- right. destruct Horig as [E|[Hin Hr]].
           ++ rewrite H1 in E. inversion E; subst. split; [left; reflexivity|exact Hid].
           ++ split; [right; exact Hin|exact Hr].
        -- intros r' [[->|Hin] Hr']; [apply Hge; exact H1|apply Hmax; split; assumption].
        -- intros r0 E. congruence.
      * repeat split.
        -- right. destruct Horig as [E|[Hin Hr]].
           ++ rewrite H1 in E. inversion E; subst. split; [left; reflexivity|exact Hid].
           ++ split; [right; exact Hin|exact Hr].
        -- intros r' [[->|Hin] Hr']; [apply Hge; exact H1|apply Hmax; split; assumption].
        -- intros r0 E. rewrite H0 in E. inversion E; subst.
           apply leb_trans with (date_of data); [apply ltb_leb; exact Hlt|apply Hge; exact H1].
      * repeat split.
        -- destruct Horig as [E|[Hin Hr]].
           ++ left. congruence.
           ++ right. split; [right; exact Hin|exact Hr].
        -- intros r' [[->|Hin] Hr']; [|apply Hmax; split; assumption].
           apply leb_trans with (date_of kept);
             [apply ltb_false_leb; exact Hlt|apply Hge; exact H1].
        -- intros r0 E. rewrite H0 in E. inversion E; subst. apply Hge; exact H1.
    + rewrite Hsame in IH.
      destruct IH as [(r & Hc & Horig & Hmax & Hge)|(Hc & Hnone & Hno)].
      * left. exists r. repeat split; auto.
        -- destruct Horig as [E|[Hin Hr]]; [left; exact E|right; split; [right|]; assumption].
        -- intros r' [[->|Hin] Hr']; [congruence|apply Hmax; split; assumption].
      * right. repeat split; auto.
        intros r' [[->|Hin] Hr']; [congruence|apply (Hno r'); split; assumption].
Qed.

(** The reduction fails only on a reading whose device is a bare string. *)
Lemma latest_step_runs (cache : gmap string status_data) (data : status_data) :
  (exists i, device_id_of data = Ok i) <-> (exists cache', latest_step cache data = Ok cache').
Proof.
  unfold latest_step. split.
  - intros [i ->]. simpl. destruct (truthy i); [|eauto].
    destruct (cache !! i) as [kept|]; [|eauto].
    destruct (String.ltb (date_of kept) (date_of data)); eauto.
  - intros [cache' H]. destruct (device_id_of data); [eauto|discriminate].
Qed.

Lemma latest_readings_runs (batch : list status_data) :
  forall cache,
    Forall (fun data => exists i, device_id_of data = Ok i) batch <->
    (exists cache', latest_readings batch cache = Ok cache').
Proof.
  induction batch as [|data rest IH]; intros cache; simpl.
  - split; [eauto|constructor].
  - split.
    + intros H. inversion H as [|? ? Hd Hrest]; subst.
      apply (latest_step_runs cache) in Hd. destruct Hd as [c1 ->]. simpl.
      apply IH. exact Hrest.
    + intros [c' H].
      destruct (latest_step cache data) as [c1|e] eqn:Hstep; simpl in H; [|discriminate].
      constructor; [apply (latest_step_runs cache); eauto|].
      apply (IH c1). eauto.
Qed.

(** From the empty cache: a device with a reading in the batch ends up
    with one of its readings, and none of its readings is later. *)
Lemma latest_readings_max (batch : list status_data)
    (cache : gmap string status_data) (d : string) :
  latest_readings batch ∅ = Ok cache -> d <> "" ->
  (exists r0, reading_of d batch r0) ->
  exists r, cache !! d = Some r /\ reading_of d batch r /\
    forall r', reading_of d batch r' -> String.leb (date_of r') (date_of r) = true.
Proof.
  intros Hrun Hd [r0 Hr0].
  destruct (latest_readings_inv batch ∅ cache d Hrun Hd)
    as [(r & Hc & Horig & Hmax & _)|(_ & _ & Hno)].
  - exists r. repeat split; auto.
    + destruct Horig as [E|[H _]]; [rewrite lookup_empty in E; discriminate|exact H].
    + destruct Horig as [E|[_ H]]; [rewrite lookup_empty in E; discriminate|exact H].
  - exfalso. exact (Hno r0 Hr0).
Qed.





End TelemetryFacts.

(** ** Report formatting *)

Module FormatFacts.
Import Py Format.

Lemma contains_lstrip_by (c : ascii) (f : ascii -> bool) (s : string) :
  contains c s = false -> contains c (lstrip_by f s) = false.
Proof.
  induction s as [|a s IH]; simpl; [reflexivity|].
  destruct (Ascii.eqb a c) eqn:E; [discriminate|]. intros H.
  destruct (f a); [apply IH; exact H|]. simpl. rewrite E. exact H.
Qed.

Lemma contains_rstrip_by (c : ascii) (f : ascii -> bool) (s : string) :
  contains c s = false -> contains c (rstrip_by f s) = false.
Proof.
  induction s as [|a s IH]; simpl; [reflexivity|].
  destruct (Ascii.eqb a c) eqn:E; [discriminate|]. intros H.
  specialize (IH H). destruct (rstrip_by f s) as [|b t].
  - destruct (f a); simpl; [reflexivity|]. rewrite E. reflexivity.
  - change (contains c (String a (String b t)) = false). simpl. rewrite E. exact IH.
Qed.

Lemma contains_strip_by (c : ascii) (f : ascii -> bool) (s : string) :
  contains c s = false -> contains c (strip_by f s) = false.
Proof. intros H. apply contains_rstrip_by, contains_lstrip_by, H. Qed.

(** A text without a colon that is not a plain number: no day count, no
    clock, zero seconds in all. *)
Lemma format_duration_no_colon (s : string) :
  s <> "" ->
  contains ":" s = false ->
  isdigit (remove "." (strip s)) = false ->
  format_duration (DStr s) = "00:00:00".
Proof.
  intros Hs Hc Hd. unfold format_duration, format_duration_body.
  destruct s as [|a s']; [congruence|]. simpl duration_falsy. cbv iota.
  cbn [duration_str_of]. rewrite Hd.
  assert (Hc' : contains ":" (strip_chars quote_chars (strip (String a s'))) = false)
    by (apply contains_strip_by, contains_strip_by, Hc).
  unfold split_days, clock_seconds. rewrite Hc'. rewrite andb_false_r.
  simpl. rewrite Hc'. reflexivity.
Qed.

(** C7 (amended). [format_duration] maps the millisecond count 3600000
    to 01:00:00 and the text 1.02:30:15 (one day, 2 h 30 min 15 s) to
    26:30:15, and it never raises: on an input that is no text or an ASCII
    text, whatever the body of its [try] block raises, the result is the
    empty string, as for a clock whose minutes are not a number.  An ASCII
    text that holds no colon and is not a plain number is not rejected,
    though: it counts as zero seconds and maps to 00:00:00.  (Beyond ASCII
    [isdigit], [int] and [float] also take digits the embedding does not
    read, so nothing is stated there.) *)
Theorem duration_normalization :
  format_duration (DInt 3600000) = "01:00:00" /\
  format_duration (DStr "1.02:30:15") = "26:30:15" /\
  (forall (d : duration_input) (e : exn),
      ascii_input d = true ->
      format_duration_body d = Raise e -> format_duration d = "") /\
  format_duration (DStr "12:xx") = "" /\
  (forall s : string,
      isascii s = true ->
      s <> "" -> contains ":" s = false -> isdigit (remove "." (strip s)) = false ->
      format_duration (DStr s) = "00:00:00").
Proof.
  split; [vm_compute; reflexivity|]. split; [vm_compute; reflexivity|].
  split; [intros d e _ H; unfold format_duration; rewrite H; reflexivity|].
  split; [vm_compute; reflexivity|].
  intros s _. exact (format_duration_no_colon s).
Qed.

Lemma duration_normalization_witness :
  (isascii "n/a" = true /\ "n/a" <> "" /\ contains ":" "n/a" = false /\
   isdigit (remove "." (strip "n/a")) = false) /\
  format_duration (DStr "n/a") = "00:00:00".
Proof.
  split; [split; [reflexivity|split; [discriminate|split; reflexivity]]|].
  apply (proj2 (proj2 (proj2 (proj2 duration_normalization))));
    [reflexivity|discriminate|reflexivity|reflexivity].
Defined.

(** The text abc is no duration, and it does not map to the empty string. *)
Lemma unparsable_duration_is_zero :
  format_duration (DStr "abc") = "00:00:00" /\ format_duration (DStr "abc") <> "".
Proof. split; [vm_compute; reflexivity|vm_compute; discriminate]. Qed.

Section TimestampFacts.
Variable datetime : Type.
Variable fromisoformat : string -> result datetime.
Variable tzinfo_is_none : datetime -> bool.
Variable utc_localize : datetime -> result datetime.
Variable astimezone_eastern : datetime -> result datetime.
Variable strftime : datetime -> string -> result string.

Abbreviation format_datetime :=
  (format_datetime datetime fromisoformat tzinfo_is_none utc_localize
     astimezone_eastern strftime).
Abbreviation format_datetime_body :=
  (format_datetime_body datetime fromisoformat tzinfo_is_none utc_localize
     astimezone_eastern strftime).

(** C9. [format_datetime] returns the pair of two empty strings for an
    absent timestamp ([None] or the empty text) and for a text that
    [fromisoformat] rejects; it never raises: whatever the parsing, the
    time zone conversion or the formatting raises, the result is that
    same pair. *)
Theorem bad_timestamp_empty_pair :
  format_datetime TNone = ("", "") /\
  format_datetime (TStr "") = ("", "") /\
  (forall (s : string) (e : exn),
      fromisoformat (utc_suffixed s) = Raise e ->
      format_datetime (TStr s) = ("", "")) /\
  (forall (i : dt_input datetime) (e : exn),
      format_datetime_body i = Raise e -> format_datetime i = ("", "")).
Proof.
  split; [reflexivity|]. split; [reflexivity|]. split.
  - intros s e H. unfold Format.format_datetime, Format.format_datetime_body.
    destruct (dt_falsy datetime (TStr s)); [reflexivity|].
    rewrite H. reflexivity.
  - intros i e H. unfold Format.format_datetime. rewrite H. reflexivity.
Qed.
End TimestampFacts.

Lemma bad_timestamp_empty_pair_witness :
  toy_fromisoformat (utc_suffixed "yesterday") = Raise ValueError /\
  format_datetime Z toy_fromisoformat (fun _ => false) Ok
    (fun t => Ok (t - 18000)%Z) toy_strftime (TStr "yesterday") = ("", "") /\
  format_datetime Z toy_fromisoformat (fun _ => false) Ok
    (fun t => Ok (t - 18000)%Z) toy_strftime (TStr "1970-01-01T05:00:00Z")
    = ("01/01/1970", "12:00:00 AM").
Proof.
  split; [reflexivity|]. split; [|reflexivity].
  apply (proj1 (proj2 (proj2 (bad_timestamp_empty_pair Z toy_fromisoformat
           (fun _ => false) Ok (fun t => Ok (t - 18000)%Z) toy_strftime)))
           "yesterday" ValueError).
  reflexivity.
Defined.

End FormatFacts.

(** ** Reconciliation engine: the managed scope *)

Module ScopeFacts.
Import Py Reconcile.

Lemma visit_children_mono (rec1 rec2 : string -> list string -> option (list string)) :
  (forall g acc r, rec1 g acc = Some r -> rec2 g acc = Some r) ->
  forall children acc r,
    visit_children rec1 children acc = Some r ->
    visit_children rec2 children acc = Some r.
Proof.
  intros Hrec children. induction children as [|child rest IH]; intros acc r H; simpl in *.
  - exact H.
  - destruct child as [c|]; [|apply IH; exact H].
    destruct (truthy c); [|apply IH; exact H].
    destruct (rec1 c (acc ++ [c])%list) as [acc1|] eqn:E; [|discriminate].
    rewrite (Hrec _ _ _ E). apply IH; exact H.
Qed.

(** A deeper recursion limit changes no result. *)
Lemma get_groups_change_mono (groups : gmap string group) (d : nat) :
  forall d' g acc r,
    d <= d' ->
    get_groups_change d groups g acc = Some r ->
    get_groups_change d' groups g acc = Some r.
Proof.
  induction d as [|d IH]; intros d' g acc r Hle H; simpl in H; [discriminate|].
  destruct d' as [|d']; [lia|]. simpl.
  apply (visit_children_mono (get_groups_change d groups)); [|exact H].
  intros g' acc' r' H'. apply IH; [lia|exact H'].
Qed.

(** The first step of a path of the children relation. *)
Lemma tc_child_first (groups : gmap string group) (g x : string) :
  tc (child_of groups) g x <->
  exists c, child_of groups g c /\ (x = c \/ tc (child_of groups) c x).
Proof.
  split.
  - intros H. destruct H as [g x H|g c x H Ht]; [exists x|exists c]; auto.
  - intros (c & Hc & [->|Ht]); [apply tc_once; exact Hc|exact (tc_l _ _ _ _ Hc Ht)].
Qed.

Lemma visit_children_closure (groups : gmap string group)
    (rec : string -> list string -> option (list string)) :
  (forall g acc r, rec g acc = Some r ->
     forall x, In x r <-> In x acc \/ tc (child_of groups) g x) ->
  forall children acc r,
    visit_children rec children acc = Some r ->
    forall x, In x r <->
      In x acc \/
      exists c, (In (Some c) children /\ c <> "") /\ (x = c \/ tc (child_of groups) c x).
Proof.
  intros Hrec children. induction children as [|child rest IH]; intros acc r H x; simpl in H.
  - inversion H; subst. split; [auto|]. intros [Hx|(c & [[] _] & _)]. exact Hx.
  - assert (Hskip : visit_children rec rest acc = Some r ->
                    (forall c, child = Some c -> c = "") ->
                    In x r <-> In x acc \/
                      exists c, (In (Some c) (child :: rest) /\ c <> "") /\
                                (x = c \/ tc (child_of groups) c x)).
    { intros H' Hc. rewrite (IH _ _ H' x). split.
      - intros [Hx|(c & [Hin Hne] & Hxc)]; [auto|].
        right. exists c. repeat split; auto. right; exact Hin.
      - intros [Hx|(c & [[E|Hin] Hne] & Hxc)]; [auto| |].
        + exfalso. apply Hne, Hc, E.
        + right. exists c. auto. }
    destruct child as [c0|]; [|apply Hskip; [exact H|discriminate]].
    destruct (truthy c0) eqn:Ht.
    2:{ apply Hskip; [exact H|]. intros c E. inversion E; subst.
        destruct c; [reflexivity|discriminate]. }
    clear Hskip.
    destruct (rec c0 (acc ++ [c0])%list) as [acc1|] eqn:E; [|discriminate].
    rewrite (IH _ _ H x). rewrite (Hrec _ _ _ E x). rewrite in_app_iff. simpl.
    assert (Hne0 : c0 <> "") by (destruct c0; [discriminate|congruence]).
    split.
    + intros [[[Hx|[Hx|[]]]|Hx]|(c & [Hin Hne] & Hxc)].
      * auto.
      * right. exists c0. repeat split; auto.
      * right. exists c0. repeat split; auto.
      * right. exists c. repeat split; auto.
    + intros [Hx|(c & [[Hin|Hin] Hne] & Hxc)].
      * auto.
      * inversion Hin; subst. destruct Hxc as [->|Hx]; auto.
      * right. exists c. auto.
Qed.

(** What a returned closure holds: the ids it was given, and the proper
    descendants of the start group. *)
Lemma get_groups_change_closure (groups : gmap string group) (d : nat) :
  forall g acc r,
    get_groups_change d groups g acc = Some r ->
    forall x, In x r <-> In x acc \/ tc (child_of groups) g x.
Proof.
  induction d as [|d IH]; intros g acc r H x; simpl in H; [discriminate|].
  rewrite (visit_children_closure groups _ IH _ _ _ H x).
  rewrite (tc_child_first groups g x). unfold child_of. reflexivity.
Qed.

Lemma reaches_cycle_child (groups : gmap string group) (y : string) :
  reaches_cycle groups y -> exists c, child_of groups y c /\ reaches_cycle groups c.
Proof.
  intros (x & Hyx & Hxx). destruct Hyx as [y|y c x Hyc Hcx].
  - apply tc_child_first in Hxx. destruct Hxx as (c & Hc & Hcx).
    exists c. split; [exact Hc|]. exists y. split.
    + destruct Hcx as [->|Ht]; [apply rtc_refl|apply tc_rtc; exact Ht].
    + apply tc_child_first. exists c. auto.
  - exists c. split; [exact Hyc|]. exists x. auto.
Qed.

Lemma visit_children_stuck (rec : string -> list string -> option (list string))
    (c : string) :
  c <> "" -> (forall acc, rec c acc = None) ->
  forall children acc, In (Some c) children -> visit_children rec children acc = None.
Proof.
  intros Hne Hrec children. induction children as [|child rest IH]; intros acc Hin.
  - destruct Hin.
  - simpl. destruct Hin as [->|Hin].
    + destruct c; [congruence|]. simpl. rewrite Hrec. reflexivity.
    + destruct child as [c'|]; [|apply IH; exact Hin].
      destruct (truthy c'); [|apply IH; exact Hin].
      destruct (rec c' (acc ++ [c'])%list); [apply IH; exact Hin|reflexivity].
Qed.

(** From a group that reaches a cycle no depth suffices. *)
Lemma get_groups_change_stuck (groups : gmap string group) (d : nat) :
  forall y acc, reaches_cycle groups y -> get_groups_change d groups y acc = None.
Proof.
  induction d as [|d IH]; intros y acc Hy; simpl; [reflexivity|].
  destruct (reaches_cycle_child groups y Hy) as (c & [Hin Hne] & Hc).
  apply (visit_children_stuck _ c Hne); [|exact Hin].
  intros acc'. apply IH. exact Hc.
Qed.

Lemma visit_children_runs (rec : string -> list string -> option (list string)) :
  forall children,
    (forall c, In (Some c) children -> c <> "" -> forall acc, exists r, rec c acc = Some r) ->
    forall acc, exists r, visit_children rec children acc = Some r.
Proof.
  induction children as [|child rest IH]; intros Hrec acc; simpl; [eauto|].
  assert (Hrest : forall acc', exists r, visit_children rec rest acc' = Some r).
  { apply IH. intros c Hin. apply Hrec. right. exact Hin. }
  destruct child as [c|]; [|apply Hrest].
  destruct (truthy c) eqn:Ht; [|apply Hrest].
  destruct (Hrec c (or_introl eq_refl)) with (acc := (acc ++ [c])%list) as [r ->].
  - destruct c; [discriminate|congruence].
  - apply Hrest.
Qed.

(** Distinct keys of the table are no more than its size. *)
Lemma path_bound (groups : gmap string group) (path : list string) :
  NoDup path -> (forall y, y ∈ path -> is_Some (groups !! y)) ->
  length path <= size (dom groups).
Proof.
  intros Hnd Hin. unfold size, set_size. simpl.
  apply submseteq_length, NoDup_submseteq; [exact Hnd|].
  intros y Hy. apply elem_of_elements, elem_of_dom, Hin, Hy.
Qed.

Lemma cycle_free_child (groups : gmap string group) (g c : string) :
  cycle_free_from groups g -> child_of groups g c -> cycle_free_from groups c.
Proof. intros Hg Hc x Hx. apply Hg. exact (rtc_l _ _ _ _ Hc Hx). Qed.

(** Below a path of [length path] distinct ancestors the recursion needs no
    more depth than the table has other groups. *)
Lemma terminates_within (groups : gmap string group) (m : nat) :
  forall (path : list string) (g : string) (acc : list string),
    cycle_free_from groups g ->
    NoDup path ->
    (forall y, y ∈ path -> is_Some (groups !! y) /\ tc (child_of groups) y g) ->
    size (dom groups) - length path <= m ->
    exists r, get_groups_change (S m) groups g acc = Some r.
Proof.
  induction m as [|m IH]; intros path g acc Hfree Hnd Hpath Hm.
  - simpl. unfold children_of. destruct (groups !! g) as [gr|] eqn:Hg; [|simpl; eauto].
    exfalso.
    assert (Hfresh : g ∉ path).
    { intros Hin. apply (Hfree g (rtc_refl _ _)). apply Hpath, Hin. }
    assert (Hlen : length (g :: path) <= size (dom groups)).
    { apply path_bound; [apply NoDup_cons; auto|].
      intros y Hy. apply elem_of_cons in Hy. destruct Hy as [->|Hy]; [eauto|apply Hpath, Hy]. }
    simpl in Hlen. lia.
  - change (exists r, visit_children (get_groups_change (S m) groups)
                        (children_of groups g) acc = Some r).
    assert (Hkids : forall c, child_of groups g c ->
                      forall acc', exists r, get_groups_change (S m) groups c acc' = Some r).
    { intros c Hc acc'.
      destruct (groups !! g) as [gr|] eqn:Hg.
      2:{ destruct Hc as [Hin _]. unfold children_of in Hin. rewrite Hg in Hin. destruct Hin. }
      assert (Hfresh : g ∉ path).
      { intros Hin. apply (Hfree g (rtc_refl _ _)). apply Hpath, Hin. }
      assert (Hlen : length (g :: path) <= size (dom groups)).
      { apply path_bound; [apply NoDup_cons; auto|].
        intros y Hy. apply elem_of_cons in Hy. destruct Hy as [->|Hy]; [eauto|apply Hpath, Hy]. }
      apply (IH (g :: path)).
      - exact (cycle_free_child _ _ _ Hfree Hc).
      - apply NoDup_cons; auto.
      - intros y Hy. apply elem_of_cons in Hy. destruct Hy as [->|Hy].
        + split; [eauto|apply tc_once; exact Hc].
        + destruct (Hpath y Hy) as [Hs Ht]. split; [exact Hs|eapply tc_r; eassumption].
      - simpl in *. lia. }
    apply visit_children_runs. intros c Hin Hne acc'. apply Hkids. split; assumption.
Qed.

(** On a table without a reachable cycle the closure returns, at a depth of
    one more than the number of groups at most. *)
Lemma get_groups_change_returns (groups : gmap string group) (g : string)
    (acc : list string) :
  cycle_free_from groups g ->
  exists r, get_groups_change (S (size (dom groups))) groups g acc = Some r.
Proof.
  intros Hfree. apply (terminates_within groups _ []); auto.
  - apply NoDup_nil; exact I.
  - intros y Hy. apply elem_of_nil in Hy. destruct Hy.
  - simpl. lia.
Qed.

(** A table whose children all rank below their parents has no cycle. *)
Lemma ranked_acyclic (groups : gmap string group) (rank : string -> nat) :
  (forall p c, child_of groups p c -> rank c < rank p) -> acyclic groups.
Proof.
  intros Hrank.
  assert (Hdown : forall x y, tc (child_of groups) x y -> rank y < rank x).
  { intros x y H. induction H as [x y H|x y z H _ IH].
    - apply Hrank, H.
    - apply Hrank in H. lia. }
  intros x Hx. apply Hdown in Hx. lia.
Qed.

Lemma family_children (p : string) :
  children_of family p =
    if String.eqb p "R" then [Some "A"; Some "B"]
    else if String.eqb p "A" then [Some "C"] else [].
Proof.
  unfold children_of, family.
  destruct (String.eqb_spec p "R") as [->|HR]; [reflexivity|].
  rewrite lookup_insert_ne by congruence.
  destruct (String.eqb_spec p "A") as [->|HA]; [reflexivity|].
  rewrite lookup_insert_ne by congruence.
  destruct (decide (p = "B")) as [->|HB]; [reflexivity|].
  rewrite lookup_insert_ne by congruence.
  destruct (decide (p = "C")) as [->|HC]; [reflexivity|].
  rewrite lookup_singleton_ne by congruence. reflexivity.
Qed.

Lemma family_acyclic : acyclic family.
Proof.
  apply (ranked_acyclic family family_rank). intros p c [Hin _].
  rewrite family_children in Hin. unfold family_rank.
  destruct (String.eqb_spec p "R") as [->|HR].
  - simpl in Hin. destruct Hin as [E|[E|[]]]; inversion E; subst; simpl; lia.
  - destruct (String.eqb_spec p "A") as [->|HA]; [|destruct Hin].
    simpl in Hin. destruct Hin as [E|[]]. inversion E; subst. simpl. lia.
Qed.

(** C3 (amended). [get_groups_change] returns exactly on the group tables
    in which no group that can be reached from the start id lies on a cycle
    of the children relation.  On such a table it returns at every
    recursion depth greater than the number of groups of the table, so that
    a depth of that number plus one always suffices; with a reachable cycle
    it returns at no depth at all. *)
Theorem closure_returns_iff_cycle_free (groups : gmap string group)
    (group_id : string) (groups_change : list string) :
  ((exists depth r, get_groups_change depth groups group_id groups_change = Some r) <->
   cycle_free_from groups group_id) /\
  (cycle_free_from groups group_id ->
   forall depth, size (dom groups) < depth ->
     exists r, get_groups_change depth groups group_id groups_change = Some r) /\
  (reaches_cycle groups group_id ->
   forall depth, get_groups_change depth groups group_id groups_change = None).
Proof.
  assert (Hreturns : cycle_free_from groups group_id ->
            forall depth, size (dom groups) < depth ->
              exists r, get_groups_change depth groups group_id groups_change = Some r).
  { intros Hfree depth Hd.
    destruct (get_groups_change_returns groups group_id groups_change Hfree) as [r H].
    exists r. apply (get_groups_change_mono groups (S (size (dom groups)))); [lia|exact H]. }
  split; [split|split].
  - intros (depth & r & H) x Hreach Hcycle.
    rewrite (get_groups_change_stuck groups depth group_id groups_change) in H;
      [discriminate|].
    exists x. split; assumption.
  - intros Hfree.
    destruct (Hreturns Hfree (S (size (dom groups))) (Nat.lt_succ_diag_r _)) as [r H].
    eauto.
  - exact Hreturns.
  - intros Hc depth. apply get_groups_change_stuck. exact Hc.
Qed.

Lemma closure_returns_iff_cycle_free_witness :
  (get_groups_change 3 chain "b2867" [] = Some ["b2868"; "b2869"] /\
   cycle_free_from chain "b2867" /\ size (dom chain) < 1000) /\
  exists r, get_groups_change 1000 chain "b2867" [] = Some r.
Proof.
  assert (Hrun : get_groups_change 3 chain "b2867" [] = Some ["b2868"; "b2869"])
    by (vm_compute; reflexivity).
  assert (Hfree : cycle_free_from chain "b2867").
  { apply (proj1 (proj1 (closure_returns_iff_cycle_free chain "b2867" []))).
    exists 3, ["b2868"; "b2869"]. exact Hrun. }
  assert (Hsize : size (dom chain) < 1000) by (vm_compute; lia).
  split; [split; [exact Hrun|split; [exact Hfree|exact Hsize]]|].
  exact (proj1 (proj2 (closure_returns_iff_cycle_free chain "b2867" [])) Hfree 1000 Hsize).
Defined.

(** A group listed among its own children: the closure returns at no depth. *)
Lemma closure_of_loop_never_returns :
  child_of looped "a" "a" /\
  forall depth acc, get_groups_change depth looped "a" acc = None.
Proof.
  assert (Hc : child_of looped "a" "a").
  { split; [|discriminate]. vm_compute. left. reflexivity. }
  split; [exact Hc|].
  intros depth acc. apply get_groups_change_stuck.
  exists "a". split; [apply rtc_refl|apply tc_once; exact Hc].
Qed.

(** C4. On an acyclic group table the closure computed from a root R
    returns, and it holds exactly the proper descendants of R (its children,
    their children, and so on), so not R itself; for R with children A and B
    and A with child C it is A, C, B. *)
Theorem closure_is_proper_descendants :
  (forall (groups : gmap string group) (R : string),
      acyclic groups ->
      exists depth r,
        get_groups_change depth groups R [] = Some r /\
        (forall x, In x r <-> tc (child_of groups) R x) /\
        ~ In R r) /\
  get_groups_change 3 family "R" [] = Some ["A"; "C"; "B"].
Proof.
  split; [|vm_compute; reflexivity].
  intros groups R Hacyc.
  assert (Hfree : cycle_free_from groups R) by (intros x _; apply Hacyc).
  destruct (get_groups_change_returns groups R [] Hfree) as [r H].
  assert (Hr : forall x, In x r <-> tc (child_of groups) R x).
  { intros x. rewrite (get_groups_change_closure groups _ _ _ _ H x). simpl. tauto. }
  exists (S (size (dom groups))), r. split; [exact H|]. split; [exact Hr|].
  intros Hin. apply Hr in Hin. exact (Hacyc R Hin).
Qed.

Lemma closure_is_proper_descendants_witness :
  acyclic family /\
  exists depth r,
    get_groups_change depth family "R" [] = Some r /\
    (forall x, In x r <-> tc (child_of family) "R" x) /\
    ~ In "R" r.
Proof.
  split; [exact family_acyclic|].
  apply (proj1 closure_is_proper_descendants family "R" family_acyclic).
Defined.

End ScopeFacts.

(** ** Reconciliation engine: the roster parser *)

Module RosterFacts.
Import Py Reconcile.
Local Open Scope list_scope.

Lemma parse_line_well_formed (line : string) :
  (exists u, parse_line line = inl u) <-> well_formed line.
Proof.
  unfold parse_line, well_formed.
  destruct (tokens_of line) as [|t0 [|t1 [|t2 [|t3 [|t4 [|t5 rest]]]]]]; simpl;
    (split; [intros [u H]; first [discriminate|reflexivity]
            |intros H; first [discriminate|eauto]]).
Qed.

Lemma parse_line_malformed (line : string) (columns : nat) :
  parse_line line = inr columns ->
  columns = length (tokens_of line) /\ columns <> 5.
Proof.
  unfold parse_line.
  destruct (tokens_of line) as [|t0 [|t1 [|t2 [|t3 [|t4 [|t5 rest]]]]]]; simpl;
    intros H; inversion H; subst; split; auto; discriminate.
Qed.

(** A line in the middle of the file: the rows before and after it are
    parsed as they would be without it. *)
Lemma parse_lines_app (before : list string) :
  forall (n : nat) (line : string) (after : list string),
    parse_lines n (before ++ line :: after) =
      let (u1, w1) := parse_lines n before in
      let (u2, w2) := parse_lines (S (n + length before)) after in
      match parse_line line with
      | inl u => (u1 ++ u :: u2, w1 ++ w2)
      | inr k => (u1 ++ u2, w1 ++ InvalidFormat (n + length before) k :: w2)
      end.
Proof.
  induction before as [|b before IH]; intros n line after.
  - simpl. rewrite Nat.add_0_r.
    destruct (parse_lines (S n) after) as [u2 w2]. destruct (parse_line line); reflexivity.
  - rewrite <- app_comm_cons. cbn [parse_lines]. rewrite IH. cbn [length].
    rewrite Nat.add_succ_r. change (S n + length before) with (S (n + length before)).
    destruct (parse_lines (S n) before) as [u1 w1].
    destruct (parse_lines (S (S (n + length before))) after) as [u2 w2].
    destruct (parse_line line); destruct (parse_line b); reflexivity.
Qed.

(** The header test, read off the stripped first line: a line of at most
    12 characters, or one that starts with G and has a comma at index 12,
    is kept as the first data line. *)
Lemma header_test_keeps (first_line : string) :
  String.length first_line <= 12 \/
  (startswith "G" first_line = true /\ String.get 12 first_line = Some ","%char) ->
  is_header first_line = false.
Proof.
  unfold is_header. intros [Hlen|[Hg Hc]].
  - apply Nat.ltb_ge in Hlen. rewrite Hlen. reflexivity.
  - rewrite Hg, Hc. rewrite Ascii.eqb_refl. apply andb_false_r.
Qed.

(** Any other first line is taken for a header. *)
Lemma header_test_drops (first_line : string) :
  12 < String.length first_line ->
  startswith "G" first_line = false \/ String.get 12 first_line <> Some ","%char ->
  is_header first_line = true.
Proof.
  unfold is_header. intros Hlen H. apply Nat.ltb_lt in Hlen. rewrite Hlen.
  destruct H as [Hg|Hc]; [rewrite Hg; reflexivity|].
  destruct (String.get 12 first_line) as [c|]; [|apply orb_true_r].
  destruct (Ascii.eqb_spec c ","%char) as [->|_]; [congruence|apply orb_true_r].
Qed.

(** C8 (amended). The roster parser takes a line for a row if and only if
    it splits at the commas into exactly five fields.  Any other line
    yields no row and one warning, which carries the line's number among the
    data lines and its number of fields, and the lines before and after it
    are parsed as without it.  The data lines of a roster of ASCII lines are
    all its lines, unless the first one is taken for a header: a first line
    whose stripped text is longer than 12 characters and does not start
    with G, or holds no comma at index 12, is dropped, with no row and no
    warning, whatever the number of its fields.  The parser returns its rows
    for every file, as on the sample roster with its header and its two
    malformed lines. *)
Theorem roster_rows_have_five_fields :
  (forall line, (exists u, parse_line line = inl u) <-> well_formed line) /\
  (forall line columns,
      parse_line line = inr columns ->
      columns = length (tokens_of line) /\ columns <> 5) /\
  (forall n before line after,
      parse_lines n (before ++ line :: after) =
        let (u1, w1) := parse_lines n before in
        let (u2, w2) := parse_lines (S (n + length before)) after in
        match parse_line line with
        | inl u => (u1 ++ u :: u2, w1 ++ w2)
        | inr k => (u1 ++ u2, w1 ++ InvalidFormat (n + length before) k :: w2)
        end) /\
  (forall first rest,
      forallb isascii (first :: rest) = true ->
      String.length (strip first) <= 12 \/
      (startswith "G" (strip first) = true /\
       String.get 12 (strip first) = Some ","%char) ->
      parse_csv_updates (FileLines (first :: rest)) = parse_lines 1 (first :: rest)) /\
  (forall first rest,
      forallb isascii (first :: rest) = true ->
      12 < String.length (strip first) ->
      startswith "G" (strip first) = false \/
      String.get 12 (strip first) <> Some ","%char ->
      parse_csv_updates (FileLines (first :: rest)) = parse_lines 1 rest) /\
  parse_csv_updates (FileLines sample_roster) =
    ([mkUpdate "G9AAAAAAAAAA" "17" "1HGCM82633A004352" "Truck 7" ["b2868"; "b2869"];
      mkUpdate "G9CCCCCCCCCC" "19" "1FTFW1ET5DFC10312" "" ["b2868"]],
     [InvalidFormat 2 3; InvalidFormat 3 1]).
Proof.
  split; [exact parse_line_well_formed|].
  split; [exact parse_line_malformed|].
  split; [intros n before line after; apply parse_lines_app|].
  split; [|split; [|vm_compute; reflexivity]].
  - intros first rest _ H. unfold parse_csv_updates, data_lines.
    rewrite (header_test_keeps _ H). reflexivity.
  - intros first rest _ Hlen H. unfold parse_csv_updates, data_lines.
    rewrite (header_test_drops _ Hlen H). reflexivity.
Qed.

Lemma roster_rows_have_five_fields_witness :
  (parse_line "G9BBBBBBBBBB,18,Truck 8" = inr 3 /\
   (3 = length (tokens_of "G9BBBBBBBBBB,18,Truck 8") /\ 3 <> 5)) /\
  (forallb isascii ["Serial Number,Id,VIN,Name,Groups"; "G9BBBBBBBBBB,18,Truck 8"] = true /\
   12 < String.length (strip "Serial Number,Id,VIN,Name,Groups") /\
   parse_csv_updates (FileLines ["Serial Number,Id,VIN,Name,Groups";
                                 "G9BBBBBBBBBB,18,Truck 8"])
     = parse_lines 1 ["G9BBBBBBBBBB,18,Truck 8"]).
Proof.
  split.
  - split; [reflexivity|].
    apply (proj1 (proj2 roster_rows_have_five_fields) "G9BBBBBBBBBB,18,Truck 8" 3).
    reflexivity.
  - split; [reflexivity|]. split; [vm_compute; lia|].
    apply (proj1 (proj2 (proj2 (proj2 (proj2 roster_rows_have_five_fields))))
             "Serial Number,Id,VIN,Name,Groups" ["G9BBBBBBBBBB,18,Truck 8"]).
    + reflexivity.
    + vm_compute. lia.
    + left. reflexivity.
Defined.

(** A row written with semicolons is malformed.  As the second line of the
    roster it is reported; as the first it is taken for a header and dropped
    with no warning.  A first line of five fields whose serial number does
    not start with G is dropped as well, and yields no row. *)
Lemma first_line_dropped_unreported :
  length (tokens_of "G9BBBBBBBBBB;18;1FTFW1ET5DFC10312;Truck 8;b2868") = 1 /\
  parse_csv_updates
    (FileLines ["G9AAAAAAAAAA,17,1HGCM82633A004352,Truck 7,b2868";
                "G9BBBBBBBBBB;18;1FTFW1ET5DFC10312;Truck 8;b2868"])
    = ([mkUpdate "G9AAAAAAAAAA" "17" "1HGCM82633A004352" "Truck 7" ["b2868"]],
       [InvalidFormat 2 1]) /\
  parse_csv_updates
    (FileLines ["G9BBBBBBBBBB;18;1FTFW1ET5DFC10312;Truck 8;b2868";
                "G9AAAAAAAAAA,17,1HGCM82633A004352,Truck 7,b2868"])
    = ([mkUpdate "G9AAAAAAAAAA" "17" "1HGCM82633A004352" "Truck 7" ["b2868"]], []) /\
  length (tokens_of "V-1003,17,1HGCM82633A004352,Van 3,b2868") = 5 /\
  parse_csv_updates (FileLines ["V-1003,17,1HGCM82633A004352,Van 3,b2868"]) = ([], []).
Proof. vm_compute. repeat split; reflexivity. Qed.

End RosterFacts.

(** ** Reconciliation engine: the device diff *)

Module DiffFacts.
Import Py Reconcile.
Local Open Scope list_scope.

Lemma mem_true (x : string) (l : list string) : mem x l = true <-> In x l.
Proof.
  unfold mem. rewrite existsb_exists. split.
  - intros (y & Hy & E). apply String.eqb_eq in E. subst. exact Hy.
  - intros H. exists x. split; [exact H|apply String.eqb_refl].
Qed.

Lemma mem_false (x : string) (l : list string) : mem x l = false <-> ~ In x l.
Proof.
  rewrite <- mem_true. destruct (mem x l); split; congruence.
Qed.

Lemma keep_unmanaged_in (changeable : list string) (gs : list group_ref) (g : string) :
  In g (keep_unmanaged changeable gs) <-> In (GroupObj g) gs /\ mem g changeable = false.
Proof.
  induction gs as [|[i|b] rest IH]; simpl.
  - tauto.
  - destruct (mem i changeable) eqn:E; simpl; rewrite IH; split.
    + intros [H1 H2]. auto.
    + intros [[H|H] H2]; [inversion H; subst; congruence|auto].
    + intros [->|[H1 H2]]; auto.
    + intros [[H|H] H2]; [inversion H; subst; auto|auto].
  - rewrite IH. split; [intros [H1 H2]; auto|].
    intros [[H|H] H2]; [discriminate|auto].
Qed.

Lemma group_ids_in (gs : list group_ref) (ids : list string) (g : string) :
  group_ids gs = Ok ids -> (In g ids <-> In (GroupObj g) gs).
Proof.
  revert ids. induction gs as [|[i|b] rest IH]; intros ids H; simpl in H.
  - inversion H; subst. simpl. tauto.
  - destruct (group_ids rest) as [ids'|e]; simpl in H; [|discriminate].
    inversion H; subst. simpl. rewrite (IH ids' eq_refl). split.
    + intros [->|H1]; auto.
    + intros [E|H1]; [inversion E; auto|auto].
  - discriminate.
Qed.

(** The membership the second loop leaves: what it started from and the
    requested ids inside the managed scope. *)
Lemma add_requested_new (changeable current : list string) (requested : list string) :
  forall (new changes : list string) (g : string),
    In g (fst (add_requested changeable current requested new changes)) <->
    In g new \/ (In g requested /\ mem g changeable = true).
Proof.
  induction requested as [|r rest IH]; intros new changes g; simpl.
  - tauto.
  - destruct (mem r changeable) eqn:Hc; simpl.
    + destruct (mem r new) eqn:Hn; simpl.
      * rewrite IH. apply mem_true in Hn. split.
        -- intros [H|[H1 H2]]; auto.
        -- intros [H|[[->|H1] H2]]; auto.
      * rewrite IH, in_app_iff. simpl. split.
        -- intros [[H|[->|[]]]|[H1 H2]]; auto.
        -- intros [H|[[->|H1] H2]]; auto.
    + rewrite IH. split.
      * intros [H|[H1 H2]]; auto.
      * intros [H|[[->|H1] H2]]; [auto|congruence|auto].
Qed.

(** When the second loop flags a change: exactly when the row requests a
    managed group that the device is not in (and that the first loop did
    not keep). *)
Lemma add_requested_changes (changeable current : list string) (requested : list string) :
  forall (new changes : list string),
    snd (add_requested changeable current requested new changes) <> [] <->
    changes <> [] \/
    exists g, In g requested /\ mem g changeable = true /\
              mem g new = false /\ mem g current = false.
Proof.
  induction requested as [|r rest IH]; intros new changes; simpl.
  - split; [auto|]. intros [H|(g & [] & _)]. exact H.
  - destruct (mem r changeable) eqn:Hc; simpl.
    + destruct (mem r new) eqn:Hn; simpl.
      * rewrite IH. split.
        -- intros [H|(g & H1 & H2 & H3 & H4)]; [auto|]. right. exists g. auto.
        -- intros [H|(g & [->|H1] & H2 & H3 & H4)]; [auto|congruence|].
           right. exists g. auto.
      * rewrite IH. split.
        -- intros [H|(g & H1 & H2 & H3 & H4)].
           ++ destruct (mem r current) eqn:Hcur; simpl in H; [auto|].
              right. exists r. auto.
           ++ right. exists g. repeat split; auto.
              apply mem_false. apply mem_false in H3. intros Hin. apply H3.
              apply in_or_app. auto.
        -- intros [H|(g & [->|H1] & H2 & H3 & H4)].
           ++ left. destruct (negb (mem r current)); [|exact H].
              destruct changes; discriminate.
           ++ left. rewrite H4. simpl. destruct changes; discriminate.
           ++ destruct (String.eqb_spec g r) as [->|Hne].
              ** left. rewrite H4. simpl. destruct changes; discriminate.
              ** right. exists g. repeat split; auto.
                 apply mem_false. apply mem_false in H3. intros Hin.
                 apply in_app_or in Hin. destruct Hin as [Hin|[E|[]]]; [auto|congruence].
    + rewrite IH. split.
      * intros [H|(g & H1 & H2 & H3 & H4)]; [auto|]. right. exists g. auto.
      * intros [H|(g & [->|H1] & H2 & H3 & H4)]; [auto|congruence|].
        right. exists g. auto.
Qed.

Lemma in_groups_map (ids : list string) (d : device) (g : string) :
  d_groups d = Some (map GroupObj ids) -> (in_groups d g <-> In g ids).
Proof.
  intros H. unfold in_groups, groups_or_empty. rewrite H. rewrite in_map_iff. split.
  - intros (i & E & Hi). inversion E; subst. exact Hi.
  - intros Hi. exists g. auto.
Qed.

(** What the diff of a matched device computes: the new membership, and
    the condition under which it asks for an update. *)
Lemma diff_device_spec (changeable : list string) (d d' : device)
    (u : roster_update) (needs_update : bool) :
  diff_device changeable d u = Ok (needs_update, d') ->
  (forall g, in_groups d' g <->
     (in_groups d g /\ mem g changeable = false) \/
     (In g (u_groups u) /\ mem g changeable = true)) /\
  (needs_update = true <->
     d_name d <> row_name u \/
     get_or_empty (d_vehicleIdentificationNumber d) <> u_vin u \/
     exists g, In g (u_groups u) /\ mem g changeable = true /\ ~ in_groups d g).
Proof.
  unfold diff_device. intros H.
  destruct (group_ids (groups_or_empty d)) as [ids|e] eqn:Hids; simpl in H; [|discriminate].
  destruct (add_requested changeable ids (u_groups u)
              (keep_unmanaged changeable (groups_or_empty d)) []) as [new changes] eqn:Hadd.
  inversion H as [[Hb Hd]]. clear H. split.
  - intros g. rewrite (in_groups_map new) by reflexivity.
    change new with (fst (new, changes)). rewrite <- Hadd.
    rewrite add_requested_new, keep_unmanaged_in. reflexivity.
  - assert (Hgrp : match changes with [] => false | _ :: _ => true end = true <->
                   exists g, In g (u_groups u) /\ mem g changeable = true /\ ~ in_groups d g).
    { assert (Hne : changes <> [] <->
                    match changes with [] => false | _ :: _ => true end = true)
        by (destruct changes; split; congruence).
      rewrite <- Hne. change changes with (snd (new, changes)). rewrite <- Hadd.
      rewrite add_requested_changes. split.
      - intros [H|(g & H1 & H2 & H3 & H4)]; [congruence|].
        exists g. repeat split; auto. apply mem_false in H4.
        intros Hin. apply H4. apply (group_ids_in _ _ g Hids). exact Hin.
      - intros (g & H1 & H2 & H3). right. exists g. repeat split; auto.
        + apply mem_false. intros Hin. apply keep_unmanaged_in in Hin. destruct Hin. congruence.
        + apply mem_false. intros Hin. apply H3. apply (group_ids_in _ _ g Hids). exact Hin. }
    rewrite !orb_true_iff, !negb_true_iff, Hgrp.
    rewrite !String.eqb_neq. tauto.
Qed.

Lemma process_update_queued (changeable : list string) (devices : list device)
    (u : roster_update) (d d' : device) :
  process_update changeable devices u = Queued d' d <->
  find_matching_device devices u = Some d /\ diff_device changeable d u = Ok (true, d').
Proof.
  unfold process_update.
  destruct (find_matching_device devices u) as [m|].
  2:{ split; [discriminate|intros [H _]; discriminate]. }
  destruct (diff_device changeable m u) as [[b r]|e] eqn:Hdiff.
  - destruct b; split.
    + intros H. inversion H; subst. auto.
    + intros [H1 H2]. inversion H1; subst. rewrite Hdiff in H2. inversion H2. reflexivity.
    + discriminate.
    + intros [H1 H2]. inversion H1; subst. rewrite Hdiff in H2. discriminate.
  - split; [discriminate|].
    intros [H1 H2]. inversion H1; subst. rewrite Hdiff in H2. discriminate.
Qed.

(** The code's own rule for queueing a matched device: its name differs,
    its VIN differs, or the row requests a managed group that the device is
    not in.  A managed group the row no longer requests does not count. *)
Lemma queued_iff_name_vin_or_group_added (changeable : list string)
    (devices : list device) (u : roster_update) (d : device) :
  find_matching_device devices u = Some d ->
  (exists ids, group_ids (groups_or_empty d) = Ok ids) ->
  (exists d', process_update changeable devices u = Queued d' d) <->
  d_name d <> row_name u \/
  get_or_empty (d_vehicleIdentificationNumber d) <> u_vin u \/
  exists g, In g (u_groups u) /\ mem g changeable = true /\ ~ in_groups d g.
Proof.
  intros Hfind [ids Hids].
  assert (Hrun : exists b d', diff_device changeable d u = Ok (b, d')).
  { unfold diff_device. rewrite Hids. simpl.
    destruct (add_requested changeable ids (u_groups u)
                (keep_unmanaged changeable (groups_or_empty d)) []). eauto. }
  destruct Hrun as (b & d' & Hdiff).
  destruct (diff_device_spec _ _ _ _ _ Hdiff) as [_ Hb]. rewrite <- Hb. split.
  - intros [d1 H]. apply process_update_queued in H. destruct H as [_ H].
    rewrite Hdiff in H. inversion H. reflexivity.
  - intros ->. exists d'. apply process_update_queued. auto.
Qed.

Lemma api_calls_in (changeable : list string) (devices : list device)
    (updates : list roster_update) (e : device) :
  In e (api_calls changeable devices updates) <->
  exists u d, In u updates /\ process_update changeable devices u = Queued e d.
Proof.
  induction updates as [|u rest IH]; simpl.
  - split; [intros []|intros (u & d & [] & _)].
  - destruct (process_update changeable devices u) as [|x|x|x m] eqn:Hp;
      try (rewrite IH; split;
           [intros (u' & d & Hin & H); exists u', d; auto
           |intros (u' & d & [<-|Hin] & H); [congruence|exists u', d; auto]]).
    simpl. rewrite IH. split.
    + intros [<-|(u' & d & Hin & H)]; [exists u, m; auto|exists u', d; auto].
    + intros (u' & d & [<-|Hin] & H).
      * left. congruence.
      * right. exists u', d. auto.
Qed.

(** C2 (amended). The group membership written into the update queued for
    a matched device is the union of the device's current groups outside the
    managed scope and of the requested group ids inside it.  A requested id
    outside the managed scope is never added: it is in the new membership
    only if the device is already in that group. *)
Theorem queued_membership (changeable : list string) (devices : list device)
    (update : roster_update) (updated matching : device) :
  process_update changeable devices update = Queued updated matching ->
  find_matching_device devices update = Some matching /\
  (forall updates, In update updates -> In updated (api_calls changeable devices updates)) /\
  (forall g, in_groups updated g <->
     (in_groups matching g /\ mem g changeable = false) \/
     (In g (u_groups update) /\ mem g changeable = true)) /\
  (forall g, In g (u_groups update) -> mem g changeable = false ->
     in_groups updated g -> in_groups matching g).
Proof.
  intros Hq. pose proof Hq as Hq'. apply process_update_queued in Hq'.
  destruct Hq' as [Hfind Hdiff].
  destruct (diff_device_spec _ _ _ _ _ Hdiff) as [Hmem _].
  split; [exact Hfind|]. split; [|split; [exact Hmem|]].
  - intros updates Hin. apply api_calls_in. exists update, matching. auto.
  - intros g Hreq Hout Hnew. apply Hmem in Hnew.
    destruct Hnew as [[H _]|[_ H]]; [exact H|congruence].
Qed.

Lemma queued_membership_witness :
  process_update ["b2868"; "b2869"] [truck7] row_naming_outside
    = Queued (mkDevice "G9AAAAAAAAAA" (Some "1HGCM82633A004352") "Truck 7"
                (Some "1HGCM82633A004352") (Some [GroupObj "b1234"; GroupObj "b2869"]))
             truck7 /\
  forall g,
    in_groups (mkDevice "G9AAAAAAAAAA" (Some "1HGCM82633A004352") "Truck 7"
                 (Some "1HGCM82633A004352") (Some [GroupObj "b1234"; GroupObj "b2869"])) g <->
    (in_groups truck7 g /\ mem g ["b2868"; "b2869"] = false) \/
    (In g (u_groups row_naming_outside) /\ mem g ["b2868"; "b2869"] = true).
Proof.
  split; [reflexivity|].
  apply (proj1 (proj2 (proj2 (queued_membership ["b2868"; "b2869"] [truck7]
           row_naming_outside _ truck7 eq_refl)))).
Defined.

(** The row requests b1234, a group outside the managed scope, and b1234 is
    in the membership written for the device. *)
Lemma requested_outside_id_in_membership :
  changeable_from 4 chain groups_change_roots [] = Some ["b2868"; "b2869"] /\
  In "b1234" (u_groups row_naming_outside) /\
  mem "b1234" ["b2868"; "b2869"] = false /\
  sync_vehicles_with_geotab 4 [truck7] chain [row_naming_outside]
    = Some [mkDevice "G9AAAAAAAAAA" (Some "1HGCM82633A004352") "Truck 7"
              (Some "1HGCM82633A004352") (Some [GroupObj "b1234"; GroupObj "b2869"])] /\
  in_groups (mkDevice "G9AAAAAAAAAA" (Some "1HGCM82633A004352") "Truck 7"
               (Some "1HGCM82633A004352") (Some [GroupObj "b1234"; GroupObj "b2869"])) "b1234".
Proof.
  split; [vm_compute; reflexivity|]. split; [left; reflexivity|].
  split; [reflexivity|]. split; [vm_compute; reflexivity|left; reflexivity].
Qed.

(** C1 (the code at the failing input). The truck is in the managed group
    b2868 and its row requests no group: name and VIN agree, the new
    membership computed for it (b1234 alone) differs from the current one
    (b1234 and b2868), and yet the device is not queued and the batched call
    is empty. *)
Theorem group_removal_is_not_queued :
  changeable_from 4 chain groups_change_roots [] = Some ["b2868"; "b2869"] /\
  find_matching_device [truck7] row_dropping_scope = Some truck7 /\
  d_name truck7 = row_name row_dropping_scope /\
  get_or_empty (d_vehicleIdentificationNumber truck7) = u_vin row_dropping_scope /\
  in_groups truck7 "b2868" /\
  process_update ["b2868"; "b2869"] [truck7] row_dropping_scope
    = UpToDate (mkDevice "G9AAAAAAAAAA" (Some "1HGCM82633A004352") "Truck 7"
                  (Some "1HGCM82633A004352") (Some [GroupObj "b1234"])) /\
  sync_vehicles_with_geotab 4 [truck7] chain [row_dropping_scope] = Some [].
Proof.
  split; [vm_compute; reflexivity|]. split; [reflexivity|]. split; [reflexivity|].
  split; [reflexivity|]. split; [right; left; reflexivity|].
  split; [reflexivity|vm_compute; reflexivity].
Qed.

End DiffFacts.

(** ** Geofence index: what the lookup never does *)

Module GeofenceMore.
Import Py Geofence GeofenceSpec GeofenceFacts.

Lemma matching_zones_ok (lat lon : Q) (zones : list (string * zone)) :
  exists names, matching_zones lat lon zones = Ok names.
Proof.
  induction zones as [|[zid z] zs [rest IH]]; simpl; [eauto|].
  destruct (points z) as [[|p pts]|]; eauto.
  destruct (point_in_polygon_total lat lon (p :: pts)) as [hit ->].
  rewrite IH. simpl. destruct hit; [|eauto].
  destruct (name z) as [nm|]; [|eauto]. destruct (truthy nm); eauto.
Qed.

(** X1. Neither the polygon test nor the zone lookup ever raises: the
    polygon test reads [xinters] only after assigning it, whatever the
    polygon (also one with repeated or collinear vertices), and the lookup
    returns a text for every zone table and every pair of coordinates,
    missing ones included. *)
Theorem zone_lookup_never_raises :
  (forall (lat lon : Q) (pts : list point), exists b, point_in_polygon lat lon pts = Ok b) /\
  (forall (zones_cache : list (string * zone)) (latitude longitude : option Q),
      exists s, get_zones_for_location zones_cache latitude longitude = Ok s).
Proof.
  split; [exact point_in_polygon_total|].
  intros zones_cache latitude longitude. unfold get_zones_for_location.
  destruct latitude as [lat|]; [|simpl; eauto].
  destruct longitude as [lon|]; [|rewrite orb_true_r; eauto].
  destruct (falsy_coord (Some lat) || falsy_coord (Some lon)); [eauto|].
  destruct (matching_zones_ok lat lon zones_cache) as [names ->]. simpl. eauto.
Qed.

Lemma pip_step_blocked (px py : Q) (st : pip_state) (a p2 : point) :
  p1x st = x a -> p1y st = y a -> blocked px py a p2 ->
  pip_step px py st p2 = Ok (mkState (x p2) (y p2) (inside st) (xinters st)).
Proof.
  intros Hx Hy Hb. unfold pip_step. rewrite Hx, Hy.
  destruct (Qltb (Qmin (y a) (y p2)) py) eqn:Hlo; [|reflexivity].
  destruct (Qle_bool py (Qmax (y a) (y p2))) eqn:Hhi; [|reflexivity].
  destruct (Qle_bool px (Qmax (x a) (x p2))) eqn:Hxr; [|reflexivity].
  exfalso. apply Qltb_true in Hlo. apply Qle_bool_iff in Hhi. apply Qle_bool_iff in Hxr.
  destruct Hb as [H|[H|H]].
  - exact (Qlt_not_le _ _ Hlo H).
  - exact (Qlt_not_le _ _ H Hhi).
  - exact (Qlt_not_le _ _ H Hxr).
Qed.

Lemma pip_loop_blocked (px py : Q) (pts : list point) (d : point) (n : nat) :
  In d pts ->
  (forall a b, In a pts -> In b pts -> blocked px py a b) ->
  forall (idxs : list nat) (st : pip_state) (a : point),
    In a pts -> p1x st = x a -> p1y st = y a ->
    exists st', pip_loop px py pts d n idxs st = Ok st' /\ inside st' = inside st.
Proof.
  intros Hd Hall idxs. induction idxs as [|i idxs IH]; intros st a Ha Hx Hy; simpl.
  - eauto.
  - assert (Hin : In (nth (i mod n) pts d) pts).
    { destruct (Nat.lt_ge_cases (i mod n) (length pts)) as [Hlt|Hge].
      - apply nth_In. exact Hlt.
      - rewrite nth_overflow by exact Hge. exact Hd. }
    rewrite (pip_step_blocked px py st a _ Hx Hy (Hall _ _ Ha Hin)). simpl.
    destruct (IH (mkState (x (nth (i mod n) pts d)) (y (nth (i mod n) pts d))
                    (inside st) (xinters st)) _ Hin eq_refl eq_refl) as (st' & -> & Hi).
    eauto.
Qed.

(** X2. A point that lies strictly above every vertex of a polygon, at or
    below every vertex, or strictly to the right of every vertex is
    classified as outside. *)
Theorem outside_bounding_box (lat lon : Q) (pts : list point) :
  (forall p, In p pts -> (y p < lat)%Q) \/
  (forall p, In p pts -> (lat <= y p)%Q) \/
  (forall p, In p pts -> (x p < lon)%Q) ->
  point_in_polygon lat lon pts = Ok false.
Proof.
  intros H. unfold point_in_polygon. destruct pts as [|p0 rest]; [reflexivity|].
  destruct (length (p0 :: rest) <? 3); [reflexivity|].
  assert (Hall : forall a b, In a (p0 :: rest) -> In b (p0 :: rest) -> blocked lon lat a b).
  { intros a b Ha Hb. destruct H as [H|[H|H]].
    - right. left. apply Q.max_lub_lt; auto.
    - left. apply Q.min_glb; auto.
    - right. right. apply Q.max_lub_lt; auto. }
  destruct (pip_loop_blocked lon lat (p0 :: rest) p0 (length (p0 :: rest))
              (or_introl eq_refl) Hall (seq 1 (length (p0 :: rest)))
              (mkState (x p0) (y p0) false None) p0 (or_introl eq_refl) eq_refl eq_refl)
    as (st' & -> & Hi).
  simpl in *. rewrite Hi. reflexivity.
Qed.

Lemma outside_bounding_box_witness :
  (forall p, In p square -> (x p < 11)%Q) /\ point_in_polygon 5 11 square = Ok false.
Proof.
  assert (H : forall p, In p square -> (x p < 11)%Q).
  { intros p Hp. simpl in Hp.
    destruct Hp as [<-|[<-|[<-|[<-|[]]]]]; reflexivity. }
  split; [exact H|].
  apply (outside_bounding_box 5 11 square). right. right. exact H.
Defined.

(** X3. The zone names the lookup collects are exactly the non-empty names
    of the zones of the table that have a polygon which the test puts the
    point in; such a polygon has at least three vertices, so a zone with
    fewer never matches. *)
Theorem matched_zones_contain_point (lat lon : Q) (zones : list (string * zone))
    (names : list string) (nm : string) :
  matching_zones lat lon zones = Ok names ->
  (In nm names <->
   exists zid z pts,
     In (zid, z) zones /\ name z = Some nm /\ nm <> "" /\ points z = Some pts /\
     3 <= length pts /\ point_in_polygon lat lon pts = Ok true).
Proof.
  revert names. induction zones as [|[zid z] zs IH]; intros names H; simpl in H.
  - inversion H; subst. split; [intros []|intros (zid & z & pts & [] & _)].
  - assert (Hskip : forall rest, matching_zones lat lon zs = Ok rest -> names = rest ->
               (forall pts, points z = Some pts -> name z = Some nm -> nm <> "" ->
                  point_in_polygon lat lon pts = Ok true -> False) ->
               In nm names <->
               exists zid' z' pts,
                 In (zid', z') ((zid, z) :: zs) /\ name z' = Some nm /\ nm <> "" /\
                 points z' = Some pts /\ 3 <= length pts /\
                 point_in_polygon lat lon pts = Ok true).
    { intros rest Hr -> Hno. rewrite (IH rest Hr). split.
      - intros (zid' & z' & pts & Hin & Hrest). exists zid', z', pts. split; [right; exact Hin|exact Hrest].
      - intros (zid' & z' & pts & [E|Hin] & Hn & Hne & Hp & Hlen & Hhit).
        + inversion E; subst. exfalso. exact (Hno pts Hp Hn Hne Hhit).
        + exists zid', z', pts. repeat split; assumption. }
    destruct (points z) as [[|p pts]|] eqn:Hpts.
    + apply (Hskip names H eq_refl). intros pts' E _ _ Hhit. inversion E; subst.
      discriminate.
    + destruct (point_in_polygon lat lon (p :: pts)) as [hit|e] eqn:Hhit; simpl in H; [|discriminate].
      destruct (matching_zones lat lon zs) as [rest|e] eqn:Hrest; simpl in H; [|discriminate].
      assert (Hlen : hit = true -> 3 <= length (p :: pts)).
      { intros ->. unfold point_in_polygon in Hhit.
        destruct (length (p :: pts) <? 3) eqn:E; [discriminate|].
        apply Nat.ltb_ge in E. exact E. }
      destruct hit.
      * destruct (name z) as [nm0|] eqn:Hname.
        -- destruct (truthy nm0) eqn:Ht; inversion H; subst names.
           ++ simpl. rewrite (IH rest eq_refl). split.
              ** intros [<-|(zid' & z' & pts' & Hin & Hr)].
                 --- exists zid, z, (p :: pts). repeat split; auto.
                     destruct nm0; [discriminate|congruence].
                 --- exists zid', z', pts'. split; [right; exact Hin|exact Hr].
              ** intros (zid' & z' & pts' & [E|Hin] & Hn & Hr).
                 --- inversion E; subst. left. congruence.
                 --- right. exists zid', z', pts'.
                     split; [exact Hin|split; [exact Hn|exact Hr]].
           ++ apply (Hskip rest eq_refl eq_refl). intros pts' _ Hn Hne _.
              inversion Hn; subst. destruct nm; [congruence|discriminate].
        -- inversion H; subst names. apply (Hskip rest eq_refl eq_refl).
           intros pts' _ Hn. discriminate.
      * inversion H; subst names. apply (Hskip rest eq_refl eq_refl).
        intros pts' E _ _ Hhit'. inversion E; subst. congruence.
    + apply (Hskip names H eq_refl). intros pts' E. discriminate.
Qed.

Lemma matched_zones_contain_point_witness :
  matching_zones 5 (1 # 100) [("z0", mkZone (Some [mkPoint 0 0; mkPoint 0 10]) (Some "Line"));
                              ("z1", meridian_zone)] = Ok ["Depot"] /\
  (In "Depot" ["Depot"] <->
   exists zid z pts,
     In (zid, z) [("z0", mkZone (Some [mkPoint 0 0; mkPoint 0 10]) (Some "Line"));
                  ("z1", meridian_zone)] /\
     name z = Some "Depot" /\ "Depot" <> "" /\ points z = Some pts /\
     3 <= length pts /\ point_in_polygon 5 (1 # 100) pts = Ok true).
Proof.
  split; [vm_compute; reflexivity|].
  apply (matched_zones_contain_point 5 (1 # 100) _ ["Depot"] "Depot").
  vm_compute. reflexivity.
Defined.

End GeofenceMore.

(** ** Telemetry window cache: keys, failures and derived queries *)

Module TelemetryMore.
Import Py Telemetry Queries TelemetryFacts.

(** X4. After the latest-value reduction from an empty cache, a non-empty
    device id has an entry exactly when some reading of the batch carries
    it, and the empty id never has one: a reading without a device id is
    dropped. *)
Theorem cache_keys_are_batch_devices (batch : list status_data)
    (cache : gmap string status_data) :
  latest_readings batch ∅ = Ok cache ->
  cache !! "" = None /\
  forall d, d <> "" ->
    (is_Some (cache !! d) <-> exists r, reading_of d batch r).
Proof.
  intros Hrun. split.
  - assert (Hgen : forall l c0 c, latest_readings l c0 = Ok c -> c0 !! "" = None -> c !! "" = None).
    { induction l as [|x l IH]; intros c0 c H H0; simpl in H.
      - inversion H; subst. exact H0.
      - destruct (latest_step c0 x) as [c1|e] eqn:Hs; simpl in H; [|discriminate].
        apply (IH c1 c H). unfold latest_step in Hs.
        destruct (device_id_of x) as [i|e]; simpl in Hs; [|discriminate].
        destruct i as [|a i'].
        + inversion Hs; subst. exact H0.
        + simpl in Hs. destruct (c0 !! String a i') as [kept|].
          * destruct (String.ltb (date_of kept) (date_of x)); inversion Hs; subst;
              [rewrite lookup_insert_ne by discriminate|]; exact H0.
          * inversion Hs; subst. rewrite lookup_insert_ne by discriminate. exact H0. }
    apply (Hgen batch ∅ cache Hrun). apply lookup_empty.
  - intros d Hd.
    destruct (latest_readings_inv batch ∅ cache d Hrun Hd)
      as [(r & Hc & Horig & _)|(Hc & _ & Hno)].
    + split; [|intros _; rewrite Hc; eauto].
      intros _. destruct Horig as [E|H]; [rewrite lookup_empty in E; discriminate|eauto].
    + split; [rewrite Hc; intros [x Hx]; discriminate|].
      intros [r Hr]. exfalso. exact (Hno r Hr).
Qed.

Lemma cache_keys_are_batch_devices_witness :
  latest_readings [reading_X "2024-05-01T10:00:00.000Z" 100;
                   mkStatus DeviceAbsent (Some "2024-05-01T10:05:00.000Z") 7] ∅
    = Ok {[ "X" := reading_X "2024-05-01T10:00:00.000Z" 100 ]} /\
  ({[ "X" := reading_X "2024-05-01T10:00:00.000Z" 100 ]} : gmap string status_data) !! ""
    = None.
Proof.
  split; [reflexivity|].
  apply (proj1 (cache_keys_are_batch_devices
                  [reading_X "2024-05-01T10:00:00.000Z" 100;
                   mkStatus DeviceAbsent (Some "2024-05-01T10:05:00.000Z") 7]
                  {[ "X" := reading_X "2024-05-01T10:00:00.000Z" 100 ]} eq_refl)).
Defined.

(** X5. The latest-value reduction handles a device reference only as an
    object: it completes exactly when no reading of the batch gives its
    device as a bare id string, and raises [AttributeError] otherwise,
    before the second cache is built. *)
Theorem reduction_fails_on_bare_device (odometer engine_hours : list status_data) :
  (exists caches, cache_batch_data odometer engine_hours = Ok caches) <->
  (forall r s, In r (odometer ++ engine_hours)%list -> sd_device r <> DeviceBare s).
Proof.
  assert (Hobj : forall r, (exists i, device_id_of r = Ok i) <->
                           forall s, sd_device r <> DeviceBare s).
  { intros r. unfold device_id_of. destruct (sd_device r) as [|o|b].
    - split; [intros _ s; discriminate|intros _; eauto].
    - split; [intros _ s; discriminate|intros _; destruct o; eauto].
    - split; [intros [i H]; discriminate|intros H; exfalso; exact (H b eq_refl)]. }
  assert (Hrun : forall batch,
             (exists c, latest_readings batch ∅ = Ok c) <->
             (forall r s, In r batch -> sd_device r <> DeviceBare s)).
  { intros batch. rewrite <- (latest_readings_runs batch ∅). rewrite Forall_forall. split.
    - intros H r s Hin. apply list_elem_of_In in Hin. apply (proj1 (Hobj r) (H r Hin)).
    - intros H r Hin. apply list_elem_of_In in Hin. apply Hobj. intros s. exact (H r s Hin). }
  unfold cache_batch_data. split.
  - intros [caches H] r s Hin.
    destruct (latest_readings odometer ∅) as [oc|e] eqn:Ho; simpl in H; [|discriminate].
    destruct (latest_readings engine_hours ∅) as [ec|e] eqn:He; simpl in H; [|discriminate].
    apply in_app_or in Hin. destruct Hin as [Hin|Hin].
    + apply (proj1 (Hrun odometer)); eauto.
    + apply (proj1 (Hrun engine_hours)); eauto.
  - intros H.
    assert (Ho : exists c, latest_readings odometer ∅ = Ok c)
      by (apply Hrun; intros r s Hin; apply H, in_or_app; auto).
    assert (He : exists c, latest_readings engine_hours ∅ = Ok c)
      by (apply Hrun; intros r s Hin; apply H, in_or_app; auto).
    destruct Ho as [oc ->]. destruct He as [ec ->]. simpl. eauto.
Qed.

Lemma reduction_fails_on_bare_device_witness :
  cache_batch_data [mkStatus (DeviceBare "b1") (Some "2024-05-01T10:00:00.000Z") 1] []
    = Raise AttributeError /\
  ((exists caches,
      cache_batch_data [reading_X "2024-05-01T10:00:00.000Z" 100] [] = Ok caches) <->
   (forall r s, In r ([reading_X "2024-05-01T10:00:00.000Z" 100] ++ [])%list ->
                sd_device r <> DeviceBare s)).
Proof.
  split; [reflexivity|].
  apply (reduction_fails_on_bare_device [reading_X "2024-05-01T10:00:00.000Z" 100] []).
Defined.

End TelemetryMore.

(** ** Derived queries *)

Module QueryFacts.
Import Py Telemetry Queries TelemetryFacts.
Local Open Scope list_scope.

Lemma key_before_trans (reverse : bool) (a b c : string) :
  key_before reverse a b = true -> key_before reverse b c = true ->
  key_before reverse a c = true.
Proof.
  unfold key_before. destruct reverse; intros H1 H2.
  - exact (leb_trans _ _ _ H2 H1).
  - exact (leb_trans _ _ _ H1 H2).
Qed.

Lemma key_before_total (reverse : bool) (a b : string) :
  key_before reverse a b = false -> key_before reverse b a = true.
Proof.
  unfold key_before. destruct reverse; intros H.
  - destruct (String.leb_total a b) as [E|E]; [exact E|congruence].
  - destruct (String.leb_total a b) as [E|E]; [congruence|exact E].
Qed.

Lemma hd_insert_stable {A : Type} (key : A -> string) (reverse : bool) (x : A)
    (sorted : list A) :
  hd_error (insert_stable key reverse x sorted) =
    match sorted with
    | [] => Some x
    | h :: _ => if key_before reverse (key x) (key h) then Some x else Some h
    end.
Proof.
  destruct sorted as [|h rest]; simpl; [reflexivity|].
  destruct (key_before reverse (key x) (key h)); reflexivity.
Qed.

(** The head of the sorted list: the first element of the list that no
    other element strictly precedes. *)
Lemma hd_py_sort {A : Type} (key : A -> string) (reverse : bool) (l : list A) :
  match hd_error (py_sort key reverse l) with
  | None => l = []
  | Some r =>
      exists before after,
        l = before ++ r :: after /\
        (forall t, In t before -> key_before reverse (key t) (key r) = false) /\
        (forall t, In t after -> key_before reverse (key r) (key t) = true)
  end.
Proof.
  induction l as [|x l IH]; [reflexivity|].
  change (py_sort key reverse (x :: l))
    with (insert_stable key reverse x (py_sort key reverse l)).
  rewrite hd_insert_stable.
  destruct (py_sort key reverse l) as [|h rest] eqn:Hs; simpl in IH.
  - subst l. exists [], []. repeat split; intros t [].
  - destruct IH as (b & a & Hl & Hb & Ha).
    destruct (key_before reverse (key x) (key h)) eqn:Hxh.
    + exists [], l. split; [reflexivity|]. split; [intros t []|].
      intros t Ht. rewrite Hl in Ht. apply in_app_or in Ht.
      destruct Ht as [Ht|[<-|Ht]].
      * apply (key_before_trans reverse _ (key h)); [exact Hxh|].
        apply key_before_total, Hb, Ht.
      * exact Hxh.
      * apply (key_before_trans reverse _ (key h)); [exact Hxh|apply Ha, Ht].
    + exists (x :: b), a. split; [rewrite Hl; reflexivity|]. split; [|exact Ha].
      intros t [<-|Ht]; [exact Hxh|apply Hb, Ht].
Qed.

Lemma filter_split {A : Type} (f : A -> bool) (l : list A) :
  forall b r a,
    List.filter f l = b ++ r :: a ->
    exists b' a', l = b' ++ r :: a' /\ List.filter f b' = b /\ List.filter f a' = a.
Proof.
  induction l as [|x l IH]; intros b r a H; simpl in H.
  - destruct b; discriminate.
  - destruct (f x) eqn:Hx.
    + destruct b as [|y b]; simpl in H; injection H as E1 E2.
      * subst r a. exists [], l. auto.
      * subst y. destruct (IH b r a E2) as (b' & a' & -> & Hb & Ha).
        exists (x :: b'), a'. simpl. rewrite Hx, Hb. auto.
    + destruct (IH b r a H) as (b' & a' & -> & Hb & Ha).
      exists (x :: b'), a'. simpl. rewrite Hx. auto.
Qed.

Lemma trips_of_filter (d : string) (trips : list trip) (l : list trip) :
  trips_of d trips = Ok l ->
  (forall t, In t trips -> exists i, ref_id (trip_device t) = Ok i) /\
  l = List.filter (fun t => match ref_id (trip_device t) with
                            | Ok i => String.eqb i d
                            | Raise _ => false
                            end) trips.
Proof.
  revert l. induction trips as [|t rest IH]; intros l H; simpl in H.
  - inversion H; subst. split; [intros t []|reflexivity].
  - destruct (ref_id (trip_device t)) as [i|e] eqn:Hi; simpl in H; [|discriminate].
    destruct (trips_of d rest) as [others|e]; simpl in H; [|discriminate].
    destruct (IH others eq_refl) as [Hall ->]. inversion H; subst. split.
    + intros t' [<-|Hin]; [eauto|apply Hall, Hin].
    + simpl. rewrite Hi. reflexivity.
Qed.

(** X6. [get_most_recent_trip_from_cache] returns the empty dict exactly
    when the cache holds no trip of the device.  Otherwise it returns a trip
    of the device whose stop time no other trip of the device exceeds, and
    among several with that stop time the one that comes first in the
    cache. *)
Theorem most_recent_trip_is_latest (trips_cache : list trip) (device_id : string)
    (found : option trip) :
  get_most_recent_trip_from_cache trips_cache device_id = Ok found ->
  match found with
  | None => forall t, In t trips_cache -> ref_id (trip_device t) <> Ok device_id
  | Some r =>
      ref_id (trip_device r) = Ok device_id /\
      exists before after,
        trips_cache = before ++ r :: after /\
        (forall t, In t before -> ref_id (trip_device t) = Ok device_id ->
                   String.ltb (stop_of t) (stop_of r) = true) /\
        (forall t, In t after -> ref_id (trip_device t) = Ok device_id ->
                   String.leb (stop_of t) (stop_of r) = true)
  end.
Proof.
  unfold get_most_recent_trip_from_cache. intros H.
  destruct (trips_of device_id trips_cache) as [l|e] eqn:Hl; simpl in H; [|discriminate].
  inversion H; subst found. clear H.
  destruct (trips_of_filter _ _ _ Hl) as [Hall Hf].
  set (f := fun t => match ref_id (trip_device t) with
                     | Ok i => String.eqb i device_id
                     | Raise _ => false
                     end) in Hf.
  assert (Hfd : forall t, f t = true <-> ref_id (trip_device t) = Ok device_id).
  { intros t. unfold f. destruct (ref_id (trip_device t)) as [i|e]; split; intros E;
      try discriminate.
    - apply String.eqb_eq in E. congruence.
    - inversion E. apply String.eqb_refl. }
  pose proof (hd_py_sort stop_of true l) as Hhd.
  destruct (hd_error (py_sort stop_of true l)) as [r|].
  - destruct Hhd as (b & a & Hba & Hb & Ha). rewrite Hf in Hba.
    destruct (filter_split f trips_cache b r a Hba) as (b' & a' & Ht & Hb' & Ha').
    assert (Hr : f r = true).
    { assert (Hin : In r (List.filter f trips_cache)) by (rewrite Hba; apply in_or_app; simpl; auto).
      apply filter_In in Hin. tauto. }
    split; [apply Hfd, Hr|]. exists b', a'. split; [exact Ht|]. split.
    + intros t Hin Hd. assert (Hinb : In t b) by (rewrite <- Hb'; apply filter_In; split; [exact Hin|apply Hfd, Hd]).
      specialize (Hb t Hinb). unfold key_before in Hb.
      unfold String.ltb. unfold String.leb in Hb. rewrite String.compare_antisym in Hb.
      destruct (String.compare (stop_of t) (stop_of r)); simpl in Hb; congruence.
    + intros t Hin Hd. assert (Hina : In t a) by (rewrite <- Ha'; apply filter_In; split; [exact Hin|apply Hfd, Hd]).
      exact (Ha t Hina).
  - rewrite Hhd in Hf. intros t Hin Hd.
    assert (Hin' : In t (List.filter f trips_cache)) by (apply filter_In; split; [exact Hin|apply Hfd, Hd]).
    rewrite <- Hf in Hin'. destruct Hin'.
Qed.

Lemma most_recent_trip_is_latest_witness :
  get_most_recent_trip_from_cache
    sample_trips "b1"
    = Ok (Some (mkTrip (DeviceObj (Some "b1")) (Some "first") (Some "2024-05-01T10:40:00Z"))) /\
  ref_id (trip_device (mkTrip (DeviceObj (Some "b1")) (Some "first")
                         (Some "2024-05-01T10:40:00Z"))) = Ok "b1".
Proof.
  split; [vm_compute; reflexivity|].
  apply (most_recent_trip_is_latest
           sample_trips
           "b1" (Some _)).
  vm_compute. reflexivity.
Defined.

Lemma matching_logs_filter (d t0 : string) (logs : list log_record) (l : list log_record) :
  matching_logs d t0 logs = Ok l ->
  l = List.filter (fun r => match ref_id_opt (log_device r) with
                            | Ok (Some i) => String.eqb i d && String.leb t0 (log_time r)
                            | _ => false
                            end) logs.
Proof.
  revert l. induction logs as [|r rest IH]; intros l H; simpl in H.
  - inversion H; subst. reflexivity.
  - destruct (ref_id_opt (log_device r)) as [i|e] eqn:Hi; simpl in H; [|discriminate].
    destruct (matching_logs d t0 rest) as [others|e]; simpl in H; [|discriminate].
    rewrite (IH others eq_refl) in H. inversion H; subst. simpl. rewrite Hi.
    destruct i as [i|]; reflexivity.
Qed.

(** X7. The log record the exceptions report takes the position from is a
    record of the device at or after the start of the exception that no
    other such record precedes in time, and among several at that time the
    one that comes first in the cache; there is none exactly when the cache
    holds no record of the device at or after that time.  A record whose
    device has no id never matches, not even for an empty device id. *)
Theorem first_record_is_earliest (log_records_cache : list log_record)
    (device_id exception_time : string) (found : option log_record) :
  first_record log_records_cache device_id exception_time = Ok found ->
  match found with
  | None =>
      forall l, In l log_records_cache ->
        ref_id_opt (log_device l) = Ok (Some device_id) ->
        String.leb exception_time (log_time l) = false
  | Some r =>
      ref_id_opt (log_device r) = Ok (Some device_id) /\
      String.leb exception_time (log_time r) = true /\
      exists before after,
        log_records_cache = before ++ r :: after /\
        (forall l, In l before ->
           ref_id_opt (log_device l) = Ok (Some device_id) ->
           String.leb exception_time (log_time l) = true ->
           String.ltb (log_time r) (log_time l) = true) /\
        (forall l, In l after ->
           ref_id_opt (log_device l) = Ok (Some device_id) ->
           String.leb exception_time (log_time l) = true ->
           String.leb (log_time r) (log_time l) = true)
  end.
Proof.
  unfold first_record. intros H.
  destruct (matching_logs device_id exception_time log_records_cache) as [l|e] eqn:Hl;
    simpl in H; [|discriminate].
  inversion H; subst found. clear H.
  pose proof (matching_logs_filter _ _ _ _ Hl) as Hf.
  set (f := fun r => match ref_id_opt (log_device r) with
                     | Ok (Some i) => String.eqb i device_id
                                      && String.leb exception_time (log_time r)
                     | _ => false
                     end) in Hf.
  assert (Hfd : forall r, f r = true <->
                  ref_id_opt (log_device r) = Ok (Some device_id) /\
                  String.leb exception_time (log_time r) = true).
  { intros r. unfold f. destruct (ref_id_opt (log_device r)) as [[i|]|e]; split;
      try (intros E; discriminate); try (intros [E _]; discriminate).
    - intros E. apply andb_true_iff in E. destruct E as [E1 E2].
      apply String.eqb_eq in E1. subst. auto.
    - intros [E1 E2]. inversion E1. rewrite String.eqb_refl. exact E2. }
  pose proof (hd_py_sort log_time false l) as Hhd.
  destruct (hd_error (py_sort log_time false l)) as [r|].
  - destruct Hhd as (b & a & Hba & Hb & Ha). rewrite Hf in Hba.
    destruct (filter_split f log_records_cache b r a Hba) as (b' & a' & Ht & Hb' & Ha').
    assert (Hr : f r = true).
    { assert (Hin : In r (List.filter f log_records_cache))
        by (rewrite Hba; apply in_or_app; simpl; auto).
      apply filter_In in Hin. tauto. }
    apply Hfd in Hr. destruct Hr as [Hr1 Hr2].
    split; [exact Hr1|]. split; [exact Hr2|]. exists b', a'. split; [exact Ht|]. split.
    + intros x Hin Hd Ht0.
      assert (Hinb : In x b)
        by (rewrite <- Hb'; apply filter_In; split; [exact Hin|apply Hfd; auto]).
      specialize (Hb x Hinb). unfold key_before in Hb.
      unfold String.ltb. unfold String.leb in Hb. rewrite String.compare_antisym in Hb.
      destruct (String.compare (log_time r) (log_time x)); simpl in Hb; congruence.
    + intros x Hin Hd Ht0.
      assert (Hina : In x a)
        by (rewrite <- Ha'; apply filter_In; split; [exact Hin|apply Hfd; auto]).
      exact (Ha x Hina).
  - rewrite Hhd in Hf. intros x Hin Hd.
    destruct (String.leb exception_time (log_time x)) eqn:Ht0; [|reflexivity].
    assert (Hin' : In x (List.filter f log_records_cache))
      by (apply filter_In; split; [exact Hin|apply Hfd; auto]).
    rewrite <- Hf in Hin'. destruct Hin'.
Qed.

Lemma first_record_is_earliest_witness :
  first_record
    sample_logs
    "b1" "2024-05-01T10:20:00Z"
    = Ok (Some (mkLog (DeviceObj (Some "b1")) (Some "2024-05-01T10:25:00Z")
                 (Some 4%Q) (Some 4%Q))) /\
  String.leb "2024-05-01T10:20:00Z"
    (log_time (mkLog (DeviceObj (Some "b1")) (Some "2024-05-01T10:25:00Z")
                 (Some 4%Q) (Some 4%Q)))
    = true.
Proof.
  split; [vm_compute; reflexivity|].
  apply (first_record_is_earliest
           sample_logs
           "b1" "2024-05-01T10:20:00Z" (Some _)).
  vm_compute. reflexivity.
Defined.

(** X8. The driver of a device is read off the first status snapshot of
    that device in the cache, whether the snapshot gives device and driver
    as bare ids or as objects: later snapshots of the device are never
    looked at, so a first snapshot without a driver yields [''] even when a
    later one names a driver; without a snapshot of the device the result
    is [''] too. *)
Theorem first_snapshot_wins :
  (forall (before after : list status_info) (s : status_info) (device_id : string),
      (forall t, In t before -> loose_id (st_device t) <> device_id) ->
      loose_id (st_device s) = device_id ->
      get_driver_from_device_status (before ++ s :: after) device_id
        = loose_id (st_driver s)) /\
  (forall (cache : list status_info) (device_id : string),
      (forall t, In t cache -> loose_id (st_device t) <> device_id) ->
      get_driver_from_device_status cache device_id = "").
Proof.
  split.
  - intros before after s d Hb Hs. induction before as [|t before IH]; simpl.
    + rewrite Hs, String.eqb_refl. reflexivity.
    + assert (Ht : String.eqb (loose_id (st_device t)) d = false)
        by (apply String.eqb_neq, Hb; left; reflexivity).
      rewrite Ht. apply IH. intros t' Hin. apply Hb. right. exact Hin.
  - intros cache d Hc. induction cache as [|t cache IH]; simpl; [reflexivity|].
    assert (Ht : String.eqb (loose_id (st_device t)) d = false)
      by (apply String.eqb_neq, Hc; left; reflexivity).
    rewrite Ht. apply IH. intros t' Hin. apply Hc. right. exact Hin.
Qed.

Lemma first_snapshot_wins_witness :
  get_driver_from_device_status
    ([mkStatusInfo (DeviceObj (Some "b2")) (DeviceBare "u3")]
     ++ mkStatusInfo (DeviceBare "b1") DeviceAbsent
     :: [mkStatusInfo (DeviceObj (Some "b1")) (DeviceObj (Some "u7"))]) "b1" = "".
Proof.
  apply (proj1 first_snapshot_wins
           [mkStatusInfo (DeviceObj (Some "b2")) (DeviceBare "u3")]
           [mkStatusInfo (DeviceObj (Some "b1")) (DeviceObj (Some "u7"))]
           (mkStatusInfo (DeviceBare "b1") DeviceAbsent) "b1").
  - intros t [<-|[]]. simpl. discriminate.
  - reflexivity.
Defined.

End QueryFacts.

(** ** Decimal digits: printing and reading back *)

Module DigitFacts.
Import Py Digits.

Lemma all_chars_impl (f g : ascii -> bool) (s : string) :
  (forall a, f a = true -> g a = true) -> all_chars f s = true -> all_chars g s = true.
Proof.
  intros Hfg. induction s as [|a s IH]; simpl; [reflexivity|].
  intros H. apply andb_true_iff in H. destruct H as [Ha Hs].
  rewrite (Hfg a Ha), (IH Hs). reflexivity.
Qed.

Lemma all_chars_app (f : ascii -> bool) (s t : string) :
  all_chars f (s ++ t) = all_chars f s && all_chars f t.
Proof.
  induction s as [|a s IH]; simpl; [reflexivity|]. rewrite IH, andb_assoc. reflexivity.
Qed.

(** Stripping removes nothing from a text none of whose characters is
    stripped. *)
Lemma strip_by_none (f : ascii -> bool) (s : string) :
  all_chars (fun a => negb (f a)) s = true -> strip_by f s = s.
Proof.
  intros H. unfold strip_by.
  assert (Hl : lstrip_by f s = s).
  { destruct s as [|a s]; simpl in *; [reflexivity|].
    apply andb_true_iff in H. destruct H as [Ha _].
    apply negb_true_iff in Ha. rewrite Ha. reflexivity. }
  rewrite Hl. clear Hl. induction s as [|a s IH]; simpl in *; [reflexivity|].
  apply andb_true_iff in H. destruct H as [Ha Hs]. rewrite (IH Hs).
  apply negb_true_iff in Ha. rewrite Ha. destruct s; reflexivity.
Qed.

Lemma contains_none (f : ascii -> bool) (c : ascii) (s : string) :
  f c = false -> all_chars f s = true -> contains c s = false.
Proof.
  intros Hc. induction s as [|a s IH]; simpl; [reflexivity|].
  intros H. apply andb_true_iff in H. destruct H as [Ha Hs].
  destruct (Ascii.eqb_spec a c) as [->|_]; [congruence|apply IH, Hs].
Qed.

Lemma remove_none (c : ascii) (s : string) : contains c s = false -> remove c s = s.
Proof.
  induction s as [|a s IH]; simpl; [reflexivity|].
  destruct (Ascii.eqb a c); [discriminate|]. intros H. rewrite (IH H). reflexivity.
Qed.

Lemma split_none (c : ascii) (s : string) : contains c s = false -> split c s = [s].
Proof.
  induction s as [|a s IH]; simpl; [reflexivity|].
  destruct (Ascii.eqb a c); [discriminate|]. intros H. rewrite (IH H). reflexivity.
Qed.

Lemma split_app (c : ascii) (s t : string) :
  contains c s = false -> split c (s ++ String c t) = s :: split c t.
Proof.
  induction s as [|a s IH]; simpl.
  - intros _. rewrite Ascii.eqb_refl. reflexivity.
  - destruct (Ascii.eqb a c); [discriminate|]. intros H. rewrite (IH H). reflexivity.
Qed.

Lemma contains_app (c : ascii) (s t : string) :
  contains c (s ++ t) = contains c s || contains c t.
Proof.
  induction s as [|a s IH]; simpl; [reflexivity|].
  destruct (Ascii.eqb a c); [reflexivity|exact IH].
Qed.

(** What a digit is and is not. *)
Lemma digit_cases (a : ascii) :
  is_digit a = true ->
  In a ["0"; "1"; "2"; "3"; "4"; "5"; "6"; "7"; "8"; "9"]%char.
Proof.
  destruct a as [b0 b1 b2 b3 b4 b5 b6 b7];
    destruct b0, b1, b2, b3, b4, b5, b6, b7; vm_compute; intros H;
    try discriminate; tauto.
Qed.

Lemma clock_char_plain (a : ascii) :
  clock_char a = true ->
  is_space a = false /\ contains a Format.quote_chars = false /\
  Ascii.eqb a "." = false.
Proof.
  destruct a as [b0 b1 b2 b3 b4 b5 b6 b7];
    destruct b0, b1, b2, b3, b4, b5, b6, b7; vm_compute; intros H;
    try discriminate; auto.
Qed.

Lemma number_char_clock (a : ascii) : number_char a = true -> clock_char a = true.
Proof.
  unfold number_char, clock_char. intros H. apply orb_true_iff in H.
  destruct H as [-> | ->]; [reflexivity|apply orb_true_r].
Qed.

Lemma digits_of_uint (d : Decimal.uint) :
  all_chars is_digit (NilEmpty.string_of_uint d) = true.
Proof. induction d; simpl; auto. Qed.

(** Reading back what [string_of_uint] printed. *)
Lemma scan_digits_uint (d : Decimal.uint) :
  forall (started : bool) (acc : N) (cnt : nat),
    scan_digits (NilEmpty.string_of_uint d) started acc cnt
      = (uint_acc d acc, cnt + Decimal.nb_digits d, "").
Proof.
  induction d; intros started acc cnt; cbn [NilEmpty.string_of_uint uint_acc Decimal.nb_digits];
    [rewrite Nat.add_0_r; reflexivity|..];
    (cbn [scan_digits];
     match goal with
     | |- context [is_digit ?c] =>
         let v := eval vm_compute in (is_digit c) in change (is_digit c) with v;
         let w := eval vm_compute in (digit_val c) in change (digit_val c) with w
     end;
     cbv iota; rewrite IHd; rewrite Nat.add_succ_r; reflexivity).
Qed.

Lemma uint_acc_pos (d : Decimal.uint) :
  forall acc : positive, uint_acc d (Npos acc) = Npos (Pos.of_uint_acc d acc).
Proof.
  induction d; intros acc; cbn [uint_acc Pos.of_uint_acc]; [reflexivity|..];
    rewrite <- IHd; f_equal; lia.
Qed.

Lemma uint_acc_zero (d : Decimal.uint) : uint_acc d 0 = Pos.of_uint d.
Proof.
  induction d; cbn [uint_acc Pos.of_uint]; [reflexivity|exact IHd|..];
    rewrite <- uint_acc_pos; reflexivity.
Qed.

End DigitFacts.

(** ** Report formatting: durations read back *)

Module FormatMore.
Import Py Digits DigitFacts Format.

Lemma digit_not_space (a : ascii) : is_digit a = true -> negb (is_space a) = true.
Proof.
  intros H. assert (Hc : clock_char a = true) by (unfold clock_char; rewrite H; reflexivity).
  destruct (clock_char_plain a Hc) as [-> _]. reflexivity.
Qed.

(** What [int] and [float] skip, [strip] removes. *)
Lemma blank_is_space (a : ascii) : negb (is_space a) = true -> negb (is_blank a) = true.
Proof.
  destruct a as [b0 b1 b2 b3 b4 b5 b6 b7];
    destruct b0, b1, b2, b3, b4, b5, b6, b7; intros H; first [reflexivity|exact H].
Qed.

Lemma digit_not_blank (a : ascii) : is_digit a = true -> negb (is_blank a) = true.
Proof.
  intros H. apply digit_cases in H. simpl in H.
  repeat (destruct H as [<-|H]; [reflexivity|]). destruct H.
Qed.

Lemma scan_sign_digit (a : ascii) (s : string) :
  is_digit a = true -> scan_sign (String a s) = (false, String a s).
Proof.
  intros H. apply digit_cases in H. simpl in H.
  repeat (destruct H as [<-|H]; [reflexivity|]). destruct H.
Qed.

Lemma not_a_word (a : ascii) (s : string) :
  is_digit a = true ->
  String.eqb (lower_all (String a s)) "inf" || String.eqb (lower_all (String a s)) "infinity"
    = false /\
  String.eqb (lower_all (String a s)) "nan" = false.
Proof.
  intros H. apply digit_cases in H. simpl in H.
  repeat (destruct H as [<-|H]; [split; reflexivity|]). destruct H.
Qed.

Lemma py_float_digits (a : ascii) (s : string) (v : N) (k : nat) :
  all_chars is_digit (String a s) = true ->
  scan_digits (String a s) false 0%N 0 = (v, S k, "") ->
  py_float (String a s) = Ok (FFinite (read_back v)).
Proof.
  intros Hd Hs. unfold py_float.
  assert (Hstrip : strip_by is_blank (String a s) = String a s).
  { apply strip_by_none. apply (all_chars_impl is_digit); [exact digit_not_blank|exact Hd]. }
  rewrite Hstrip.
  assert (Ha : is_digit a = true) by (simpl in Hd; apply andb_true_iff in Hd; tauto).
  rewrite (scan_sign_digit a s Ha).
  destruct (not_a_word a s Ha) as [-> ->].
  unfold scan_decimal. rewrite Hs. reflexivity.
Qed.

Lemma py_int_digits (a : ascii) (s : string) (v : N) (k : nat) :
  all_chars is_digit (String a s) = true ->
  scan_digits (String a s) false 0%N 0 = (v, S k, "") ->
  py_int (String a s) = Ok (Z.of_N v).
Proof.
  intros Hd Hs. unfold py_int.
  assert (Hstrip : strip_by is_blank (String a s) = String a s).
  { apply strip_by_none. apply (all_chars_impl is_digit); [exact digit_not_blank|exact Hd]. }
  rewrite Hstrip.
  assert (Ha : is_digit a = true) by (simpl in Hd; apply andb_true_iff in Hd; tauto).
  rewrite (scan_sign_digit a s Ha). rewrite Hs. reflexivity.
Qed.

Lemma int_of_read_back (v : N) :
  int_of_float (FFinite (read_back v)) = Ok (Z.of_N v) /\
  int_of_float (fdiv (FFinite (read_back v)) 1000) = Ok (Z.of_N v / 1000)%Z.
Proof.
  unfold read_back, int_of_float, fdiv.
  change (10 ^ Z.of_nat 0)%Z with 1%Z. change (0 - Z.of_nat 0)%Z with 0%Z.
  change (Z.of_N 0) with 0%Z.
  unfold Qdiv, Qmult, Qinv, inject_Z, Qpower. cbn [Qnum Qden].
  change (Z.pos (1 * 1)) with 1%Z. change (Z.pos (1 * 1 * 1000)) with 1000%Z.
  split; f_equal.
  - rewrite Z.quot_1_r. lia.
  - rewrite Z.quot_div_nonneg by lia. f_equal. lia.
Qed.

(** The digits of a positive number, as [str] prints them. *)
Lemma str_of_pos (p : positive) :
  exists (a : ascii) (s : string) (k : nat),
    NilEmpty.string_of_uint (Pos.to_uint p) = String a s /\
    str_of_int (Zpos p) = String a s /\
    all_chars is_digit (String a s) = true /\
    forall started cnt,
      scan_digits (String a s) started 0%N cnt = (Npos p, cnt + S k, "").
Proof.
  pose proof (DecimalPos.Unsigned.to_uint_nonnil p) as Hnn.
  pose proof (digits_of_uint (Pos.to_uint p)) as Hd.
  pose proof (scan_digits_uint (Pos.to_uint p)) as Hs.
  assert (Hstr : str_of_int (Zpos p) = NilEmpty.string_of_uint (Pos.to_uint p)).
  { unfold str_of_int. simpl. unfold NilZero.string_of_uint.
    destruct (Pos.to_uint p); [congruence|reflexivity..]. }
  assert (Hv : uint_acc (Pos.to_uint p) 0 = Npos p)
    by (rewrite uint_acc_zero; apply DecimalPos.Unsigned.of_to).
  rewrite Hstr.
  destruct (Pos.to_uint p) as [|d|d|d|d|d|d|d|d|d|d] eqn:E; [congruence|..];
    cbn [NilEmpty.string_of_uint] in *;
    eexists _, _, (Decimal.nb_digits d); (split; [reflexivity|]);
    (split; [reflexivity|]); (split; [exact Hd|]);
    intros started cnt; rewrite Hs, Hv; reflexivity.
Qed.

(** X10. For a positive millisecond count below 2^53 the duration
    formatter returns the clock text of the whole seconds in it (the count
    divided by 1000, rounded down): hours, minutes and seconds, each of two
    digits at least.  The bound is that of the source's arithmetic, which
    the embedding keeps exact: below 2^53 [float] holds the count as it is,
    and its thousandth lies at least a thousandth under the next whole
    second, further than a binary64 quotient of that size is rounded; from
    2^53 on the source can come out one second higher. *)
Theorem milliseconds_to_clock (ms : Z) :
  (0 < ms < 2 ^ 53)%Z -> format_duration (DInt ms) = hh_mm_ss (ms / 1000).
Proof.
  intros [Hpos _]. destruct ms as [|p|p]; [lia| |lia].
  destruct (str_of_pos p) as (a & s & k & _ & Hstr & Hd & Hscan).
  unfold format_duration, format_duration_body.
  change (duration_falsy (DInt (Z.pos p))) with false. cbv iota.
  cbn [duration_str_of]. rewrite Hstr.
  assert (Hstrip : strip (String a s) = String a s).
  { apply strip_by_none. apply (all_chars_impl is_digit); [exact digit_not_space|exact Hd]. }
  rewrite Hstrip.
  assert (Hdot : contains "." (String a s) = false)
    by (apply (contains_none is_digit); [reflexivity|exact Hd]).
  rewrite (remove_none _ _ Hdot).
  assert (Hisd : isdigit (String a s) = true) by (unfold isdigit; rewrite Hd; reflexivity).
  rewrite Hisd.
  rewrite (py_float_digits a s (Npos p) k Hd (Hscan false 0)).
  cbn [Py.bind]. rewrite (proj2 (int_of_read_back (Npos p))). reflexivity.
Qed.

Lemma milliseconds_to_clock_witness :
  (0 < 5025000 < 2 ^ 53)%Z /\ format_duration (DInt 5025000) = "01:23:45".
Proof.
  split; [split; reflexivity|].
  exact (milliseconds_to_clock 5025000 (conj eq_refl eq_refl)).
Defined.

(** The digits [{z:02d}] prints for a number that is not negative. *)
Lemma format_02d_nonneg (z : Z) :
  (0 <= z)%Z ->
  exists (a : ascii) (s : string) (k : nat),
    format_02d z = String a s /\
    all_chars is_digit (String a s) = true /\
    scan_digits (String a s) false 0%N 0 = (Z.to_N z, S k, "").
Proof.
  intros Hz. destruct z as [|p|p]; [| |lia].
  - exists "0"%char, "0", 1. repeat split; reflexivity.
  - destruct (str_of_pos p) as (a & s & k & _ & Hstr & Hd & Hscan).
    unfold format_02d. rewrite Hstr.
    destruct (String.length (String a s) <? 2).
    + exists "0"%char, (String a s), (S k). split; [reflexivity|]. split.
      * change (all_chars is_digit (String "0" (String a s)))
          with (true && all_chars is_digit (String a s)). exact Hd.
      * change (scan_digits (String "0" (String a s)) false 0%N 0)
          with (scan_digits (String a s) true 0%N 1). rewrite Hscan. reflexivity.
    + exists a, s, k. split; [reflexivity|]. split; [exact Hd|]. rewrite Hscan. reflexivity.
Qed.

Lemma format_02d_neg (p : positive) :
  exists (a : ascii) (s : string) (k : nat),
    format_02d (Zneg p) = String "-" (String a s) /\
    all_chars is_digit (String a s) = true /\
    scan_digits (String a s) false 0%N 0 = (Npos p, S k, "").
Proof.
  destruct (str_of_pos p) as (a & s & k & Hu & _ & Hd & Hscan).
  exists a, s, k. split; [|split; [exact Hd|rewrite Hscan; reflexivity]].
  assert (Hstr : str_of_int (Zneg p) = String "-" (String a s)).
  { unfold str_of_int. simpl. unfold NilZero.string_of_uint. rewrite <- Hu.
    pose proof (DecimalPos.Unsigned.to_uint_nonnil p) as Hnn.
    destruct (Pos.to_uint p); [congruence|reflexivity..]. }
  unfold format_02d. rewrite Hstr. reflexivity.
Qed.

Lemma format_02d_chars (z : Z) : all_chars number_char (format_02d z) = true.
Proof.
  assert (Hdig : forall s, all_chars is_digit s = true -> all_chars number_char s = true).
  { intros s. apply all_chars_impl. intros a Ha. unfold number_char. rewrite Ha. reflexivity. }
  destruct z as [|p|p].
  - reflexivity.
  - destruct (format_02d_nonneg (Zpos p)) as (a & s & k & -> & Hd & _); [lia|].
    apply Hdig, Hd.
  - destruct (format_02d_neg p) as (a & s & k & -> & Hd & _).
    change (all_chars number_char (String "-" (String a s)))
      with (true && all_chars number_char (String a s)). apply Hdig, Hd.
Qed.

Lemma format_02d_nonempty (z : Z) : truthy (format_02d z) = true.
Proof.
  destruct z as [|p|p].
  - reflexivity.
  - destruct (format_02d_nonneg (Zpos p)) as (a & s & k & -> & _); [lia|reflexivity].
  - destruct (format_02d_neg p) as (a & s & k & -> & _). reflexivity.
Qed.

(** [int] reads back what [{z:02d}] printed. *)
Lemma py_int_format_02d (z : Z) : py_int (format_02d z) = Ok z.
Proof.
  destruct z as [|p|p].
  - reflexivity.
  - destruct (format_02d_nonneg (Zpos p)) as (a & s & k & -> & Hd & Hscan); [lia|].
    rewrite (py_int_digits a s _ k Hd Hscan). reflexivity.
  - destruct (format_02d_neg p) as (a & s & k & E & Hd & Hscan).
    pose proof (format_02d_chars (Zneg p)) as Hc. rewrite E in *.
    unfold py_int.
    assert (Hstrip : strip_by is_blank (String "-" (String a s)) = String "-" (String a s)).
    { apply strip_by_none. apply (all_chars_impl number_char); [|exact Hc].
      intros c H. apply number_char_clock in H. apply blank_is_space.
      destruct (clock_char_plain c H) as [-> _]. reflexivity. }
    rewrite Hstrip. change (scan_sign (String "-" (String a s))) with (true, String a s).
    cbv beta iota. rewrite Hscan. reflexivity.
Qed.

Lemma py_float_format_02d (z : Z) :
  (0 <= z)%Z ->
  exists f, py_float (format_02d z) = Ok f /\ int_of_float f = Ok z.
Proof.
  intros Hz. destruct (format_02d_nonneg z Hz) as (a & s & k & -> & Hd & Hscan).
  exists (FFinite (read_back (Z.to_N z))). split.
  - exact (py_float_digits a s _ k Hd Hscan).
  - rewrite (proj1 (int_of_read_back (Z.to_N z))). f_equal. lia.
Qed.

Lemma contains_some (f : ascii -> bool) (c : ascii) (s : string) :
  contains c s = true -> f c = false -> all_chars f s = false.
Proof.
  induction s as [|a s IH]; simpl; [discriminate|].
  destruct (Ascii.eqb_spec a c) as [->|_].
  - intros _ ->. reflexivity.
  - intros H Hc. rewrite (IH H Hc). apply andb_false_r.
Qed.

(** X11. Normalizing is idempotent: the formatter maps every clock text it
    produces, for any number of seconds (negative ones included), to
    itself. *)
Theorem normalized_duration_is_fixed (total_seconds : Z) :
  format_duration (DStr (hh_mm_ss total_seconds)) = hh_mm_ss total_seconds.
Proof.
  set (h := (total_seconds / 3600)%Z).
  set (m := ((total_seconds mod 3600) / 60)%Z).
  set (sec := (total_seconds mod 60)%Z).
  assert (Hm : (0 <= m)%Z) by (unfold m; Z.div_mod_to_equations; lia).
  assert (Hs : (0 <= sec)%Z) by (unfold sec; Z.div_mod_to_equations; lia).
  assert (Hsum : (0 + (h * 3600 + m * 60 + sec) = total_seconds)%Z)
    by (unfold h, m, sec; Z.div_mod_to_equations; lia).
  assert (Htext : hh_mm_ss total_seconds
                  = format_02d h ++ String ":" (format_02d m ++ String ":" (format_02d sec)))
    by reflexivity.
  pose proof (format_02d_chars h) as Hch. pose proof (format_02d_chars m) as Hcm.
  pose proof (format_02d_chars sec) as Hcs.
  assert (Hnum : forall s, all_chars number_char s = true -> all_chars clock_char s = true)
    by (intros s; apply all_chars_impl; exact number_char_clock).
  assert (Hclock : all_chars clock_char (hh_mm_ss total_seconds) = true).
  { rewrite Htext. rewrite all_chars_app. cbn [all_chars]. rewrite all_chars_app.
    cbn [all_chars]. rewrite (Hnum _ Hch), (Hnum _ Hcm), (Hnum _ Hcs). reflexivity. }
  assert (Hcolon : forall z, contains ":" (format_02d z) = false)
    by (intros z; apply (contains_none number_char); [reflexivity|apply format_02d_chars]).
  assert (Hhas : contains ":" (hh_mm_ss total_seconds) = true).
  { rewrite Htext, contains_app. cbn [contains]. rewrite Ascii.eqb_refl. apply orb_true_r. }
  assert (Hstrip : strip (hh_mm_ss total_seconds) = hh_mm_ss total_seconds).
  { apply strip_by_none. apply (all_chars_impl clock_char); [|exact Hclock].
    intros c H. destruct (clock_char_plain c H) as [-> _]. reflexivity. }
  assert (Hquote : strip_chars quote_chars (hh_mm_ss total_seconds) = hh_mm_ss total_seconds).
  { apply strip_by_none. apply (all_chars_impl clock_char); [|exact Hclock].
    intros c H. destruct (clock_char_plain c H) as (_ & -> & _). reflexivity. }
  assert (Hdot : contains "." (hh_mm_ss total_seconds) = false).
  { apply (contains_none clock_char); [reflexivity|exact Hclock]. }
  assert (Hsplit : split ":" (hh_mm_ss total_seconds)
                   = [format_02d h; format_02d m; format_02d sec]).
  { rewrite Htext. rewrite (split_app _ _ _ (Hcolon h)), (split_app _ _ _ (Hcolon m)).
    rewrite (split_none _ _ (Hcolon sec)). reflexivity. }
  assert (Hnonempty : truthy (hh_mm_ss total_seconds) = true).
  { rewrite Htext. pose proof (format_02d_nonempty h) as Hh.
    destruct (format_02d h); [discriminate|reflexivity]. }
  assert (Hclk : clock_seconds (hh_mm_ss total_seconds) = Ok (h * 3600 + m * 60 + sec)%Z).
  { unfold clock_seconds. rewrite Hhas, Hsplit.
    rewrite (py_int_format_02d h), (py_int_format_02d m). cbn [Py.bind].
    destruct (py_float_format_02d sec Hs) as (f & -> & Hf). cbn [Py.bind].
    rewrite Hf. reflexivity. }
  unfold format_duration, format_duration_body.
  cbn [duration_falsy]. rewrite Hnonempty. cbn [negb]. cbv iota.
  cbn [duration_str_of]. rewrite Hstrip.
  rewrite (remove_none _ _ Hdot).
  assert (Hnd : isdigit (hh_mm_ss total_seconds) = false).
  { unfold isdigit. rewrite (contains_some is_digit ":" _ Hhas eq_refl). apply andb_false_r. }
  rewrite Hnd. rewrite Hquote.
  unfold split_days. rewrite Hdot. cbn [andb Py.bind snd fst].
  rewrite Hclk. cbn [Py.bind]. rewrite Hsum. reflexivity.
Qed.

End FormatMore.

(** ** Reconciliation engine: the managed scope of the configured roots *)

Module ScopeMore.
Import Py Reconcile ScopeFacts.
Local Open Scope list_scope.





(** X13. On a table in which no cycle can be reached from the start id,
    every recursion depth above the number of groups of the table suffices,
    and the closure is the same list at every depth that suffices: no table
    with fewer groups than the recursion limit of the interpreter can
    exhaust it. *)
Theorem closure_depth_is_bounded (groups : gmap string group) (group_id : string)
    (groups_change : list string) :
  cycle_free_from groups group_id ->
  exists r,
    (forall depth, size (dom groups) < depth ->
       get_groups_change depth groups group_id groups_change = Some r) /\
    (forall depth r',
       get_groups_change depth groups group_id groups_change = Some r' -> r' = r).
Proof.
  intros Hfree.
  destruct (get_groups_change_returns groups group_id groups_change Hfree) as [r Hr].
  exists r. split.
  - intros depth Hd.
    apply (get_groups_change_mono groups (S (size (dom groups)))); [lia|exact Hr].
  - intros depth r' Hr'.
    assert (H1 : get_groups_change (depth + S (size (dom groups))) groups group_id
                   groups_change = Some r')
      by (apply (get_groups_change_mono groups depth); [lia|exact Hr']).
    assert (H2 : get_groups_change (depth + S (size (dom groups))) groups group_id
                   groups_change = Some r)
      by (apply (get_groups_change_mono groups (S (size (dom groups)))); [lia|exact Hr]).
    congruence.
Qed.

Lemma closure_depth_is_bounded_witness :
  cycle_free_from chain "b2867" /\
  exists r,
    (forall depth, size (dom chain) < depth ->
       get_groups_change depth chain "b2867" [] = Some r) /\
    (forall depth r', get_groups_change depth chain "b2867" [] = Some r' -> r' = r).
Proof.
  assert (H : cycle_free_from chain "b2867").
  { intros x Hx Hc.
    assert (Hg : get_groups_change 3 chain "b2867" [] = None).
    { apply get_groups_change_stuck. exists x. auto. }
    vm_compute in Hg. discriminate. }
  split; [exact H|]. exact (closure_depth_is_bounded chain "b2867" [] H).
Defined.

Lemma changeable_from_returns (groups : gmap string group) (roots : list string) :
  (forall root, In root roots -> cycle_free_from groups root) ->
  forall start, exists scope,
    changeable_from (S (size (dom groups))) groups roots start = Some scope.
Proof.
  induction roots as [|root rest IH]; intros Hfree start; simpl; [eauto|].
  destruct (get_groups_change_returns groups root start (Hfree root (or_introl eq_refl)))
    as [mid Hmid].
  simpl in Hmid. rewrite Hmid. apply IH. intros r Hr. apply Hfree. right. exact Hr.
Qed.

Lemma changeable_from_stuck (depth : nat) (groups : gmap string group)
    (roots : list string) (root : string) :
  In root roots -> reaches_cycle groups root ->
  forall start, changeable_from depth groups roots start = None.
Proof.
  intros Hin Hc. induction roots as [|r rest IH]; intros start; [destruct Hin|].
  simpl. destruct Hin as [->|Hin].
  - rewrite get_groups_change_stuck by exact Hc. reflexivity.
  - destruct (get_groups_change depth groups r start); [apply IH, Hin|reflexivity].
Qed.

Lemma changeable_from_mono (groups : gmap string group) (d d' : nat)
    (roots : list string) :
  d <= d' ->
  forall start scope,
    changeable_from d groups roots start = Some scope ->
    changeable_from d' groups roots start = Some scope.
Proof.
  intros Hle. induction roots as [|root rest IH]; intros start scope H; simpl in *;
    [exact H|].
  destruct (get_groups_change d groups root start) as [mid|] eqn:Hmid; [|discriminate].
  rewrite (get_groups_change_mono groups d d' root start mid Hle Hmid).
  apply IH. exact H.
Qed.

(** X14. How far the sync of a non-empty list of rows gets depends on the
    recursion depth the closure of the managed scope is allowed.  At a
    depth greater than the number of groups of the table the sync reaches
    its batched call exactly when no cycle of the table can be reached from
    a configured root.  At any depth, reaching the call needs the roots to
    be free of cycles: with a cycle that a root reaches the sync ends in its
    outer handler at every depth and no row is processed, whatever the rows
    are.  An empty list of rows never reads the group table. *)
Theorem sync_runs_iff_roots_cycle_free (devices : list device)
    (groups_dict : gmap string group) (update : roster_update)
    (updates : list roster_update) :
  (forall depth, size (dom groups_dict) < depth ->
     ((exists calls,
         sync_vehicles_with_geotab depth devices groups_dict (update :: updates)
           = Some calls) <->
      (forall root, In root groups_change_roots -> cycle_free_from groups_dict root))) /\
  (forall depth calls,
     sync_vehicles_with_geotab depth devices groups_dict (update :: updates) = Some calls ->
     forall root, In root groups_change_roots -> cycle_free_from groups_dict root) /\
  (forall root, In root groups_change_roots -> reaches_cycle groups_dict root ->
     forall depth,
       sync_vehicles_with_geotab depth devices groups_dict (update :: updates) = None) /\
  (forall depth, sync_vehicles_with_geotab depth devices groups_dict [] = Some []).
Proof.
  assert (Hneeds : forall depth calls,
            sync_vehicles_with_geotab depth devices groups_dict (update :: updates)
              = Some calls ->
            forall root, In root groups_change_roots -> cycle_free_from groups_dict root).
  { unfold sync_vehicles_with_geotab. intros depth calls H root Hroot x Hx Hc.
    rewrite (changeable_from_stuck depth groups_dict groups_change_roots root Hroot) in H;
      [discriminate|].
    exists x. auto. }
  split; [|split; [exact Hneeds|split; [|reflexivity]]].
  - intros depth Hd. split.
    + intros [calls H]. exact (Hneeds depth calls H).
    + intros Hfree. unfold sync_vehicles_with_geotab.
      destruct (changeable_from_returns groups_dict groups_change_roots Hfree [])
        as [scope Hs].
      rewrite (changeable_from_mono groups_dict (S (size (dom groups_dict))) depth
                 groups_change_roots Hd [] scope Hs).
      eauto.
  - intros root Hroot Hc depth. unfold sync_vehicles_with_geotab.
    rewrite (changeable_from_stuck depth groups_dict groups_change_roots root Hroot Hc).
    reflexivity.
Qed.

Lemma sync_runs_iff_roots_cycle_free_witness :
  (size (dom chain) < 1000 /\
   sync_vehicles_with_geotab 1000 [truck7] chain [row_naming_outside; row_dropping_scope]
     = Some [mkDevice "G9AAAAAAAAAA" (Some "1HGCM82633A004352") "Truck 7"
               (Some "1HGCM82633A004352") (Some [GroupObj "b1234"; GroupObj "b2869"])]) /\
  (forall root, In root groups_change_roots -> cycle_free_from chain root).
Proof.
  assert (Hsize : size (dom chain) < 1000) by (vm_compute; lia).
  assert (Hrun : sync_vehicles_with_geotab 1000 [truck7] chain
                   [row_naming_outside; row_dropping_scope]
                 = Some [mkDevice "G9AAAAAAAAAA" (Some "1HGCM82633A004352") "Truck 7"
                           (Some "1HGCM82633A004352")
                           (Some [GroupObj "b1234"; GroupObj "b2869"])])
    by (vm_compute; reflexivity).
  split; [split; [exact Hsize|exact Hrun]|].
  apply (proj1 (proj1 (sync_runs_iff_roots_cycle_free [truck7] chain row_naming_outside
                         [row_dropping_scope]) 1000 Hsize)).
  eexists. exact Hrun.
Defined.

End ScopeMore.

(** ** Reconciliation engine: what the batched call holds *)

Module DiffMore.
Import Py Reconcile DiffFacts.
Local Open Scope list_scope.

Lemma diff_device_fields (changeable : list string) (d d' : device)
    (u : roster_update) (b : bool) :
  diff_device changeable d u = Ok (b, d') ->
  d_serialNumber d' = d_serialNumber d /\
  d_engineVehicleIdentificationNumber d' = d_engineVehicleIdentificationNumber d /\
  d_name d' = row_name u /\
  get_or_empty (d_vehicleIdentificationNumber d') = u_vin u.
Proof.
  unfold diff_device. intros H.
  destruct (group_ids (groups_or_empty d)) as [ids|e]; simpl in H; [|discriminate].
  destruct (add_requested changeable ids (u_groups u)
              (keep_unmanaged changeable (groups_or_empty d)) []) as [new changes].
  inversion H; subst; simpl. repeat split.
  - destruct (String.eqb_spec (d_name d) (row_name u)) as [E|E]; simpl; congruence.
  - destruct (String.eqb_spec (get_or_empty (d_vehicleIdentificationNumber d)) (u_vin u))
      as [E|E]; simpl; congruence.
Qed.

(** X15. Every entity of the batched call stems from a row of the roster
    and from the first registered device whose serial number and engine VIN
    are the row's: it has that device's serial number and engine VIN, the
    row's name (its serial number when the name is empty) and the row's
    VIN.  So a row that matches no device adds nothing, and there are at
    most as many entities as rows. *)
Theorem batched_entities_stem_from_rows (changeable : list string)
    (devices : list device) (updates : list roster_update) :
  length (api_calls changeable devices updates) <= length updates /\
  forall e, In e (api_calls changeable devices updates) ->
    exists u d,
      In u updates /\ In d devices /\
      find_matching_device devices u = Some d /\
      d_serialNumber d = u_serial u /\
      get_or_empty (d_engineVehicleIdentificationNumber d) = u_vin u /\
      d_serialNumber e = d_serialNumber d /\
      d_engineVehicleIdentificationNumber e = d_engineVehicleIdentificationNumber d /\
      d_name e = row_name u /\
      get_or_empty (d_vehicleIdentificationNumber e) = u_vin u.
Proof.
  split.
  - induction updates as [|u rest IH]; simpl; [lia|].
    destruct (process_update changeable devices u); simpl; lia.
  - intros e He. apply api_calls_in in He. destruct He as (u & d & Hu & Hq).
    apply process_update_queued in Hq. destruct Hq as [Hfind Hdiff].
    exists u, d. split; [exact Hu|].
    pose proof Hfind as Hf. unfold find_matching_device in Hf.
    apply find_some in Hf. destruct Hf as [Hin Hm].
    apply andb_true_iff in Hm. destruct Hm as [Hs Hv].
    apply String.eqb_eq in Hs. apply String.eqb_eq in Hv.
    destruct (diff_device_fields _ _ _ _ _ Hdiff) as (F1 & F2 & F3 & F4).
    repeat split; assumption.
Qed.

Lemma fst_add_requested_indep (changeable : list string) (requested : list string) :
  forall current current' new changes changes',
    fst (add_requested changeable current requested new changes)
    = fst (add_requested changeable current' requested new changes').
Proof.
  induction requested as [|r rest IH]; intros current current' new changes changes'; simpl.
  - reflexivity.
  - destruct (mem r changeable && negb (mem r new)); apply IH.
Qed.

Lemma add_requested_shape (changeable current : list string) (requested : list string) :
  forall new changes,
    exists added,
      fst (add_requested changeable current requested new changes) = new ++ added /\
      forall g, In g added -> mem g changeable = true.
Proof.
  induction requested as [|r rest IH]; intros new changes; simpl.
  - exists []. rewrite app_nil_r. split; [reflexivity|intros g []].
  - destruct (mem r changeable) eqn:Hc; simpl; [|apply IH].
    destruct (mem r new); simpl; [apply IH|].
    destruct (IH (new ++ [r])
                (if negb (mem r current) then changes ++ [r] else changes))
      as (added & -> & Hadded).
    exists (r :: added). rewrite <- app_assoc. split; [reflexivity|].
    intros g [<-|Hg]; [exact Hc|apply Hadded, Hg].
Qed.

Lemma keep_unmanaged_map (changeable : list string) (ids : list string) :
  keep_unmanaged changeable (map GroupObj ids)
  = List.filter (fun i => negb (mem i changeable)) ids.
Proof.
  induction ids as [|i ids IH]; simpl; [reflexivity|].
  rewrite IH. reflexivity.
Qed.

Lemma group_ids_map (ids : list string) : group_ids (map GroupObj ids) = Ok ids.
Proof. induction ids as [|i ids IH]; simpl; [reflexivity|]. rewrite IH. reflexivity. Qed.

Lemma filter_all {A : Type} (f : A -> bool) (l : list A) :
  (forall x, In x l -> f x = true) -> List.filter f l = l.
Proof.
  induction l as [|x l IH]; intros H; simpl; [reflexivity|].
  rewrite (H x (or_introl eq_refl)), IH; [reflexivity|]. intros y Hy. apply H. right. exact Hy.
Qed.

Lemma filter_none {A : Type} (f : A -> bool) (l : list A) :
  (forall x, In x l -> f x = false) -> List.filter f l = [].
Proof.
  induction l as [|x l IH]; intros H; simpl; [reflexivity|].
  rewrite (H x (or_introl eq_refl)). apply IH. intros y Hy. apply H. right. exact Hy.
Qed.

(** X16. The diff is idempotent: the entity it computes for a device and
    a row is a fixed point, so that once the update is applied the same row
    asks for no further update and would write the same entity again. *)
Theorem diff_is_idempotent (changeable : list string) (d d' : device)
    (u : roster_update) (needs_update : bool) :
  diff_device changeable d u = Ok (needs_update, d') ->
  diff_device changeable d' u = Ok (false, d').
Proof.
  intros H. destruct (diff_device_fields _ _ _ _ _ H) as (F1 & F2 & F3 & F4).
  unfold diff_device in H.
  destruct (group_ids (groups_or_empty d)) as [ids|e]; simpl in H; [|discriminate].
  set (kept := keep_unmanaged changeable (groups_or_empty d)) in H.
  destruct (add_requested changeable ids (u_groups u) kept []) as [new changes] eqn:Hadd.
  assert (Hg : d_groups d' = Some (map GroupObj new)) by (inversion H; reflexivity).
  assert (Hnew : fst (add_requested changeable ids (u_groups u) kept []) = new)
    by (rewrite Hadd; reflexivity).
  destruct (add_requested_shape changeable ids (u_groups u) kept []) as (added & Hshape & Hadded).
  rewrite Hnew in Hshape.
  assert (Hkept : keep_unmanaged changeable (map GroupObj new) = kept).
  { rewrite keep_unmanaged_map, Hshape, List.filter_app.
    rewrite filter_all, filter_none; [apply app_nil_r| |].
    - intros g Hin. rewrite (Hadded g Hin). reflexivity.
    - intros g Hin. unfold kept in Hin. apply keep_unmanaged_in in Hin.
      destruct Hin as [_ ->]. reflexivity. }
  unfold diff_device, groups_or_empty. rewrite Hg, group_ids_map. cbn [Py.bind].
  rewrite Hkept.
  assert (Hnew' : fst (add_requested changeable new (u_groups u) kept []) = new)
    by (rewrite <- Hnew at 2; apply fst_add_requested_indep).
  assert (Hchg : snd (add_requested changeable new (u_groups u) kept []) = []).
  { destruct (snd (add_requested changeable new (u_groups u) kept [])) as [|c cs] eqn:E;
      [reflexivity|exfalso].
    assert (Hne : snd (add_requested changeable new (u_groups u) kept []) <> [])
      by (rewrite E; discriminate).
    apply add_requested_changes in Hne. destruct Hne as [Hne|(g & H1 & H2 & H3 & H4)];
      [congruence|].
    apply mem_false in H4. apply H4.
    rewrite <- Hnew. apply add_requested_new. right. auto. }
  destruct (add_requested changeable new (u_groups u) kept []) as [new2 changes2].
  simpl in Hnew', Hchg. subst new2 changes2.
  rewrite F3, F4, !String.eqb_refl. simpl.
  destruct d' as [s ev n v g]. simpl in *. subst g n. reflexivity.
Qed.

Lemma diff_is_idempotent_witness :
  diff_device ["b2868"; "b2869"] truck7 row_naming_outside
    = Ok (true, mkDevice "G9AAAAAAAAAA" (Some "1HGCM82633A004352") "Truck 7"
                  (Some "1HGCM82633A004352") (Some [GroupObj "b1234"; GroupObj "b2869"])) /\
  diff_device ["b2868"; "b2869"]
    (mkDevice "G9AAAAAAAAAA" (Some "1HGCM82633A004352") "Truck 7"
       (Some "1HGCM82633A004352") (Some [GroupObj "b1234"; GroupObj "b2869"]))
    row_naming_outside
    = Ok (false, mkDevice "G9AAAAAAAAAA" (Some "1HGCM82633A004352") "Truck 7"
                   (Some "1HGCM82633A004352") (Some [GroupObj "b1234"; GroupObj "b2869"])).
Proof.
  split; [reflexivity|].
  exact (diff_is_idempotent ["b2868"; "b2869"] truck7 _ row_naming_outside true eq_refl).
Defined.

Lemma group_ids_fails (gs : list group_ref) :
  (exists s, In (GroupBare s) gs) <-> group_ids gs = Raise TypeError.
Proof.
  induction gs as [|[i|b] rest IH]; simpl.
  - split; [intros [s []]|discriminate].
  - split.
    + intros [s [E|Hin]]; [discriminate|].
      rewrite (proj1 IH (ex_intro _ s Hin)). reflexivity.
    + intros H. destruct (group_ids rest) as [ids|e]; simpl in H; [discriminate|].
      inversion H; subst. destruct (proj2 IH eq_refl) as [s Hs]. exists s. auto.
  - split; [reflexivity|]. intros _. exists b. auto.
Qed.

(** X17. A row fails exactly when the device it matches lists a group as
    a bare id string instead of an object: the diff then raises [TypeError],
    whatever the row would change, the row is skipped and the rows after it
    are processed as without it. *)
Theorem bare_group_fails_the_row (changeable : list string) (devices : list device)
    (u : roster_update) (d : device) :
  find_matching_device devices u = Some d ->
  ((exists s, In (GroupBare s) (groups_or_empty d)) <->
   process_update changeable devices u = Failed TypeError) /\
  (forall e, process_update changeable devices u = Failed e ->
     e = TypeError /\
     forall rest, api_calls changeable devices (u :: rest)
                  = api_calls changeable devices rest).
Proof.
  intros Hfind. unfold process_update. rewrite Hfind.
  assert (Hdiff : (exists s, In (GroupBare s) (groups_or_empty d)) <->
                  diff_device changeable d u = Raise TypeError).
  { rewrite group_ids_fails. unfold diff_device.
    destruct (group_ids (groups_or_empty d)) as [ids|e]; simpl.
    - destruct (add_requested changeable ids (u_groups u)
                  (keep_unmanaged changeable (groups_or_empty d)) []).
      split; discriminate.
    - split; intros E; inversion E; reflexivity. }
  split.
  - rewrite Hdiff. destruct (diff_device changeable d u) as [[[] r]|e]; split;
      try discriminate; congruence.
  - intros e He.
    assert (Hr : diff_device changeable d u = Raise e)
      by (destruct (diff_device changeable d u) as [[[] r]|e']; congruence).
    assert (Het : e = TypeError).
    { unfold diff_device in Hr.
      destruct (group_ids (groups_or_empty d)) as [ids|e'] eqn:Hids; simpl in Hr.
      - destruct (add_requested changeable ids (u_groups u)
                    (keep_unmanaged changeable (groups_or_empty d)) []). discriminate.
      - inversion Hr; subst.
        assert (Hx : exists ids, group_ids (groups_or_empty d) = Raise e) by eauto.
        clear -Hids. revert Hids. generalize (groups_or_empty d).
        induction l as [|[i|b] rest IH]; simpl; intros H; [discriminate| |congruence].
        destruct (group_ids rest); simpl in H; [discriminate|]. apply IH. congruence. }
    split; [exact Het|]. intros rest. simpl. unfold process_update. rewrite Hfind, Hr.
    reflexivity.
Qed.

Lemma bare_group_fails_the_row_witness :
  find_matching_device
    [mkDevice "G9AAAAAAAAAA" (Some "1HGCM82633A004352") "Old name" None
       (Some [GroupBare "b1234"])] row_dropping_scope
    = Some (mkDevice "G9AAAAAAAAAA" (Some "1HGCM82633A004352") "Old name" None
              (Some [GroupBare "b1234"])) /\
  process_update ["b2868"]
    [mkDevice "G9AAAAAAAAAA" (Some "1HGCM82633A004352") "Old name" None
       (Some [GroupBare "b1234"])] row_dropping_scope = Failed TypeError.
Proof.
  split; [reflexivity|].
  apply (proj1 (bare_group_fails_the_row ["b2868"]
                  [mkDevice "G9AAAAAAAAAA" (Some "1HGCM82633A004352") "Old name" None
                     (Some [GroupBare "b1234"])] row_dropping_scope _ eq_refl)).
  exists "b1234". left. reflexivity.
Defined.

End DiffMore.

(** ** Reconciliation engine: rows written and read back *)

Module RosterMore.
Import Py Digits DigitFacts Reconcile RosterSpec RosterFacts.

Lemma lstrip_by_shorter (f : ascii -> bool) (s : string) :
  lstrip_by f s = s \/ String.length (lstrip_by f s) < String.length s.
Proof.
  induction s as [|a s IH]; simpl; [auto|].
  destruct (f a); [|auto]. right. destruct IH as [->|H]; lia.
Qed.

Lemma rstrip_by_length (f : ascii -> bool) (s : string) :
  String.length (rstrip_by f s) <= String.length s.
Proof.
  induction s as [|a s IH]; simpl; [lia|].
  destruct (rstrip_by f s) as [|b t]; [destruct (f a); simpl; lia|].
  simpl in *. lia.
Qed.

(** A text that [strip] leaves alone has no blank at either end. *)
Lemma stripped_ends (f : ascii -> bool) (s : string) :
  strip_by f s = s -> lstrip_by f s = s /\ rstrip_by f s = s.
Proof.
  unfold strip_by. intros H.
  destruct (lstrip_by_shorter f s) as [E|Hlt].
  - rewrite E in H. auto.
  - exfalso. pose proof (rstrip_by_length f (lstrip_by f s)) as Hle.
    rewrite H in Hle. lia.
Qed.

Lemma rstrip_by_app (f : ascii -> bool) (x y : string) :
  rstrip_by f y = y -> y <> "" -> rstrip_by f (x ++ y) = x ++ y.
Proof.
  intros Hy Hne. induction x as [|a x IH]; [exact Hy|].
  change (String a x ++ y) with (String a (x ++ y)). cbn [rstrip_by].
  rewrite IH. destruct (x ++ y) eqn:E; [exfalso|reflexivity].
  destruct x as [|b x']; [exact (Hne E)|].
  change (String b (x' ++ y) = "") in E. discriminate.
Qed.

Lemma rstrip_by_blank_tail (f : ascii -> bool) (x e : string) :
  all_chars f e = true -> rstrip_by f (x ++ e) = rstrip_by f x.
Proof.
  intros He. induction x as [|a x IH].
  - change ("" ++ e) with e. induction e as [|b e IHe]; simpl in *; [reflexivity|].
    apply andb_true_iff in He. destruct He as [Hb He].
    rewrite (IHe He), Hb. reflexivity.
  - change (String a x ++ e) with (String a (x ++ e)). cbn [rstrip_by].
    rewrite IH. reflexivity.
Qed.

Lemma comma_then (f : ascii -> bool) (t : string) :
  f ","%char = false -> rstrip_by f t = t -> rstrip_by f (String "," t) = String "," t.
Proof.
  intros Hc Ht. simpl. rewrite Ht. destruct t; [rewrite Hc|]; reflexivity.
Qed.

(** The group ids of a row, joined by bars and split again. *)
Lemma groups_of_joined (gs : list string) :
  Forall plain_group gs ->
  groups_of_field (join "|" gs) = gs /\
  all_chars field_char (join "|" gs) = true /\
  rstrip_by is_space (join "|" gs) = join "|" gs /\
  (gs <> [] -> join "|" gs <> "").
Proof.
  assert (Hbar : forall g, plain_group g -> contains "|" g = false).
  { intros g [Hc _]. apply (contains_none group_char); [reflexivity|exact Hc]. }
  assert (Hfield : forall g, plain_group g -> all_chars field_char g = true).
  { intros g [Hc _]. apply (all_chars_impl group_char); [|exact Hc].
    intros a H. unfold group_char in H. apply andb_true_iff in H. tauto. }
  induction gs as [|g gs IH]; intros Hall.
  - repeat split; try reflexivity. congruence.
  - inversion Hall as [|? ? Hg Hrest]; subst. specialize (IH Hrest).
    destruct IH as (IH1 & IH2 & IH3 & IH4).
    pose proof Hg as (Hgc & Hgs & Hgne).
    destruct (stripped_ends is_space g Hgs) as [_ Hgr].
    assert (Htruthy : Is_true (truthy g)) by (destruct g; [congruence|exact I]).
    destruct gs as [|g' gs'].
    + change (join "|" [g]) with g.
      unfold groups_of_field. rewrite (split_none _ _ (Hbar g Hg)). cbn [map].
      rewrite Hgs. rewrite (filter_cons_True (fun t : string => Is_true (truthy t)) g _ Htruthy).
      repeat split; auto.
    + assert (Hne : join "|" (g' :: gs') <> "") by (apply IH4; discriminate).
      change (join "|" (g :: g' :: gs')) with (g ++ String "|" (join "|" (g' :: gs'))).
      repeat split.
      * unfold groups_of_field in *. rewrite (split_app _ _ _ (Hbar g Hg)). cbn [map].
        rewrite Hgs. rewrite (filter_cons_True (fun t : string => Is_true (truthy t)) g _ Htruthy). f_equal. exact IH1.
      * rewrite all_chars_app. cbn [all_chars]. rewrite (Hfield g Hg), IH2. reflexivity.
      * apply rstrip_by_app; [|discriminate].
        cbn [rstrip_by]. rewrite IH3.
        destruct (join "|" (g' :: gs')); [congruence|reflexivity].
      * intros _ E. destruct g; [congruence|discriminate].
Qed.

Lemma parse_rendered_row (u : roster_update) (eol : string) :
  plain_row u -> all_chars is_space eol = true ->
  parse_line (render_row u ++ eol) = inl u.
Proof.
  intros (Hs & Hi & Hv & Hn & Hg) Heol.
  destruct u as [serial id vin name groups]. simpl in *.
  destruct (groups_of_joined groups Hg) as (G1 & G2 & G3 & G4).
  set (G := join "|" groups) in *.
  assert (Hcomma : forall f, plain_field f -> contains "," f = false).
  { intros f [Hc _]. apply (contains_none field_char); [reflexivity|exact Hc]. }
  assert (Hrender : render_row (mkUpdate serial id vin name groups)
                    = serial ++ String "," (id ++ String "," (vin ++ String ","
                        (name ++ String "," G)))) by reflexivity.
  rewrite Hrender. clear Hrender.
  set (line := serial ++ String "," (id ++ String "," (vin ++ String ","
                 (name ++ String "," G)))).
  assert (Hchars : all_chars (fun a => negb (Ascii.eqb a CR) && negb (Ascii.eqb a LF)) line
                   = true).
  { assert (Himp : forall t, all_chars field_char t = true ->
               all_chars (fun a => negb (Ascii.eqb a CR) && negb (Ascii.eqb a LF)) t = true).
    { intros t. apply all_chars_impl. intros a H. unfold field_char in H.
      destruct (Ascii.eqb a ","); [discriminate|].
      destruct (Ascii.eqb a CR); [discriminate|]. destruct (Ascii.eqb a LF); [discriminate|].
      reflexivity. }
    unfold line. rewrite !all_chars_app. cbn [all_chars].
    rewrite !all_chars_app. cbn [all_chars]. rewrite !all_chars_app. cbn [all_chars].
    rewrite !all_chars_app. cbn [all_chars].
    rewrite (Himp _ (proj1 Hs)), (Himp _ (proj1 Hi)), (Himp _ (proj1 Hv)),
      (Himp _ (proj1 Hn)), (Himp _ G2). reflexivity. }
  assert (Hstrip : strip (line ++ eol) = line).
  { unfold strip, strip_by.
    assert (Hl : lstrip_by is_space (line ++ eol) = line ++ eol).
    { unfold line. destruct (stripped_ends is_space serial (proj2 Hs)) as [Hls _].
      destruct serial as [|a serial']; [reflexivity|].
      assert (Ha : is_space a = false).
      { simpl in Hls. destruct (is_space a); [|reflexivity]. exfalso.
        destruct (lstrip_by_shorter is_space serial') as [E|Hlt];
          [rewrite E in Hls|]; apply (f_equal String.length) in Hls; simpl in Hls; lia. }
      match goal with
      | |- lstrip_by _ ((String a ?x ++ ?y) ++ ?z) = _ =>
          change ((String a x ++ y) ++ z) with (String a ((x ++ y) ++ z))
      end.
      cbn [lstrip_by]. rewrite Ha. reflexivity. }
    rewrite Hl, (rstrip_by_blank_tail is_space line eol Heol).
    unfold line.
    apply rstrip_by_app; [|discriminate].
    apply comma_then; [reflexivity|].
    apply rstrip_by_app; [|discriminate].
    apply comma_then; [reflexivity|].
    apply rstrip_by_app; [|discriminate].
    apply comma_then; [reflexivity|].
    apply rstrip_by_app; [|discriminate].
    apply comma_then; [reflexivity|exact G3]. }
  unfold parse_line, tokens_of. rewrite Hstrip.
  rewrite (remove_none CR line), (remove_none LF line).
  2:{ apply (contains_none (fun a => negb (Ascii.eqb a CR) && negb (Ascii.eqb a LF)));
      [reflexivity|exact Hchars]. }
  2:{ apply (contains_none (fun a => negb (Ascii.eqb a CR) && negb (Ascii.eqb a LF)));
      [reflexivity|exact Hchars]. }
  unfold line.
  rewrite (split_app _ _ _ (Hcomma _ Hs)), (split_app _ _ _ (Hcomma _ Hi)),
    (split_app _ _ _ (Hcomma _ Hv)), (split_app _ _ _ (Hcomma _ Hn)).
  rewrite split_none by (apply (contains_none field_char); [reflexivity|exact G2]).
  rewrite (proj2 Hs), (proj2 Hi), (proj2 Hv), (proj2 Hn), G1. reflexivity.
Qed.

(** X18. Writing a row of ASCII text as a roster line and parsing the
    line gives the row back: for fields that hold no comma and no line
    break and have no blanks around them, and group ids that hold no bar
    either and are not empty, whatever line end (or other ASCII blanks)
    follows the line.  The group list may be empty. *)
Theorem roster_row_round_trip (u : roster_update) (eol : string) :
  plain_row u -> isascii (render_row u) = true -> all_chars is_space eol = true ->
  parse_line (render_row u ++ eol) = inl u.
Proof.
  intros Hplain _ Heol. exact (parse_rendered_row u eol Hplain Heol).
Qed.

Lemma roster_row_round_trip_witness :
  (plain_row (mkUpdate "G9AAAAAAAAAA" "17" "1HGCM82633A004352" "Truck 7"
                ["b2868"; "b2869"]) /\
   isascii (render_row (mkUpdate "G9AAAAAAAAAA" "17" "1HGCM82633A004352" "Truck 7"
                          ["b2868"; "b2869"])) = true /\
   all_chars is_space (String CR (String LF EmptyString)) = true) /\
  parse_line ("G9AAAAAAAAAA,17,1HGCM82633A004352,Truck 7,b2868|b2869"
              ++ String CR (String LF EmptyString))
    = inl (mkUpdate "G9AAAAAAAAAA" "17" "1HGCM82633A004352" "Truck 7" ["b2868"; "b2869"]).
Proof.
  assert (H : plain_row (mkUpdate "G9AAAAAAAAAA" "17" "1HGCM82633A004352" "Truck 7"
                           ["b2868"; "b2869"])).
  { unfold plain_row, plain_field. simpl.
    repeat split; try reflexivity.
    repeat constructor; try reflexivity; discriminate. }
  split; [split; [exact H|split; reflexivity]|].
  exact (roster_row_round_trip _ (String CR (String LF EmptyString)) H eq_refl eq_refl).
Defined.

Lemma get_after (s : string) (c : ascii) (t : string) :
  String.get (String.length s) (s ++ String c t) = Some c.
Proof.
  induction s as [|a s IH]; [reflexivity|].
  change (String a s ++ String c t) with (String a (s ++ String c t)). simpl. exact IH.
Qed.

Lemma startswith_app (s t : string) :
  startswith "G" s = true -> startswith "G" (s ++ t) = true.
Proof.
  unfold startswith. destruct s as [|a s]; [discriminate|].
  change (String a s ++ t) with (String a (s ++ t)). cbn [String.prefix].
  destruct (ascii_dec "G" a); [intros _; destruct (s ++ t); reflexivity|discriminate].
Qed.

Lemma parse_lines_none (lines : list string) :
  forall n, (forall l, In l lines -> ~ well_formed l) -> fst (parse_lines n lines) = [].
Proof.
  induction lines as [|line rest IH]; intros n H; simpl; [reflexivity|].
  specialize (IH (S n) (fun l Hl => H l (or_intror Hl))).
  destruct (parse_lines (S n) rest) as [us ws]. simpl in IH. subst us.
  destruct (parse_line line) as [u|k] eqn:E; [|reflexivity].
  exfalso. apply (H line (or_introl eq_refl)). apply parse_line_well_formed. eauto.
Qed.

(** The stripped text of a written row is the row as written. *)
Lemma strip_rendered_row (u : roster_update) (eol : string) :
  plain_row u -> all_chars is_space eol = true ->
  strip (render_row u ++ eol) = render_row u.
Proof.
  intros (Hs & Hi & Hv & Hn & Hgr) Heol.
  destruct (groups_of_joined (u_groups u) Hgr) as (_ & _ & G3 & _).
  change (render_row u)
    with (u_serial u ++ String "," (u_id u ++ String "," (u_vin u ++ String ","
            (u_name u ++ String "," (join "|" (u_groups u)))))).
  unfold strip, strip_by.
  assert (Hl : forall x, lstrip_by is_space ((u_serial u ++ String "," x) ++ eol)
                         = (u_serial u ++ String "," x) ++ eol).
  { intros x. destruct (u_serial u) as [|a serial']; [reflexivity|].
    destruct (stripped_ends is_space _ (proj2 Hs)) as [Hls _].
    assert (Ha : is_space a = false).
    { simpl in Hls. destruct (is_space a); [|reflexivity]. exfalso.
      destruct (lstrip_by_shorter is_space serial') as [E|Hlt];
        [rewrite E in Hls|]; apply (f_equal String.length) in Hls; simpl in Hls; lia. }
    change ((String a serial' ++ String "," x) ++ eol)
      with (String a ((serial' ++ String "," x) ++ eol)).
    cbn [lstrip_by]. rewrite Ha. reflexivity. }
  rewrite Hl, (rstrip_by_blank_tail is_space _ eol Heol).
  apply rstrip_by_app; [|discriminate].
  apply comma_then; [reflexivity|].
  apply rstrip_by_app; [|discriminate].
  apply comma_then; [reflexivity|].
  apply rstrip_by_app; [|discriminate].
  apply comma_then; [reflexivity|].
  apply rstrip_by_app; [|discriminate].
  apply comma_then; [reflexivity|exact G3].
Qed.

Lemma startswith_app_comma (s t : string) :
  startswith "G" s = false -> startswith "G" (s ++ String "," t) = false.
Proof.
  unfold startswith. destruct s as [|a s]; [reflexivity|].
  change (String a s ++ String "," t) with (String a (s ++ String "," t)).
  cbn [String.prefix].
  destruct (ascii_dec "G" a); [destruct s; discriminate|reflexivity].
Qed.

Lemma get_app_lt (s t : string) :
  forall n, n < String.length s -> String.get n (s ++ t) = String.get n s.
Proof.
  induction s as [|a s IH]; intros n Hn; simpl in Hn; [lia|].
  change (String a s ++ t) with (String a (s ++ t)).
  destruct n as [|n]; [reflexivity|]. cbn [String.get]. apply IH. lia.
Qed.

Lemma all_chars_get (f : ascii -> bool) (s : string) :
  all_chars f s = true -> forall n c, String.get n s = Some c -> f c = true.
Proof.
  induction s as [|a s IH]; intros H n c Hg; [destruct n; discriminate|].
  simpl in H. apply andb_true_iff in H. destruct H as [Ha Hs].
  destruct n as [|n]; [inversion Hg; subst; exact Ha|].
  cbn [String.get] in Hg. exact (IH Hs n c Hg).
Qed.

(** X19. What the header test does to a roster that has no header and
    starts with a row, written in ASCII text.  A first row whose serial
    number has 12 characters and starts with G is parsed as the first row.
    A first row of more than 12 characters in all whose serial number does
    not start with G, or is longer than 12 characters, is taken for a
    header: it is dropped with no warning, and the lines after it are
    parsed and numbered as if it had not been there. *)
Theorem first_line_header_test (u : roster_update) (eol : string) (rest : list string) :
  plain_row u -> all_chars is_space eol = true ->
  forallb isascii ((render_row u ++ eol) :: rest) = true ->
  (String.length (u_serial u) = 12 -> startswith "G" (u_serial u) = true ->
   fst (parse_csv_updates (FileLines ((render_row u ++ eol) :: rest)))
     = u :: fst (parse_lines 2 rest)) /\
  (12 < String.length (render_row u) ->
   startswith "G" (u_serial u) = false \/ 12 < String.length (u_serial u) ->
   parse_csv_updates (FileLines ((render_row u ++ eol) :: rest)) = parse_lines 1 rest).
Proof.
  intros Hplain Heol _.
  pose proof (strip_rendered_row u eol Hplain Heol) as Hstrip.
  assert (Hrow : render_row u
                 = u_serial u ++ String "," (u_id u ++ String "," (u_vin u ++ String ","
                     (u_name u ++ String "," (join "|" (u_groups u))))))
    by reflexivity.
  split.
  - intros Hlen Hg.
    pose proof (parse_rendered_row u eol Hplain Heol) as Hparse.
    unfold parse_csv_updates, data_lines, is_header. rewrite Hstrip, Hrow.
    rewrite (startswith_app _ _ Hg). rewrite <- Hlen at 2. rewrite get_after.
    rewrite Ascii.eqb_refl. rewrite andb_false_r. rewrite <- Hrow.
    cbn [parse_lines]. rewrite Hparse.
    destruct (parse_lines 2 rest) as [us ws]. reflexivity.
  - intros Hlong Hserial.
    assert (Hhead : is_header (render_row u) = true).
    { unfold is_header. apply Nat.ltb_lt in Hlong. rewrite Hlong. rewrite Hrow.
      destruct Hserial as [Hg|Hlen].
      - rewrite (startswith_app_comma _ _ Hg). reflexivity.
      - rewrite (get_app_lt _ _ 12 Hlen).
        destruct (String.get 12 (u_serial u)) as [c|] eqn:Hc; [|apply orb_true_r].
        destruct Hplain as ((Hchars & _) & _).
        pose proof (all_chars_get field_char _ Hchars 12 c Hc) as Hf.
        unfold field_char in Hf. destruct (Ascii.eqb c ","); [discriminate|].
        apply orb_true_r. }
    unfold parse_csv_updates, data_lines. rewrite Hstrip, Hhead. reflexivity.
Qed.

Lemma first_line_header_test_witness :
  (plain_row (mkUpdate "V-1003" "17" "1HGCM82633A004352" "Van 3" ["b2868"]) /\
   all_chars is_space (String LF EmptyString) = true /\
   forallb isascii
     [render_row (mkUpdate "V-1003" "17" "1HGCM82633A004352" "Van 3" ["b2868"])
        ++ String LF EmptyString;
      "G9BBBBBBBBBB,18,Truck 8"] = true /\
   12 < String.length
          (render_row (mkUpdate "V-1003" "17" "1HGCM82633A004352" "Van 3" ["b2868"])) /\
   startswith "G" "V-1003" = false) /\
  parse_csv_updates
    (FileLines ["V-1003,17,1HGCM82633A004352,Van 3,b2868" ++ String LF EmptyString;
                "G9BBBBBBBBBB,18,Truck 8"])
    = ([], [InvalidFormat 1 3]).
Proof.
  assert (H : plain_row (mkUpdate "V-1003" "17" "1HGCM82633A004352" "Van 3" ["b2868"])).
  { unfold plain_row, plain_field. simpl.
    repeat split; try reflexivity.
    repeat constructor; try reflexivity; discriminate. }
  assert (Hlong : 12 < String.length
                         (render_row (mkUpdate "V-1003" "17" "1HGCM82633A004352" "Van 3"
                                        ["b2868"])))
    by (vm_compute; lia).
  split; [split; [exact H|split; [reflexivity|split; [reflexivity|split;
            [exact Hlong|reflexivity]]]]|].
  exact (proj2 (first_line_header_test
                  (mkUpdate "V-1003" "17" "1HGCM82633A004352" "Van 3" ["b2868"])
                  (String LF EmptyString) ["G9BBBBBBBBBB,18,Truck 8"]
                  H eq_refl eq_refl)
               Hlong (or_introl eq_refl)).
Defined.

(** X20. The sync after the reports sends nothing when the download
    fails, when the roster is missing, unreadable or empty, and when none of
    the data lines of an ASCII roster has five fields: then the group table
    is not even read, so that a cyclic one does no harm.  In every other
    case the outcome for an ASCII roster is that of
    [sync_vehicles_with_geotab] on the rows parsed. *)
Theorem sync_needs_a_row (depth : nat) (file : roster_file) (devices : list device)
    (groups_dict : gmap string group) :
  process_chevin_sync depth false file devices groups_dict = Some [] /\
  (ascii_file file = true ->
   (forall lines, file = FileLines lines ->
      forall l, In l (data_lines lines) -> ~ well_formed l) ->
   process_chevin_sync depth true file devices groups_dict = Some []) /\
  (ascii_file file = true ->
   fst (parse_csv_updates file) <> [] ->
   process_chevin_sync depth true file devices groups_dict
     = sync_vehicles_with_geotab depth devices groups_dict (fst (parse_csv_updates file))).
Proof.
  split; [reflexivity|]. split.
  - intros _ H. unfold process_chevin_sync.
    assert (E : fst (parse_csv_updates file) = []).
    { destruct file as [| |lines]; [reflexivity|reflexivity|].
      destruct lines as [|first rest]; [reflexivity|].
      unfold parse_csv_updates. apply parse_lines_none. apply (H _ eq_refl). }
    rewrite E. reflexivity.
  - intros _ H. unfold process_chevin_sync.
    destruct (fst (parse_csv_updates file)); [congruence|reflexivity].
Qed.

Lemma sync_needs_a_row_witness :
  (ascii_file (FileLines ["G9BBBBBBBBBB,18,Truck 8"]) = true /\
   forall lines, FileLines ["G9BBBBBBBBBB,18,Truck 8"] = FileLines lines ->
     forall l, In l (data_lines lines) -> ~ well_formed l) /\
  process_chevin_sync 0 true (FileLines ["G9BBBBBBBBBB,18,Truck 8"]) [truck7] looped
    = Some [].
Proof.
  assert (H : forall lines, FileLines ["G9BBBBBBBBBB,18,Truck 8"] = FileLines lines ->
                forall l, In l (data_lines lines) -> ~ well_formed l).
  { intros lines E l Hl. inversion E; subst lines. vm_compute in Hl.
    destruct Hl as [<-|[]]. vm_compute. discriminate. }
  split; [split; [reflexivity|exact H]|].
  exact (proj1 (proj2 (sync_needs_a_row 0 (FileLines ["G9BBBBBBBBBB,18,Truck 8"])
                         [truck7] looped)) eq_refl H).
Defined.

End RosterMore.

(** ** Telemetry window cache: what the reports read from it *)

Module CacheReads.
Import Py Telemetry Queries TelemetryFacts.

(** X9. The engine hours reported for a device are the value of a reading
    of that device from the engine-hours batch that no other reading of the
    device in the batch is later than, and [0] when the batch holds no
    reading of the device. *)
Theorem engine_hours_of_latest_reading (odometer engine_hours : list status_data)
    (oc ec : gmap string status_data) (d : string) :
  cache_batch_data odometer engine_hours = Ok (oc, ec) -> d <> "" ->
  ((forall r, ~ reading_of d engine_hours r) -> get_current_engine_hours ec d = 0%Q) /\
  ((exists r0, reading_of d engine_hours r0) ->
   exists r, latest_of d engine_hours r /\ get_current_engine_hours ec d = sd_data r).
Proof.
  intros Hrun Hd. unfold cache_batch_data in Hrun.
  destruct (latest_readings odometer ∅) as [oc'|] eqn:Ho; simpl in Hrun; [|discriminate].
  destruct (latest_readings engine_hours ∅) as [ec'|] eqn:He; simpl in Hrun; [|discriminate].
  inversion Hrun; subst oc' ec'. unfold get_current_engine_hours. split.
  - intros Hno.
    destruct (latest_readings_inv engine_hours ∅ ec d He Hd)
      as [(r & Hc & Horig & _)|(Hc & _)].
    + exfalso. destruct Horig as [E|Hr]; [rewrite lookup_empty in E; discriminate|].
      exact (Hno r Hr).
    + rewrite Hc. reflexivity.
  - intros Hex.
    destruct (latest_readings_max engine_hours ec d He Hd Hex) as (r & Hc & Hr & Hmax).
    exists r. rewrite Hc. split; [split; assumption|reflexivity].
Qed.

Lemma engine_hours_of_latest_reading_witness :
  cache_batch_data []
    [reading_X "2024-05-01T10:40:00.000Z" 140; reading_X "2024-05-01T10:00:00.000Z" 100]
    = Ok (∅, {[ "X" := reading_X "2024-05-01T10:40:00.000Z" 140 ]}) /\
  ((forall r, ~ reading_of "Y"
                  [reading_X "2024-05-01T10:40:00.000Z" 140;
                   reading_X "2024-05-01T10:00:00.000Z" 100] r) ->
   get_current_engine_hours {[ "X" := reading_X "2024-05-01T10:40:00.000Z" 140 ]} "Y"
     = 0%Q).
Proof.
  split; [reflexivity|].
  apply (proj1 (engine_hours_of_latest_reading []
                  [reading_X "2024-05-01T10:40:00.000Z" 140;
                   reading_X "2024-05-01T10:00:00.000Z" 100]
                  ∅ {[ "X" := reading_X "2024-05-01T10:40:00.000Z" 140 ]} "Y"
                  eq_refl ltac:(discriminate))).
Defined.

End CacheReads.

(** ** Report formatting: the UTC suffix of a timestamp *)

Module TimestampMore.
Import Py Format.

Lemma length_app (s t : string) :
  String.length (s ++ t) = String.length s + String.length t.
Proof.
  induction s as [|a s IH]; [reflexivity|].
  change (String a s ++ t) with (String a (s ++ t)). simpl. rewrite IH. reflexivity.
Qed.

Lemma drop_app (s t : string) (n : nat) :
  drop (String.length s + n) (s ++ t) = drop n t.
Proof.
  induction s as [|a s IH]; [reflexivity|].
  change (String a s ++ t) with (String a (s ++ t)). simpl. exact IH.
Qed.

Lemma take_app (s t : string) : take (String.length s) (s ++ t) = s.
Proof.
  induction s as [|a s IH]; [destruct t; reflexivity|].
  change (String a s ++ t) with (String a (s ++ t)). simpl. rewrite IH. reflexivity.
Qed.

Lemma endswith_app (s t : string) : endswith t (s ++ t) = true.
Proof.
  unfold endswith. rewrite length_app.
  replace (String.length s + String.length t - String.length t) with (String.length s + 0)
    by lia.
  rewrite drop_app. simpl. rewrite String.eqb_refl.
  rewrite andb_true_r. apply Nat.leb_le. lia.
Qed.

Lemma utc_suffixed_zulu (s : string) : utc_suffixed (s ++ "Z") = s ++ "+00:00".
Proof.
  unfold utc_suffixed. rewrite endswith_app. rewrite length_app. simpl.
  replace (String.length s + 1 - 1) with (String.length s) by lia.
  rewrite take_app. reflexivity.
Qed.

Lemma utc_suffixed_offset (s : string) : utc_suffixed (s ++ "+00:00") = s ++ "+00:00".
Proof.
  unfold utc_suffixed.
  assert (Hz : endswith "Z" (s ++ "+00:00") = false).
  { unfold endswith. rewrite length_app. simpl.
    replace (String.length s + 6 - 1) with (String.length s + 5) by lia.
    rewrite drop_app. simpl. apply andb_false_r. }
  rewrite Hz, endswith_app. reflexivity.
Qed.

Section Zulu.
Variable datetime : Type.
Variable fromisoformat : string -> result datetime.
Variable tzinfo_is_none : datetime -> bool.
Variable utc_localize : datetime -> result datetime.
Variable astimezone_eastern : datetime -> result datetime.
Variable strftime : datetime -> string -> result string.

(** X21. A timestamp text that ends in Z is formatted exactly as the same
    text with the explicit offset +00:00 in place of the Z: the library
    parser never sees the Z, and whatever it makes of the one text it makes
    of the other. *)
Theorem zulu_suffix_is_utc_offset (s : string) :
  format_datetime datetime fromisoformat tzinfo_is_none utc_localize
    astimezone_eastern strftime (TStr (s ++ "Z"))
  = format_datetime datetime fromisoformat tzinfo_is_none utc_localize
      astimezone_eastern strftime (TStr (s ++ "+00:00")).
Proof.
  unfold format_datetime, format_datetime_body.
  assert (H1 : dt_falsy datetime (TStr (s ++ "Z")) = false) by (destruct s; reflexivity).
  assert (H2 : dt_falsy datetime (TStr (s ++ "+00:00")) = false) by (destruct s; reflexivity).
  rewrite H1, H2, utc_suffixed_zulu, utc_suffixed_offset. reflexivity.
Qed.
End Zulu.

End TimestampMore.
